(** * Memory compaction (mm/compaction.c): a shallow embedding

    The functions of mm/compaction.c are translated one by one into Rocq
    functions.  Everything the file calls but does not define (the buddy
    allocator, the LRU, the scheduler, vmstat, the zonelist machinery) is
    gathered in the [Kernel] interface below: an abstract kernel state [K]
    with the observers and state transformers the source calls.  The
    theorems hold for every implementation of that interface; [Toy] at the
    end of the definitions is one small implementation on which the
    functions can be run.

    Conventions.
    - A [struct page *] is identified with its page frame number, so that
      [pfn_to_page] is the identity and [page++] is [pfn + 1].
    - [unsigned long] and [int] values are integers in [Z].  PFN arithmetic
      is written without reduction modulo the word size: page frame numbers
      are bounded by the physical address width and the additions of the
      source cannot reach 2^BITS_PER_LONG.  The unsigned subtractions
      whose operands are not ordered by construction
      ([cc->nr_freepages -= ...] and [cc->nr_freepages--]) are written with
      their wrap-around.
    - A [struct list_head] of pages is a [list pfn]; [list_add] is cons.
    - Loops whose trip count is bounded by a PFN or order range recurse on a
      fuel equal to that bound (the [_fuel] lemmas show that the bound is
      never exhausted: any larger fuel gives the same result); loops that
      wait on other actors (the backpressure wait, the main loop of
      [compact_zone]) take an explicit fuel and return [None] when it runs
      out.
    - Tracepoints and [VM_BUG_ON] assertions have no effect on the state and
      are left out. *)

From Stdlib Require Import ZArith List Bool Lia.
Import ListNotations.
Open Scope Z_scope.

Definition pfn := Z.
Definition zone_id := Z.
Definition node_id := Z.

Inductive lock : Type :=
| zone_lock (z : zone_id)
| lru_lock (z : zone_id).

Inductive zone_stat_item : Type :=
| NR_INACTIVE_ANON | NR_ACTIVE_ANON | NR_INACTIVE_FILE | NR_ACTIVE_FILE
| NR_ISOLATED_ANON | NR_ISOLATED_FILE.

Inductive vm_event_item : Type :=
| COMPACTBLOCKS | COMPACTPAGES | COMPACTPAGEFAILED | COMPACTSTALL.

(** ** Constants of the headers *)

(** Modelled from the spec: the status codes of linux/compaction.h, in the
    order the spec lists them (SKIPPED, CONTINUE, PARTIAL, COMPLETE);
    [try_to_compact_pages] folds them by [max]. *)
Definition COMPACT_SKIPPED : Z := 0.
Definition COMPACT_CONTINUE : Z := 1.
Definition COMPACT_PARTIAL : Z := 2.
Definition COMPACT_COMPLETE : Z := 3.

(** Modelled from the spec: the migrate types of linux/mmzone.h (with
    CONFIG_CMA); MOVABLE requests may capture from every type below
    [MIGRATE_PCPTYPES]. *)
Definition MIGRATE_UNMOVABLE : Z := 0.
Definition MIGRATE_RECLAIMABLE : Z := 1.
Definition MIGRATE_MOVABLE : Z := 2.
Definition MIGRATE_PCPTYPES : Z := 3.
Definition MIGRATE_RESERVE : Z := 3.
Definition MIGRATE_CMA : Z := 4.
Definition MIGRATE_ISOLATE : Z := 5.

(** Modelled from the spec: [is_migrate_cma] of linux/mmzone.h; a block is
    async-suitable iff its type is MOVABLE or CMA. *)
Definition is_migrate_cma (migratetype : Z) : bool := migratetype =? MIGRATE_CMA.

(** Modelled from the spec: the batch sizes of linux/swap.h and the flag
    and errno values the source names. *)
Definition SWAP_CLUSTER_MAX : Z := 32.
Definition COMPACT_CLUSTER_MAX : Z := SWAP_CLUSTER_MAX.
Definition ISOLATE_ASYNC_MIGRATE : Z := 16.
Definition MIGRATE_ASYNC : Z := 0.
Definition MIGRATE_SYNC_LIGHT : Z := 1.
Definition __GFP_IO : Z := 64.
Definition __GFP_FS : Z := 128.
Definition EAGAIN : Z := 11.
Definition ENOMEM : Z := 12.
Definition COMPACT_MAX_DEFER_SHIFT : Z := 6.

(** ** The collaborators *)

Class Kernel : Type := {
  K : Type;

  (* build-time configuration *)
  BITS_PER_LONG : Z;
  MAX_ORDER : Z;
  pageblock_order : Z;
  MAX_ORDER_pos : 0 < MAX_ORDER;
  pageblock_order_nonneg : 0 <= pageblock_order;

  (* memory map *)
  pfn_valid : pfn -> bool;
  pfn_valid_within : pfn -> bool;
  page_zone : pfn -> zone_id;
  zone_start_pfn : zone_id -> N;
  spanned_pages : zone_id -> N;

  (* scheduler, locks, signals *)
  need_resched : K -> bool;
  spin_is_contended : lock -> K -> bool;
  spin_lock_irqsave : lock -> K -> K;
  spin_unlock_irqrestore : lock -> K -> K;
  cond_resched : K -> K;
  fatal_signal_pending : K -> bool;
  congestion_wait : K -> K;

  (* page flags *)
  PageBuddy : pfn -> K -> bool;
  PageLRU : pfn -> K -> bool;
  PageTransHuge : pfn -> K -> bool;
  page_order : pfn -> K -> Z;
  compound_order : pfn -> K -> N;
  page_is_file_cache : pfn -> K -> bool;
  page_lru : pfn -> K -> Z;
  get_pageblock_migratetype : pfn -> K -> Z;

  (* buddy allocator *)
  split_free_page : pfn -> K -> N * K;
  capture_free_page : pfn -> Z -> Z -> K -> bool * K;
  __free_page : pfn -> K -> K;
  arch_alloc_page : pfn -> Z -> K -> K;
  kernel_map_pages : pfn -> Z -> Z -> K -> K;
  free_list : zone_id -> Z -> Z -> K -> list pfn;
  nr_free : zone_id -> Z -> K -> Z;
  low_wmark_pages : zone_id -> K -> Z;
  zone_watermark_ok : zone_id -> Z -> Z -> Z -> Z -> K -> bool;
  fragmentation_index : zone_id -> Z -> K -> Z;
  sysctl_extfrag_threshold : K -> Z;

  (* vmstat *)
  zone_page_state : zone_id -> zone_stat_item -> K -> Z;
  mod_zone_page_state : zone_id -> zone_stat_item -> Z -> K -> K;
  __mod_zone_page_state : zone_id -> zone_stat_item -> Z -> K -> K;
  count_vm_event : vm_event_item -> K -> K;
  count_vm_events : vm_event_item -> Z -> K -> K;

  (* LRU and migration primitives *)
  __isolate_lru_page : pfn -> Z -> K -> Z * K;
  del_page_from_lru_list : zone_id -> pfn -> Z -> K -> K;
  putback_lru_pages : list pfn -> K -> K;
  putback_lru_page : pfn -> K -> K;
  __unmap_and_move : pfn -> pfn -> bool -> bool -> Z -> K -> Z * K;
  migrate_prep_local : K -> K;
  lru_add_drain_all : K -> K;

  (* zonelists and nodes *)
  gfp_zone : Z -> Z;
  allocflags_to_migratetype : Z -> Z;
  zonelist_zones : Z -> Z -> Z -> list zone_id;
  online_nodes : K -> list node_id;
  node_zones : node_id -> list zone_id;
  populated_zone : zone_id -> K -> bool
}.

(** ** The compaction control block *)

(** Modelled from the spec: struct compact_control (declared in
    mm/internal.h), with the fields the spec's data model lists and the
    source uses. *)

Record compact_control : Type := mk_cc {
  freepages : list pfn;
  migratepages : list pfn;
  nr_freepages : Z;
  nr_migratepages : Z;
  free_pfn : Z;
  migrate_pfn : Z;
  sync : bool;
  order : Z;
  migratetype : Z;
  zone : option zone_id;
  contended : option bool;          (* bool *: None is a NULL pointer *)
  page : option (option pfn)        (* struct page **: Some None is an empty slot *)
}.

Definition set_freelist (cc : compact_control) (l : list pfn) (n : Z) :=
  mk_cc l (migratepages cc) n (nr_migratepages cc) (free_pfn cc)
        (migrate_pfn cc) (sync cc) (order cc) (migratetype cc) (zone cc)
        (contended cc) (page cc).

Definition set_migratelist (cc : compact_control) (l : list pfn) (n : Z) :=
  mk_cc (freepages cc) l (nr_freepages cc) n (free_pfn cc)
        (migrate_pfn cc) (sync cc) (order cc) (migratetype cc) (zone cc)
        (contended cc) (page cc).

Definition set_free_pfn (cc : compact_control) (v : Z) :=
  mk_cc (freepages cc) (migratepages cc) (nr_freepages cc) (nr_migratepages cc)
        v (migrate_pfn cc) (sync cc) (order cc) (migratetype cc) (zone cc)
        (contended cc) (page cc).

Definition set_migrate_pfn (cc : compact_control) (v : Z) :=
  mk_cc (freepages cc) (migratepages cc) (nr_freepages cc) (nr_migratepages cc)
        (free_pfn cc) v (sync cc) (order cc) (migratetype cc) (zone cc)
        (contended cc) (page cc).

Definition set_zone (cc : compact_control) (z : zone_id) :=
  mk_cc (freepages cc) (migratepages cc) (nr_freepages cc) (nr_migratepages cc)
        (free_pfn cc) (migrate_pfn cc) (sync cc) (order cc) (migratetype cc)
        (Some z) (contended cc) (page cc).

(** [if (cc->contended) *cc->contended = true;] *)
Definition set_contended (cc : compact_control) :=
  mk_cc (freepages cc) (migratepages cc) (nr_freepages cc) (nr_migratepages cc)
        (free_pfn cc) (migrate_pfn cc) (sync cc) (order cc) (migratetype cc)
        (zone cc)
        (match contended cc with Some _ => Some true | None => None end)
        (page cc).

(** [*cc->page = page;] (only reached with a non-NULL [cc->page]) *)
Definition set_page (cc : compact_control) (pg : pfn) :=
  mk_cc (freepages cc) (migratepages cc) (nr_freepages cc) (nr_migratepages cc)
        (free_pfn cc) (migrate_pfn cc) (sync cc) (order cc) (migratetype cc)
        (zone cc) (contended cc)
        (match page cc with Some _ => Some (Some pg) | None => None end).

Inductive isolate_migrate_t : Type :=
| ISOLATE_ABORT
| ISOLATE_NONE
| ISOLATE_SUCCESS.

(** Modelled from the spec: the deferral state of a zone, that is the
    fields of struct zone (linux/mmzone.h) this subsystem writes: the
    deferral counters and the [compact_order_failed] floor. *)
Record zone_defer : Type := mk_defer {
  compact_considered : Z;
  compact_defer_shift : Z;
  compact_order_failed : Z
}.

Definition list_empty {A : Type} (l : list A) : bool :=
  match l with [] => true | _ :: _ => false end.

Section Compaction.

Context {kern : Kernel}.

Definition pageblock_nr_pages : Z := Z.shiftl 1 pageblock_order.
Definition MAX_ORDER_NR_PAGES : Z := Z.shiftl 1 (MAX_ORDER - 1).

(** [ALIGN(x, a)] of linux/kernel.h, for a power of two [a]. *)
Definition ALIGN (x a : Z) : Z := Z.land (x + (a - 1)) (Z.lnot (a - 1)).

(** Unsigned long subtraction. *)
Definition ulong_sub (a b : Z) : Z := (a - b) mod 2 ^ BITS_PER_LONG.

Fixpoint release_freepages_from (freelist : list pfn) (count : Z) (k : K)
  : Z * list pfn * K :=
  match freelist with
  | [] => (count, [], k)
  | pg :: next => release_freepages_from next (count + 1) (__free_page pg k)
  end.

Definition release_freepages (freelist : list pfn) (k : K) : Z * list pfn * K :=
  release_freepages_from freelist 0 k.

Fixpoint map_pages (l : list pfn) (k : K) : K :=
  match l with
  | [] => k
  | pg :: rest =>
      map_pages rest (kernel_map_pages pg 1 1 (arch_alloc_page pg 0 k))
  end.

Definition migrate_async_suitable (mt : Z) : bool :=
  is_migrate_cma mt || (mt =? MIGRATE_MOVABLE).

Definition compact_checklock_irqsave (l : lock) (locked : bool)
    (cc : compact_control) (k : K) : bool * compact_control * K :=
  if need_resched k || spin_is_contended l k then
    let '(locked, k) :=
      if locked then (false, spin_unlock_irqrestore l k) else (locked, k) in
    if negb (sync cc) then (false, set_contended cc, k)
    else
      let k := cond_resched k in
      if fatal_signal_pending k then (false, cc, k)
      else (true, cc, if locked then k else spin_lock_irqsave l k)
  else (true, cc, if locked then k else spin_lock_irqsave l k).

Definition compact_trylock_irqsave (l : lock) (cc : compact_control) (k : K)
  : bool * compact_control * K :=
  compact_checklock_irqsave l false cc k.

(** The inner loop of [compact_capture_page]:
    [for (order = cc->order; order < MAX_ORDER; order++)].  The boolean
    says whether the function returned from inside the loop. *)
Fixpoint compact_capture_orders (fuel : nat) (z : zone_id) (mtype ord : Z)
    (cc : compact_control) (k : K) : bool * compact_control * K :=
  match fuel with
  | O => (false, cc, k)
  | S fuel' =>
      if ord <? MAX_ORDER then
        if list_empty (free_list z ord mtype k) then
          compact_capture_orders fuel' z mtype (ord + 1) cc k
        else
          let '(locked, cc, k) := compact_trylock_irqsave (zone_lock z) cc k in
          if negb locked then (true, cc, k)
          else
            match free_list z ord mtype k with
            | pg :: _ =>
                let '(ok, k) := capture_free_page pg (order cc) mtype k in
                if ok then
                  (true, set_page cc pg, spin_unlock_irqrestore (zone_lock z) k)
                else
                  compact_capture_orders fuel' z mtype (ord + 1) cc
                    (spin_unlock_irqrestore (zone_lock z) k)
            | [] =>
                compact_capture_orders fuel' z mtype (ord + 1) cc
                  (spin_unlock_irqrestore (zone_lock z) k)
            end
      else (false, cc, k)
  end.

(** The outer loop: [for (mtype = mtype_low; mtype < mtype_high; mtype++)]. *)
Fixpoint compact_capture_mtypes (fuel : nat) (z : zone_id)
    (mtype mtype_high : Z) (cc : compact_control) (k : K)
  : compact_control * K :=
  match fuel with
  | O => (cc, k)
  | S fuel' =>
      if mtype <? mtype_high then
        let '(returned, cc, k) :=
          compact_capture_orders (Z.to_nat (MAX_ORDER - order cc)) z mtype
            (order cc) cc k in
        if returned then (cc, k)
        else compact_capture_mtypes fuel' z (mtype + 1) mtype_high cc k
      else (cc, k)
  end.

Definition compact_capture_page (cc : compact_control) (k : K)
  : compact_control * K :=
  match page cc, zone cc with
  | Some None, Some z =>
      let '(mtype_low, mtype_high) :=
        if migratetype cc =? MIGRATE_MOVABLE then (0, MIGRATE_PCPTYPES)
        else (migratetype cc, migratetype cc + 1) in
      compact_capture_mtypes (Z.to_nat (mtype_high - mtype_low)) z
        mtype_low mtype_high cc k
  | _, _ => (cc, k)
  end.

(** [for (i = 0; i < isolated; i++) { list_add(&page->lru, freelist); page++; }] *)
Fixpoint list_add_pages (n : nat) (pg : pfn) (freelist : list pfn) : list pfn :=
  match n with
  | O => freelist
  | S n' => list_add_pages n' (pg + 1) (pg :: freelist)
  end.

(** One iteration of the loop of [isolate_freepages_block], entered with
    [blockpfn < end_pfn]: either the function returns 0 (strict mode), or
    the loop goes on at the next PFN with the new list and total. *)
Inductive block_step : Type :=
| Block_return0 (freelist : list pfn) (k : K)
| Block_next (blockpfn : pfn) (freelist : list pfn) (total_isolated : Z) (k : K).

Definition isolate_freepages_block_body (blockpfn : pfn)
    (freelist : list pfn) (strict : bool) (total_isolated : Z) (k : K)
  : block_step :=
  if negb (pfn_valid_within blockpfn) then
    if strict then Block_return0 freelist k
    else Block_next (blockpfn + 1) freelist total_isolated k
  else if negb (PageBuddy blockpfn k) then
    if strict then Block_return0 freelist k
    else Block_next (blockpfn + 1) freelist total_isolated k
  else
    let '(n, k) := split_free_page blockpfn k in
    let isolated := Z.of_N n in
    if (isolated =? 0) && strict then Block_return0 freelist k
    else
      let total_isolated := total_isolated + isolated in
      let freelist := list_add_pages (N.to_nat n) blockpfn freelist in
      let blockpfn :=
        if isolated =? 0 then blockpfn else blockpfn + (isolated - 1) in
      Block_next (blockpfn + 1) freelist total_isolated k.

Fixpoint isolate_freepages_block_loop (fuel : nat) (blockpfn end_pfn : pfn)
    (freelist : list pfn) (strict : bool) (total_isolated : Z) (k : K)
  : Z * list pfn * K :=
  match fuel with
  | O => (total_isolated, freelist, k)
  | S fuel' =>
      if blockpfn <? end_pfn then
        match isolate_freepages_block_body blockpfn freelist strict
                total_isolated k with
        | Block_return0 freelist k => (0, freelist, k)
        | Block_next blockpfn freelist total_isolated k =>
            isolate_freepages_block_loop fuel' blockpfn end_pfn freelist
              strict total_isolated k
        end
      else (total_isolated, freelist, k)
  end.

Definition isolate_freepages_block (blockpfn end_pfn : pfn)
    (freelist : list pfn) (strict : bool) (k : K) : Z * list pfn * K :=
  isolate_freepages_block_loop (Z.to_nat (end_pfn - blockpfn)) blockpfn
    end_pfn freelist strict 0 k.

(** The loop of [isolate_freepages_range]; [zone] is [None] when
    [start_pfn] is not valid (the NULL zone differs from every page's
    zone). *)
Fixpoint isolate_freepages_range_loop (fuel : nat) (zone : option zone_id)
    (pfn0 end_pfn : pfn) (freelist : list pfn) (k : K)
  : pfn * list pfn * K :=
  match fuel with
  | O => (pfn0, freelist, k)
  | S fuel' =>
      if pfn0 <? end_pfn then
        match zone with
        | None => (pfn0, freelist, k)
        | Some z =>
            if negb (pfn_valid pfn0) || negb (z =? page_zone pfn0) then
              (pfn0, freelist, k)
            else
              let block_end_pfn := ALIGN (pfn0 + 1) pageblock_nr_pages in
              let block_end_pfn := Z.min block_end_pfn end_pfn in
              let k := spin_lock_irqsave (zone_lock z) k in
              let '(isolated, freelist, k) :=
                isolate_freepages_block pfn0 block_end_pfn freelist true k in
              let k := spin_unlock_irqrestore (zone_lock z) k in
              if isolated =? 0 then (pfn0, freelist, k)
              else
                isolate_freepages_range_loop fuel' zone (pfn0 + isolated)
                  end_pfn freelist k
        end
      else (pfn0, freelist, k)
  end.

(** The scan of [isolate_freepages_range], up to [map_pages]: the PFN the
    loop stopped at, the local free list and the kernel state. *)
Definition isolate_freepages_range_scan (start_pfn end_pfn : pfn) (k : K)
  : pfn * list pfn * K :=
  let zone :=
    if pfn_valid start_pfn then Some (page_zone start_pfn) else None in
  isolate_freepages_range_loop (Z.to_nat (end_pfn - start_pfn)) zone
    start_pfn end_pfn [] k.

(** Returns the PFN result, the content of the local [freelist] on return
    and the kernel state. *)
Definition isolate_freepages_range (start_pfn end_pfn : pfn) (k : K)
  : pfn * list pfn * K :=
  let '(pfn0, freelist, k) := isolate_freepages_range_scan start_pfn end_pfn k in
  let k := map_pages freelist k in
  if pfn0 <? end_pfn then
    let '(_, freelist, k) := release_freepages freelist k in
    (0, freelist, k)
  else (pfn0, freelist, k).

(** Update the number of anon and file isolated pages in the zone. *)
Fixpoint count_isolated (l : list pfn) (k : K) (count0 count1 : Z) : Z * Z :=
  match l with
  | [] => (count0, count1)
  | pg :: rest =>
      if page_is_file_cache pg k then count_isolated rest k count0 (count1 + 1)
      else count_isolated rest k (count0 + 1) count1
  end.

Definition acct_isolated (z : zone_id) (locked : bool) (cc : compact_control)
    (k : K) : K :=
  let '(count0, count1) := count_isolated (migratepages cc) k 0 0 in
  if locked then
    __mod_zone_page_state z NR_ISOLATED_FILE count1
      (__mod_zone_page_state z NR_ISOLATED_ANON count0 k)
  else
    mod_zone_page_state z NR_ISOLATED_FILE count1
      (mod_zone_page_state z NR_ISOLATED_ANON count0 k).

Definition too_many_isolated (z : zone_id) (k : K) : bool :=
  let inactive :=
    zone_page_state z NR_INACTIVE_FILE k + zone_page_state z NR_INACTIVE_ANON k in
  let active :=
    zone_page_state z NR_ACTIVE_FILE k + zone_page_state z NR_ACTIVE_ANON k in
  let isolated :=
    zone_page_state z NR_ISOLATED_FILE k + zone_page_state z NR_ISOLATED_ANON k in
  isolated >? (inactive + active) / 2.

(** The backpressure loop at the head of [isolate_migratepages_range]:
    [Some (true, k)] when the function returns 0 from inside the loop,
    [Some (false, k)] when the loop is left and the scan starts. *)
Fixpoint too_many_isolated_wait (fuel : nat) (z : zone_id)
    (cc : compact_control) (k : K) : option (bool * K) :=
  if too_many_isolated z k then
    if negb (sync cc) then Some (true, k)
    else
      match fuel with
      | O => None
      | S fuel' =>
          let k := congestion_wait k in
          if fatal_signal_pending k then Some (true, k)
          else too_many_isolated_wait fuel' z cc k
      end
  else Some (false, k).

(** One iteration of the scan loop of [isolate_migratepages_range],
    entered with [low_pfn < end_pfn].  [Scan_break] is a [break] (the PFN
    is the value of [low_pfn] on leaving the loop); [Scan_next] is a
    [continue] or the end of the body, with [low_pfn] already incremented
    by the loop header. *)
Inductive scan_step : Type :=
| Scan_break (low_pfn : pfn) (locked : bool) (cc : compact_control) (k : K)
| Scan_next (low_pfn : pfn) (last_pageblock_nr : Z) (mode : Z)
            (cc : compact_control) (k : K).

(** The head of the loop body: the periodic release of the LRU lock and
    the check that it is ok to still hold it. *)
Definition isolate_migratepages_lock_check (z : zone_id) (low_pfn : pfn)
    (locked : bool) (cc : compact_control) (k : K)
  : bool * compact_control * K :=
  let '(locked, k) :=
    if (low_pfn + 1) mod SWAP_CLUSTER_MAX =? 0 then
      (false, spin_unlock_irqrestore (lru_lock z) k)
    else (locked, k) in
  compact_checklock_irqsave (lru_lock z) locked cc k.

Definition isolate_migratepages_body (z : zone_id) (low_pfn : pfn)
    (last_pageblock_nr mode : Z) (locked : bool) (cc : compact_control)
    (k : K) : scan_step :=
  let '(locked, cc, k) := isolate_migratepages_lock_check z low_pfn locked cc k in
  if negb locked then Scan_break low_pfn locked cc k
  else if (Z.land low_pfn (MAX_ORDER_NR_PAGES - 1) =? 0)
          && negb (pfn_valid low_pfn) then
    Scan_next (low_pfn + (MAX_ORDER_NR_PAGES - 1) + 1) last_pageblock_nr mode cc k
  else if negb (pfn_valid_within low_pfn) then
    Scan_next (low_pfn + 1) last_pageblock_nr mode cc k
  else if negb (page_zone low_pfn =? z) then
    Scan_next (low_pfn + 1) last_pageblock_nr mode cc k
  else if PageBuddy low_pfn k then
    Scan_next (low_pfn + 1) last_pageblock_nr mode cc k
  else
    let pageblock_nr := Z.shiftr low_pfn pageblock_order in
    if negb (sync cc) && negb (last_pageblock_nr =? pageblock_nr)
       && negb (migrate_async_suitable (get_pageblock_migratetype low_pfn k))
    then
      let low_pfn := low_pfn + pageblock_nr_pages in
      let low_pfn := ALIGN low_pfn pageblock_nr_pages - 1 in
      Scan_next (low_pfn + 1) pageblock_nr mode cc k
    else if negb (PageLRU low_pfn k) then
      Scan_next (low_pfn + 1) last_pageblock_nr mode cc k
    else if PageTransHuge low_pfn k then
      Scan_next
        (low_pfn + (Z.shiftl 1 (Z.of_N (compound_order low_pfn k)) - 1) + 1)
        last_pageblock_nr mode cc k
    else
      let mode :=
        if negb (sync cc) then Z.lor mode ISOLATE_ASYNC_MIGRATE else mode in
      let '(rc, k) := __isolate_lru_page low_pfn mode k in
      if negb (rc =? 0) then
        Scan_next (low_pfn + 1) last_pageblock_nr mode cc k
      else
        let k := del_page_from_lru_list z low_pfn (page_lru low_pfn k) k in
        let cc :=
          set_migratelist cc (low_pfn :: migratepages cc)
            (nr_migratepages cc + 1) in
        if nr_migratepages cc =? COMPACT_CLUSTER_MAX then
          Scan_break (low_pfn + 1) locked cc k
        else Scan_next (low_pfn + 1) last_pageblock_nr mode cc k.

Fixpoint isolate_migratepages_scan (fuel : nat) (z : zone_id)
    (low_pfn end_pfn : pfn) (last_pageblock_nr mode : Z) (locked : bool)
    (cc : compact_control) (k : K) : pfn * bool * compact_control * K :=
  match fuel with
  | O => (low_pfn, locked, cc, k)
  | S fuel' =>
      if low_pfn <? end_pfn then
        match isolate_migratepages_body z low_pfn last_pageblock_nr mode
                locked cc k with
        | Scan_break low_pfn locked cc k => (low_pfn, locked, cc, k)
        | Scan_next low_pfn last_pageblock_nr mode cc k =>
            isolate_migratepages_scan fuel' z low_pfn end_pfn
              last_pageblock_nr mode true cc k
        end
      else (low_pfn, locked, cc, k)
  end.

Definition isolate_migratepages_range (fuel : nat) (z : zone_id)
    (cc : compact_control) (low_pfn end_pfn : pfn) (k : K)
  : option (pfn * compact_control * K) :=
  match too_many_isolated_wait fuel z cc k with
  | None => None
  | Some (true, k) => Some (0, cc, k)
  | Some (false, k) =>
      let k := cond_resched k in
      let k := spin_lock_irqsave (lru_lock z) k in
      let '(low_pfn, locked, cc, k) :=
        isolate_migratepages_scan (Z.to_nat (end_pfn - low_pfn)) z low_pfn
          end_pfn 0 0 true cc k in
      let k := acct_isolated z locked cc k in
      let k := if locked then spin_unlock_irqrestore (lru_lock z) k else k in
      Some (low_pfn, cc, k)
  end.

Definition suitable_migration_target (pg : pfn) (k : K) : bool :=
  let mt := get_pageblock_migratetype pg k in
  if (mt =? MIGRATE_ISOLATE) || (mt =? MIGRATE_RESERVE) then false
  else if PageBuddy pg k && (pageblock_order <=? page_order pg k) then true
  else if migrate_async_suitable mt then true
  else false.

(** The loop of [isolate_freepages]; the free list is [cc->freepages], the
    other loop variables are the locals of the source. *)
Fixpoint isolate_freepages_loop (fuel : nat) (z : zone_id)
    (pfn0 low_pfn high_pfn zone_end_pfn nr_free0 : Z)
    (cc : compact_control) (k : K) : Z * Z * compact_control * K :=
  match fuel with
  | O => (high_pfn, nr_free0, cc, k)
  | S fuel' =>
      if (low_pfn <? pfn0) && (nr_free0 <? nr_migratepages cc) then
        if negb (pfn_valid pfn0) then
          isolate_freepages_loop fuel' z (pfn0 - pageblock_nr_pages) low_pfn
            high_pfn zone_end_pfn nr_free0 cc k
        else if negb (page_zone pfn0 =? z) then
          isolate_freepages_loop fuel' z (pfn0 - pageblock_nr_pages) low_pfn
            high_pfn zone_end_pfn nr_free0 cc k
        else if negb (suitable_migration_target pfn0 k) then
          isolate_freepages_loop fuel' z (pfn0 - pageblock_nr_pages) low_pfn
            high_pfn zone_end_pfn nr_free0 cc k
        else
          let '(locked, cc, k) := compact_trylock_irqsave (zone_lock z) cc k in
          if negb locked then (high_pfn, nr_free0, cc, k)
          else
            let '(isolated, freelist, k) :=
              if suitable_migration_target pfn0 k then
                let end_pfn := Z.min (pfn0 + pageblock_nr_pages) zone_end_pfn in
                isolate_freepages_block pfn0 end_pfn (freepages cc) false k
              else (0, freepages cc, k) in
            let nr_free0 := nr_free0 + isolated in
            let cc := set_freelist cc freelist (nr_freepages cc) in
            let k := spin_unlock_irqrestore (zone_lock z) k in
            let high_pfn :=
              if isolated =? 0 then high_pfn else Z.max high_pfn pfn0 in
            isolate_freepages_loop fuel' z (pfn0 - pageblock_nr_pages) low_pfn
              high_pfn zone_end_pfn nr_free0 cc k
      else (high_pfn, nr_free0, cc, k)
  end.

Definition isolate_freepages (z : zone_id) (cc : compact_control) (k : K)
  : compact_control * K :=
  let nr_free0 := nr_freepages cc in
  let pfn0 := free_pfn cc in
  let low_pfn := migrate_pfn cc + pageblock_nr_pages in
  let high_pfn := Z.min low_pfn pfn0 in
  let zone_end_pfn := Z.of_N (zone_start_pfn z) + Z.of_N (spanned_pages z) in
  let '(high_pfn, nr_free0, cc, k) :=
    isolate_freepages_loop (Z.to_nat (pfn0 - low_pfn)) z pfn0 low_pfn high_pfn
      zone_end_pfn nr_free0 cc k in
  let k := map_pages (freepages cc) k in
  let cc := set_free_pfn cc high_pfn in
  let cc := set_freelist cc (freepages cc) nr_free0 in
  (cc, k).

(** The allocation callback handed to the migration engine; [None] is
    NULL.  [cc->zone] is set by every caller of [compact_zone].  The
    counter is an [unsigned long]: [cc->nr_freepages--] wraps at 0. *)
Definition compaction_alloc (migratepage : pfn) (cc : compact_control) (k : K)
  : option pfn * compact_control * K :=
  let '(cc, k) :=
    if list_empty (freepages cc) then
      match zone cc with
      | Some z => isolate_freepages z cc k
      | None => (cc, k)
      end
    else (cc, k) in
  match freepages cc with
  | [] => (None, cc, k)
  | freepage :: rest =>
      (Some freepage, set_freelist cc rest (ulong_sub (nr_freepages cc) 1), k)
  end.

Definition update_nr_listpages (cc : compact_control) : compact_control :=
  let cc := set_migratelist cc (migratepages cc)
              (Z.of_nat (length (migratepages cc))) in
  set_freelist cc (freepages cc) (Z.of_nat (length (freepages cc))).

(** ** The migration engine *)

Definition new_page_t : Type :=
  pfn -> compact_control -> K -> option pfn * compact_control * K.

(** Modelled from the spec: one pass of [migrate_pages] (mm/migrate.c, not
    part of this file) over the list.  For each page the engine asks the
    callback for a destination; a null destination is out-of-memory and
    stops the engine with the page and the rest of the list left in place.
    Otherwise the page is moved by the engine's primitive: on -EAGAIN the
    page stays on the list to be retried, on any other outcome it leaves
    the list (moved, or put back on its LRU as a permanent failure). *)
Fixpoint migrate_pages_pass (todo kept : list pfn) (get_new_page : new_page_t)
    (pass : Z) (offlining : bool) (mode : Z) (retry nr_failed : Z)
    (cc : compact_control) (k : K)
  : bool * list pfn * Z * Z * compact_control * K :=
  match todo with
  | [] => (false, rev kept, retry, nr_failed, cc, k)
  | pg :: rest =>
      let k := cond_resched k in
      let '(newpage, cc, k) := get_new_page pg cc k in
      match newpage with
      | None => (true, rev kept ++ pg :: rest, retry, nr_failed, cc, k)
      | Some np =>
          let '(rc, k) := __unmap_and_move pg np (2 <? pass) offlining mode k in
          if rc =? - EAGAIN then
            migrate_pages_pass rest (pg :: kept) get_new_page pass offlining
              mode (retry + 1) nr_failed cc k
          else
            let k := putback_lru_page pg k in
            if rc =? - ENOMEM then
              (true, rev kept ++ rest, retry, nr_failed, cc, k)
            else if rc =? 0 then
              migrate_pages_pass rest kept get_new_page pass offlining mode
                retry nr_failed cc k
            else
              migrate_pages_pass rest kept get_new_page pass offlining mode
                retry (nr_failed + 1) cc k
      end
  end.

(** Modelled from the spec: the passes of [migrate_pages]: at most ten,
    as long as the previous pass left pages to retry. *)
Fixpoint migrate_pages_passes (n : nat) (from : list pfn)
    (get_new_page : new_page_t) (pass : Z) (offlining : bool) (mode : Z)
    (retry nr_failed : Z) (cc : compact_control) (k : K)
  : Z * list pfn * compact_control * K :=
  match n with
  | O => (nr_failed + retry, from, cc, k)
  | S n' =>
      if retry =? 0 then (nr_failed + retry, from, cc, k)
      else
        let '(enomem, from, retry, nr_failed, cc, k) :=
          migrate_pages_pass from [] get_new_page pass offlining mode 0
            nr_failed cc k in
        if enomem then (- ENOMEM, from, cc, k)
        else
          migrate_pages_passes n' from get_new_page (pass + 1) offlining mode
            retry nr_failed cc k
  end.

(** Modelled from the spec: [migrate_pages(&cc->migratepages, get_new_page,
    (unsigned long)cc, offlining, mode)] returns an error code (-ENOMEM
    when a destination could not be obtained) or the number of pages that
    were not migrated, and leaves on the list the pages it did not
    process. *)
Definition migrate_pages (get_new_page : new_page_t) (offlining : bool)
    (mode : Z) (cc : compact_control) (k : K) : Z * compact_control * K :=
  let '(err, from, cc, k) :=
    migrate_pages_passes 10 (migratepages cc) get_new_page 0 offlining mode
      1 0 cc k in
  (err, set_migratelist cc from (nr_migratepages cc), k).

Definition isolate_migratepages (fuel : nat) (z : zone_id)
    (cc : compact_control) (k : K)
  : option (isolate_migrate_t * compact_control * K) :=
  let low_pfn := Z.max (migrate_pfn cc) (Z.of_N (zone_start_pfn z)) in
  let end_pfn := ALIGN (low_pfn + pageblock_nr_pages) pageblock_nr_pages in
  if (free_pfn cc <? end_pfn) || negb (pfn_valid low_pfn) then
    Some (ISOLATE_NONE, set_migrate_pfn cc end_pfn, k)
  else
    match isolate_migratepages_range fuel z cc low_pfn end_pfn k with
    | None => None
    | Some (low_pfn, cc, k) =>
        if low_pfn =? 0 then Some (ISOLATE_ABORT, cc, k)
        else Some (ISOLATE_SUCCESS, set_migrate_pfn cc low_pfn, k)
    end.

(** The free-area scan at the end of [compact_finished]:
    [for (order = cc->order; order < MAX_ORDER; order++)] with the body of
    the source, which reads [zone->free_area[cc->order]]. *)
Fixpoint compact_finished_scan (fuel : nat) (z : zone_id)
    (cc : compact_control) (ord : Z) (k : K) : Z :=
  match fuel with
  | O => COMPACT_CONTINUE
  | S fuel' =>
      if ord <? MAX_ORDER then
        if negb (list_empty (free_list z (order cc) (migratetype cc) k)) then
          COMPACT_PARTIAL
        else if (pageblock_order <=? order cc)
                && negb (nr_free z (order cc) k =? 0) then
          COMPACT_PARTIAL
        else compact_finished_scan fuel' z cc (ord + 1) k
      else COMPACT_CONTINUE
  end.

Definition compact_finished (z : zone_id) (cc : compact_control) (k : K) : Z :=
  if fatal_signal_pending k then COMPACT_PARTIAL
  else if free_pfn cc <=? migrate_pfn cc then COMPACT_COMPLETE
  else if order cc =? -1 then COMPACT_CONTINUE
  else
    let watermark := low_wmark_pages z k in
    let watermark := watermark + Z.shiftl 1 (order cc) in
    if negb (zone_watermark_ok z (order cc) watermark 0 0 k) then
      COMPACT_CONTINUE
    else
      match page cc with
      | Some slot =>
          match slot with
          | Some _ => COMPACT_PARTIAL
          | None => COMPACT_CONTINUE
          end
      | None =>
          (* unsigned int order = cc->order *)
          let ord := order cc mod 2 ^ 32 in
          compact_finished_scan (Z.to_nat (MAX_ORDER - ord)) z cc ord k
      end.

Definition compaction_suitable (z : zone_id) (ord : Z) (k : K) : Z :=
  if ord =? -1 then COMPACT_CONTINUE
  else
    let watermark := low_wmark_pages z k + Z.shiftl 2 ord in
    if negb (zone_watermark_ok z 0 watermark 0 0 k) then COMPACT_SKIPPED
    else
      let fragindex := fragmentation_index z ord k in
      if (0 <=? fragindex) && (fragindex <=? sysctl_extfrag_threshold k) then
        COMPACT_SKIPPED
      else if (fragindex =? -1000)
              && zone_watermark_ok z ord watermark 0 0 k then
        COMPACT_PARTIAL
      else COMPACT_CONTINUE.

(** One iteration of the main loop of [compact_zone], entered after
    [compact_finished] has returned COMPACT_CONTINUE: the body either
    jumps to [out] with a status or goes back to the loop head. *)
Inductive zone_iter : Type :=
| Iter_out (ret : Z) (cc : compact_control) (k : K)
| Iter_next (cc : compact_control) (k : K).

Definition compact_zone_body (fuel : nat) (z : zone_id) (cc : compact_control)
    (k : K) : option zone_iter :=
  match isolate_migratepages fuel z cc k with
  | None => None
  | Some (ISOLATE_ABORT, cc, k) => Some (Iter_out COMPACT_PARTIAL cc k)
  | Some (ISOLATE_NONE, cc, k) => Some (Iter_next cc k)
  | Some (ISOLATE_SUCCESS, cc, k) =>
      let nr_migrate := nr_migratepages cc in
      let '(err, cc, k) :=
        migrate_pages compaction_alloc false
          (if sync cc then MIGRATE_SYNC_LIGHT else MIGRATE_ASYNC) cc k in
      let cc := update_nr_listpages cc in
      let nr_remaining := nr_migratepages cc in
      let k := count_vm_event COMPACTBLOCKS k in
      let k := count_vm_events COMPACTPAGES (nr_migrate - nr_remaining) k in
      let k :=
        if nr_remaining =? 0 then k
        else count_vm_events COMPACTPAGEFAILED nr_remaining k in
      if err =? 0 then
        let '(cc, k) := compact_capture_page cc k in
        Some (Iter_next cc k)
      else
        let k := putback_lru_pages (migratepages cc) k in
        let cc := set_migratelist cc [] 0 in
        if err =? - ENOMEM then Some (Iter_out COMPACT_PARTIAL cc k)
        else
          let '(cc, k) := compact_capture_page cc k in
          Some (Iter_next cc k)
  end.

(** The code at label [out]. *)
Definition compact_zone_out (ret : Z) (cc : compact_control) (k : K)
  : Z * compact_control * K :=
  let '(count, freelist, k) := release_freepages (freepages cc) k in
  (ret, set_freelist cc freelist (ulong_sub (nr_freepages cc) count), k).

Fixpoint compact_zone_loop (fuel : nat) (z : zone_id) (cc : compact_control)
    (k : K) : option (Z * compact_control * K) :=
  let ret := compact_finished z cc k in
  if ret =? COMPACT_CONTINUE then
    match fuel with
    | O => None
    | S fuel' =>
        match compact_zone_body fuel' z cc k with
        | None => None
        | Some (Iter_out ret cc k) => Some (compact_zone_out ret cc k)
        | Some (Iter_next cc k) => compact_zone_loop fuel' z cc k
        end
    end
  else Some (compact_zone_out ret cc k).

(** The cursor initialisation of [compact_zone]. *)
Definition compact_zone_init (z : zone_id) (cc : compact_control)
  : compact_control :=
  let cc := set_migrate_pfn cc (Z.of_N (zone_start_pfn z)) in
  let cc := set_free_pfn cc (migrate_pfn cc + Z.of_N (spanned_pages z)) in
  set_free_pfn cc (Z.land (free_pfn cc) (Z.lnot (pageblock_nr_pages - 1))).

Definition compact_zone (fuel : nat) (z : zone_id) (cc : compact_control)
    (k : K) : option (Z * compact_control * K) :=
  let ret := compaction_suitable z (order cc) k in
  if (ret =? COMPACT_PARTIAL) || (ret =? COMPACT_SKIPPED) then
    Some (ret, cc, k)
  else
    let cc := compact_zone_init z cc in
    let k := migrate_prep_local k in
    compact_zone_loop fuel z cc k.

(** The two out-parameters ([*contended], [*page]) are returned next to the
    status. *)
Definition compact_zone_order (fuel : nat) (z : zone_id) (ord gfp_mask : Z)
    (sync0 : bool) (contended0 : option bool) (page0 : option (option pfn))
    (k : K) : option (Z * option bool * option (option pfn) * K) :=
  let cc :=
    mk_cc [] [] 0 0 0 0 sync0 ord (allocflags_to_migratetype gfp_mask)
          (Some z) contended0 page0 in
  match compact_zone fuel z cc k with
  | None => None
  | Some (ret, cc, k) => Some (ret, contended cc, page cc, k)
  end.

(** The body of [for_each_zone_zonelist_nodemask] in
    [try_to_compact_pages], over the zones the iterator yields. *)
Fixpoint try_to_compact_zones (fuel : nat) (zones : list zone_id)
    (ord gfp_mask : Z) (sync0 : bool) (contended0 : option bool)
    (page0 : option (option pfn)) (rc : Z) (k : K)
  : option (Z * option bool * option (option pfn) * K) :=
  match zones with
  | [] => Some (rc, contended0, page0, k)
  | z :: rest =>
      match compact_zone_order fuel z ord gfp_mask sync0 contended0 page0 k with
      | None => None
      | Some (status, contended0, page0, k) =>
          let rc := Z.max status rc in
          if zone_watermark_ok z ord (low_wmark_pages z k) 0 0 k then
            Some (rc, contended0, page0, k)
          else
            try_to_compact_zones fuel rest ord gfp_mask sync0 contended0
              page0 rc k
      end
  end.

Definition try_to_compact_pages (fuel : nat) (zonelist ord gfp_mask nodemask : Z)
    (sync0 : bool) (contended0 : option bool) (page0 : option (option pfn))
    (k : K) : option (Z * option bool * option (option pfn) * K) :=
  let high_zoneidx := gfp_zone gfp_mask in
  let may_enter_fs := Z.land gfp_mask __GFP_FS in
  let may_perform_io := Z.land gfp_mask __GFP_IO in
  let rc := COMPACT_SKIPPED in
  if (ord =? 0) || (may_enter_fs =? 0) || (may_perform_io =? 0) then
    Some (rc, contended0, page0, k)
  else
    let k := count_vm_event COMPACTSTALL k in
    try_to_compact_zones fuel (zonelist_zones zonelist high_zoneidx nodemask)
      ord gfp_mask sync0 contended0 page0 rc k.

(** ** Deferral state and the node drivers *)

Definition zone_info : Type := zone_id -> zone_defer.

Definition set_zone_info (zi : zone_info) (z : zone_id) (d : zone_defer)
  : zone_info :=
  fun z' => if z' =? z then d else zi z'.

(** Modelled from the spec: [defer_compaction] of linux/compaction.h, which
    raises the zone's deferral counter after a failed run (and records the
    failing order when it is below the recorded one). *)
Definition defer_compaction (d : zone_defer) (ord : Z) : zone_defer :=
  let shift := compact_defer_shift d + 1 in
  let failed :=
    if ord <? compact_order_failed d then ord else compact_order_failed d in
  let shift :=
    if COMPACT_MAX_DEFER_SHIFT <? shift then COMPACT_MAX_DEFER_SHIFT
    else shift in
  mk_defer 0 shift failed.

(** Modelled from the spec: [compaction_deferred] of linux/compaction.h,
    the deferral predicate: a zone that recently failed compaction at this
    order or below is skipped until it has been considered often enough. *)
Definition compaction_deferred (d : zone_defer) (ord : Z) : bool * zone_defer :=
  let defer_limit := Z.shiftl 1 (compact_defer_shift d) in
  if ord <? compact_order_failed d then (false, d)
  else
    let considered := compact_considered d + 1 in
    let considered :=
      if defer_limit <? considered then defer_limit else considered in
    (considered <? defer_limit,
     mk_defer considered (compact_defer_shift d) (compact_order_failed d)).

(** The loop of [__compact_pgdat] over [pgdat->node_zones]. *)
Fixpoint __compact_pgdat_zones (fuel : nat) (zones : list zone_id)
    (cc : compact_control) (zi : zone_info) (k : K)
  : option (compact_control * zone_info * K) :=
  match zones with
  | [] => Some (cc, zi, k)
  | z :: rest =>
      if negb (populated_zone z k) then
        __compact_pgdat_zones fuel rest cc zi k
      else
        let cc := set_freelist cc [] 0 in
        let cc := set_migratelist cc [] 0 in
        let cc := set_zone cc z in
        let '(run, zi) :=
          if order cc =? -1 then (true, zi)
          else
            let '(deferred, d) := compaction_deferred (zi z) (order cc) in
            (negb deferred, set_zone_info zi z d) in
        match (if run then
                 match compact_zone fuel z cc k with
                 | None => None
                 | Some (_, cc, k) => Some (cc, k)
                 end
               else Some (cc, k)) with
        | None => None
        | Some (cc, k) =>
            let zi :=
              if 0 <? order cc then
                let ok :=
                  zone_watermark_ok z (order cc) (low_wmark_pages z k) 0 0 k in
                if ok && (compact_order_failed (zi z) <=? order cc) then
                  set_zone_info zi z
                    (mk_defer (compact_considered (zi z))
                              (compact_defer_shift (zi z)) (order cc + 1))
                else if negb ok && sync cc then
                  set_zone_info zi z (defer_compaction (zi z) (order cc))
                else zi
              else zi in
            __compact_pgdat_zones fuel rest cc zi k
        end
  end.

Definition __compact_pgdat (fuel : nat) (pgdat : node_id)
    (cc : compact_control) (zi : zone_info) (k : K)
  : option (Z * compact_control * zone_info * K) :=
  match __compact_pgdat_zones fuel (node_zones pgdat) cc zi k with
  | None => None
  | Some (cc, zi, k) => Some (0, cc, zi, k)
  end.

Definition compact_pgdat (fuel : nat) (pgdat : node_id) (ord : Z)
    (zi : zone_info) (k : K) : option (Z * compact_control * zone_info * K) :=
  let cc := mk_cc [] [] 0 0 0 0 false ord 0 None None None in
  __compact_pgdat fuel pgdat cc zi k.

Definition compact_node (fuel : nat) (nid : node_id) (sync0 : bool)
    (zi : zone_info) (k : K) : option (Z * compact_control * zone_info * K) :=
  let cc := mk_cc [] [] 0 0 0 0 sync0 (-1) 0 None None None in
  __compact_pgdat fuel nid cc zi k.

(** [for_each_online_node(nid) compact_node(nid, sync);] *)
Fixpoint compact_nodes_loop (fuel : nat) (nodes : list node_id) (sync0 : bool)
    (zi : zone_info) (k : K) : option (zone_info * K) :=
  match nodes with
  | [] => Some (zi, k)
  | nid :: rest =>
      match compact_node fuel nid sync0 zi k with
      | None => None
      | Some (_, _, zi, k) => compact_nodes_loop fuel rest sync0 zi k
      end
  end.

Definition compact_nodes (fuel : nat) (sync0 : bool) (zi : zone_info) (k : K)
  : option (Z * zone_info * K) :=
  let k := lru_add_drain_all k in
  match compact_nodes_loop fuel (online_nodes k) sync0 zi k with
  | None => None
  | Some (zi, k) => Some (COMPACT_COMPLETE, zi, k)
  end.

Definition sysctl_compaction_handler (fuel : nat) (write : Z)
    (zi : zone_info) (k : K) : option (Z * zone_info * K) :=
  if negb (write =? 0) then compact_nodes fuel true zi k
  else Some (0, zi, k).

(** ** Runs, as the specification describes them

    The relations below name the states a loop goes through, so that
    statements about "every iteration" or "every step of a run" can be
    made about the functions above. *)

(** [block_visits strict end_pfn p fl t k p' fl' t' k']: the loop of
    [isolate_freepages_block], entering an iteration at PFN [p] with list
    [fl], total [t] and kernel state [k], later (or at once) enters an
    iteration at PFN [p'] with [fl'], [t'] and [k']. *)
Inductive block_visits (strict : bool) (end_pfn : pfn)
  : pfn -> list pfn -> Z -> K -> pfn -> list pfn -> Z -> K -> Prop :=
| visit_first : forall p fl t k,
    p < end_pfn -> block_visits strict end_pfn p fl t k p fl t k
| visit_later : forall p fl t k p1 fl1 t1 k1 p2 fl2 t2 k2,
    p < end_pfn ->
    isolate_freepages_block_body p fl strict t k = Block_next p1 fl1 t1 k1 ->
    block_visits strict end_pfn p1 fl1 t1 k1 p2 fl2 t2 k2 ->
    block_visits strict end_pfn p fl t k p2 fl2 t2 k2.

(** The three ways a PFN fails to yield free pages. *)
Definition block_hole (p : pfn) (k : K) : Prop :=
  pfn_valid_within p = false
  \/ PageBuddy p k = false
  \/ fst (split_free_page p k) = 0%N.

(** [scan_visits z end_pfn ...]: the scan loop of
    [isolate_migratepages_range], entering an iteration at [low_pfn] with
    the lock held, later (or at once) enters an iteration at [low_pfn']. *)
Inductive scan_visits (z : zone_id) (end_pfn : pfn)
  : pfn -> Z -> Z -> compact_control -> K ->
    pfn -> Z -> Z -> compact_control -> K -> Prop :=
| scan_first : forall low lpn mode cc k,
    low < end_pfn -> scan_visits z end_pfn low lpn mode cc k low lpn mode cc k
| scan_later : forall low lpn mode cc k low1 lpn1 mode1 cc1 k1
                      low2 lpn2 mode2 cc2 k2,
    low < end_pfn ->
    isolate_migratepages_body z low lpn mode true cc k
    = Scan_next low1 lpn1 mode1 cc1 k1 ->
    scan_visits z end_pfn low1 lpn1 mode1 cc1 k1 low2 lpn2 mode2 cc2 k2 ->
    scan_visits z end_pfn low lpn mode cc k low2 lpn2 mode2 cc2 k2.

(** Fields of the control block that a function leaves alone. *)
Definition same_static (cc cc' : compact_control) : Prop :=
  order cc' = order cc /\ sync cc' = sync cc
  /\ migratetype cc' = migratetype cc /\ zone cc' = zone cc.

Definition same_free (cc cc' : compact_control) : Prop :=
  freepages cc' = freepages cc /\ nr_freepages cc' = nr_freepages cc
  /\ free_pfn cc' = free_pfn cc.

Definition same_migrate (cc cc' : compact_control) : Prop :=
  migratepages cc' = migratepages cc
  /\ nr_migratepages cc' = nr_migratepages cc
  /\ migrate_pfn cc' = migrate_pfn cc.

(** [zone_run_reaches z cc k cc' k']: the main loop of [compact_zone],
    standing at its head with control block [cc] and kernel state [k],
    stands at its head again with [cc'] and [k'] after zero or more
    iterations. *)
Inductive zone_run_reaches (z : zone_id)
  : compact_control -> K -> compact_control -> K -> Prop :=
| reaches_here : forall cc k, zone_run_reaches z cc k cc k
| reaches_step : forall fuel cc k cc1 k1 cc2 k2,
    compact_finished z cc k = COMPACT_CONTINUE ->
    compact_zone_body fuel z cc k = Some (Iter_next cc1 k1) ->
    zone_run_reaches z cc1 k1 cc2 k2 ->
    zone_run_reaches z cc k cc2 k2.

(** The vmstat accounting of one migration round of [compact_zone]:
    COMPACTBLOCKS, the pages migrated and, when some remain, the pages
    that failed. *)
Definition migrate_account (nr_migrate nr_remaining : Z) (k : K) : K :=
  let k := count_vm_event COMPACTBLOCKS k in
  let k := count_vm_events COMPACTPAGES (nr_migrate - nr_remaining) k in
  if nr_remaining =? 0 then k
  else count_vm_events COMPACTPAGEFAILED nr_remaining k.

(** The exit paths of a zone run, as the specification lists them.
    [zone_run_leaves z cc k ret cc1 k1]: the main loop, standing at its
    head with [cc] and [k], is left for the label [out] with status
    [ret], control block [cc1] and kernel state [k1]:
    - the termination predicate ends the run (COMPLETE when the cursors
      have met, PARTIAL on a fatal signal or, for a positive order, when
      the request can be satisfied);
    - the isolation of migrate candidates aborts (PARTIAL);
    - the migration engine runs out of memory (PARTIAL): the pages it left
      on the migrate list are put back on the LRU and the list is reset. *)
Inductive zone_run_leaves (z : zone_id) (cc : compact_control) (k : K)
  : Z -> compact_control -> K -> Prop :=
| leaves_finished :
    compact_finished z cc k <> COMPACT_CONTINUE ->
    zone_run_leaves z cc k (compact_finished z cc k) cc k
| leaves_abort : forall fuel cc1 k1,
    compact_finished z cc k = COMPACT_CONTINUE ->
    isolate_migratepages fuel z cc k = Some (ISOLATE_ABORT, cc1, k1) ->
    zone_run_leaves z cc k COMPACT_PARTIAL cc1 k1
| leaves_enomem : forall fuel cc1 k1 cc2 k2,
    compact_finished z cc k = COMPACT_CONTINUE ->
    isolate_migratepages fuel z cc k = Some (ISOLATE_SUCCESS, cc1, k1) ->
    migrate_pages compaction_alloc false
      (if sync cc1 then MIGRATE_SYNC_LIGHT else MIGRATE_ASYNC) cc1 k1
    = (- ENOMEM, cc2, k2) ->
    zone_run_leaves z cc k COMPACT_PARTIAL
      (set_migratelist (update_nr_listpages cc2) [] 0)
      (putback_lru_pages (migratepages cc2)
         (migrate_account (nr_migratepages cc1)
            (Z.of_nat (length (migratepages cc2))) k2)).

(** [n] iterations of the main loop of [compact_zone], none of which
    leaves the loop. *)
Fixpoint compact_zone_iterate (n fuel : nat) (z : zone_id)
    (cc : compact_control) (k : K) : option (compact_control * K) :=
  match n with
  | O => Some (cc, k)
  | S n' =>
      if compact_finished z cc k =? COMPACT_CONTINUE then
        match compact_zone_body fuel z cc k with
        | Some (Iter_next cc k) => compact_zone_iterate n' fuel z cc k
        | _ => None
        end
      else None
  end.

(** The cross-zone loop in the words of the specification: run the zone
    driver on each zone of the filtered zonelist in turn, collecting the
    statuses, and stop after the first zone whose low watermark is
    satisfied for the requested order. *)
Inductive zonelist_run (fuel : nat) (ord gfp_mask : Z) (sync0 : bool)
  : list zone_id -> option bool * option (option pfn) * K -> list Z ->
    option bool * option (option pfn) * K -> Prop :=
| zonelist_done : forall s, zonelist_run fuel ord gfp_mask sync0 [] s [] s
| zonelist_break : forall z rest c p k status c' p' k',
    compact_zone_order fuel z ord gfp_mask sync0 c p k
      = Some (status, c', p', k') ->
    zone_watermark_ok z ord (low_wmark_pages z k') 0 0 k' = true ->
    zonelist_run fuel ord gfp_mask sync0 (z :: rest) (c, p, k) [status]
      (c', p', k')
| zonelist_next : forall z rest c p k status c' p' k' statuses s'',
    compact_zone_order fuel z ord gfp_mask sync0 c p k
      = Some (status, c', p', k') ->
    zone_watermark_ok z ord (low_wmark_pages z k') 0 0 k' = false ->
    zonelist_run fuel ord gfp_mask sync0 rest (c', p', k') statuses s'' ->
    zonelist_run fuel ord gfp_mask sync0 (z :: rest) (c, p, k)
      (status :: statuses) s''.

(** What one iteration of the scan of [compact_finished] tests. *)
Definition free_area_hit (z : zone_id) (cc : compact_control) (k : K) : bool :=
  negb (list_empty (free_list z (order cc) (migratetype cc) k))
  || ((pageblock_order <=? order cc) && negb (nr_free z (order cc) k =? 0)).

(** [rc = max(status, rc)] over the statuses of the zones that were run. *)
Definition fold_status (statuses : list Z) (rc : Z) : Z :=
  fold_left (fun rc status => Z.max status rc) statuses rc.

(** The control block as [__compact_pgdat] prepares it for a zone. *)
Definition reset_for_zone (cc : compact_control) (z : zone_id)
  : compact_control :=
  set_zone (set_migratelist (set_freelist cc [] 0) [] 0) z.

(** The PFNs [a, a+1, ..., a+n-1], in rising order. *)
Fixpoint pfn_run (n : nat) (a : pfn) : list pfn :=
  match n with
  | O => []
  | S n' => a :: pfn_run n' (a + 1)
  end.

(** What an async pass may do to the deferral state of a zone. *)
Definition defer_async_step (d d' : zone_defer) : Prop :=
  compact_defer_shift d' = compact_defer_shift d
  /\ compact_order_failed d <= compact_order_failed d'.

End Compaction.

(** ** A small kernel on which the functions run

    One zone (zone 0 of node 0) spanning [[c_start, c_start + c_spanned)],
    all of it MOVABLE, with the configuration of a 32-bit ARM build
    (MAX_ORDER 11, pageblock order 10).  The free blocks and the LRU are
    plain lists; the scheduler flags are fixed by the state. *)
Module Toy.

Record config : Type := mk_config {
  c_start : N;
  c_spanned : N
}.

Record state : Type := mk_state {
  buddy : list (pfn * Z);       (* free blocks: head PFN and order *)
  lru : list pfn;               (* pages on the LRU *)
  nr_isolated : Z;              (* NR_ISOLATED_ANON *)
  resched : bool;               (* need_resched() *)
  signal : bool;                (* fatal_signal_pending(current) *)
  wmark_ok : bool               (* verdict of zone_watermark_ok *)
}.

Definition with_buddy (s : state) (b : list (pfn * Z)) : state :=
  mk_state b (lru s) (nr_isolated s) (resched s) (signal s) (wmark_ok s).

Definition with_lru (s : state) (l : list pfn) (iso : Z) : state :=
  mk_state (buddy s) l iso (resched s) (signal s) (wmark_ok s).

Definition is_head (p : pfn) (b : pfn * Z) : bool := fst b =? p.

Definition toy_page_order (p : pfn) (s : state) : Z :=
  match find (is_head p) (buddy s) with
  | Some b => snd b
  | None => 0
  end.

Definition toy_split_free_page (p : pfn) (s : state) : N * state :=
  match find (is_head p) (buddy s) with
  | Some b =>
      (Z.to_N (Z.shiftl 1 (snd b)),
       with_buddy s (filter (fun b' => negb (is_head p b')) (buddy s)))
  | None => (0%N, s)
  end.

Definition toy_free_list (ord mt : Z) (s : state) : list pfn :=
  if mt =? MIGRATE_MOVABLE then
    map fst (filter (fun b => snd b =? ord) (buddy s))
  else [].

Definition toy_zone_page_state (item : zone_stat_item) (s : state) : Z :=
  match item with
  | NR_ISOLATED_ANON => nr_isolated s
  | NR_INACTIVE_ANON => Z.of_nat (length (lru s))
  | _ => 0
  end.

Definition toy_mod_zone_page_state (item : zone_stat_item) (d : Z) (s : state)
  : state :=
  match item with
  | NR_ISOLATED_ANON => with_lru s (lru s) (nr_isolated s + d)
  | _ => s
  end.

Definition toy_isolate_lru_page (p : pfn) (s : state) : Z * state :=
  (0, with_lru s (filter (fun q => negb (q =? p)) (lru s)) (nr_isolated s)).

Definition toy_putback_lru_pages (l : list pfn) (s : state) : state :=
  with_lru s (l ++ lru s) (nr_isolated s - Z.of_nat (length l)).

(** The page is copied to [np], which takes its place on the LRU; the old
    frame goes back to the allocator as an order-0 block. *)
Definition toy_unmap_and_move (p np : pfn) (s : state) : Z * state :=
  (0, mk_state ((p, 0) :: buddy s) (np :: lru s) (nr_isolated s - 1)
               (resched s) (signal s) (wmark_ok s)).

Definition toy_pfn_valid (c : config) (p : pfn) : bool :=
  (Z.of_N (c_start c) <=? p) && (p <? Z.of_N (c_start c) + Z.of_N (c_spanned c)).

Lemma toy_MAX_ORDER_pos : 0 < 11.
Proof. lia. Qed.

Lemma toy_pageblock_order_nonneg : 0 <= 10.
Proof. lia. Qed.

Definition kernel (c : config) : Kernel := {|
  K := state;
  BITS_PER_LONG := 32;
  MAX_ORDER := 11;
  pageblock_order := 10;
  MAX_ORDER_pos := toy_MAX_ORDER_pos;
  pageblock_order_nonneg := toy_pageblock_order_nonneg;
  pfn_valid := toy_pfn_valid c;
  pfn_valid_within := fun _ => true;
  page_zone := fun _ => 0;
  zone_start_pfn := fun _ => c_start c;
  spanned_pages := fun _ => c_spanned c;
  need_resched := resched;
  spin_is_contended := fun _ _ => false;
  spin_lock_irqsave := fun _ s => s;
  spin_unlock_irqrestore := fun _ s => s;
  cond_resched := fun s => s;
  fatal_signal_pending := signal;
  congestion_wait := fun s => with_lru s (lru s) 0;
  PageBuddy := fun p s => existsb (is_head p) (buddy s);
  PageLRU := fun p s => existsb (Z.eqb p) (lru s);
  PageTransHuge := fun _ _ => false;
  page_order := toy_page_order;
  compound_order := fun _ _ => 0%N;
  page_is_file_cache := fun _ _ => false;
  page_lru := fun _ _ => 0;
  get_pageblock_migratetype := fun _ _ => MIGRATE_MOVABLE;
  split_free_page := toy_split_free_page;
  capture_free_page := fun _ _ _ s => (false, s);
  __free_page := fun p s => with_buddy s ((p, 0) :: buddy s);
  arch_alloc_page := fun _ _ s => s;
  kernel_map_pages := fun _ _ _ s => s;
  free_list := fun _ => toy_free_list;
  nr_free := fun _ ord s =>
    Z.of_nat (length (filter (fun b => snd b =? ord) (buddy s)));
  low_wmark_pages := fun _ _ => 0;
  zone_watermark_ok := fun _ _ _ _ _ s => wmark_ok s;
  fragmentation_index := fun _ _ _ => 1000;
  sysctl_extfrag_threshold := fun _ => 500;
  zone_page_state := fun _ => toy_zone_page_state;
  mod_zone_page_state := fun _ => toy_mod_zone_page_state;
  __mod_zone_page_state := fun _ => toy_mod_zone_page_state;
  count_vm_event := fun _ s => s;
  count_vm_events := fun _ _ s => s;
  __isolate_lru_page := fun p _ => toy_isolate_lru_page p;
  del_page_from_lru_list := fun _ _ _ s => s;
  putback_lru_pages := toy_putback_lru_pages;
  putback_lru_page := fun _ s => s;
  __unmap_and_move := fun p np _ _ _ => toy_unmap_and_move p np;
  migrate_prep_local := fun s => s;
  lru_add_drain_all := fun s => s;
  gfp_zone := fun _ => 0;
  allocflags_to_migratetype := fun _ => MIGRATE_MOVABLE;
  zonelist_zones := fun _ _ _ => [0];
  online_nodes := fun _ => [0];
  node_zones := fun _ => [0];
  populated_zone := fun _ _ => true
|}.

(** The PFNs [a, a+1, ..., a+n-1]. *)
Fixpoint pfns (n : nat) (a : pfn) : list pfn :=
  match n with
  | O => []
  | S n' => a :: pfns n' (a + 1)
  end.

(** *** Machines, states and control blocks used in the examples *)

(** Four pageblocks, PFNs 0 to 4095. *)
Definition machine : Kernel := kernel (mk_config 0 4096).

(** A free order-10 block at PFN 3072; 32 LRU pages from PFN 1024 and 32
    from PFN 2048. *)
Definition k_two_batches : state :=
  mk_state [(3072, 10)] (pfns 32 1024 ++ pfns 32 2048) 0 false false false.

(** Nothing free, nothing on the LRU, and [need_resched()] true. *)
Definition k_contended : state := mk_state [] [] 0 true false false.

(** Five isolated pages and an empty LRU: too many isolated. *)
Definition k_busy : state := mk_state [] [] 5 false false false.

(** The same with a fatal signal pending. *)
Definition k_busy_signal : state := mk_state [] [] 5 false true false.

(** One free order-3 block at PFN 2048, no other free block; watermarks
    satisfied. *)
Definition k_free_order3 : state := mk_state [(2048, 3)] [] 0 false false true.

(** One free order-1 block at PFN 1024 (PFNs 1024 and 1025). *)
Definition k_pair : state := mk_state [(1024, 1)] [] 0 false false false.

(** One free order-2 block at PFN 1024 (PFNs 1024 to 1027). *)
Definition k_quad : state := mk_state [(1024, 2)] [] 0 false false false.

(** One free order-1 block at PFN 1026, after two pages in use. *)
Definition k_gap_pair : state := mk_state [(1026, 1)] [] 0 false false false.

(** Nothing free at all, and the 32 pages from PFN 1024 on the LRU. *)
Definition k_no_free : state :=
  mk_state [] (pfns 32 1024) 0 false false false.

(** Greedy synchronous control block, as [compact_node] builds it, for
    zone 0. *)
Definition cc_greedy : compact_control :=
  mk_cc [] [] 0 0 0 0 true (-1) 0 (Some 0) None None.

(** Asynchronous order-3 control block in the middle of a run: migrate
    cursor at 1024, free cursor at 4096, a contention flag to report to. *)
Definition cc_async : compact_control :=
  mk_cc [] [] 0 0 4096 1024 false 3 MIGRATE_MOVABLE (Some 0) (Some false) None.

(** Synchronous variant of [cc_async]. *)
Definition cc_sync : compact_control :=
  mk_cc [] [] 0 0 4096 1024 true 3 MIGRATE_MOVABLE (Some 0) (Some false) None.

(** Order-2 MOVABLE request without a capture slot, cursors apart. *)
Definition cc_order2 : compact_control :=
  mk_cc [] [] 0 0 4096 0 true 2 MIGRATE_MOVABLE (Some 0) None None.

(** A run whose migrate cursor stands in the middle of the pageblock just
    below the free cursor. *)
Definition cc_mid_block : compact_control :=
  mk_cc [] [] 0 0 3072 2080 true (-1) 0 (Some 0) None None.

Definition zi0 : zone_info := fun _ => mk_defer 0 0 0.

(** *** A variant whose allocator lets pages be captured *)

(** The block headed by [pg] leaves the free lists. *)
Definition toy_capture_free_page (pg : pfn) (s : state) : bool * state :=
  (true, with_buddy s (filter (fun b => negb (is_head pg b)) (buddy s))).

Definition kernel_capturing (c : config) : Kernel := {|
  K := state;
  BITS_PER_LONG := 32;
  MAX_ORDER := 11;
  pageblock_order := 10;
  MAX_ORDER_pos := toy_MAX_ORDER_pos;
  pageblock_order_nonneg := toy_pageblock_order_nonneg;
  pfn_valid := toy_pfn_valid c;
  pfn_valid_within := fun _ => true;
  page_zone := fun _ => 0;
  zone_start_pfn := fun _ => c_start c;
  spanned_pages := fun _ => c_spanned c;
  need_resched := resched;
  spin_is_contended := fun _ _ => false;
  spin_lock_irqsave := fun _ s => s;
  spin_unlock_irqrestore := fun _ s => s;
  cond_resched := fun s => s;
  fatal_signal_pending := signal;
  congestion_wait := fun s => with_lru s (lru s) 0;
  PageBuddy := fun p s => existsb (is_head p) (buddy s);
  PageLRU := fun p s => existsb (Z.eqb p) (lru s);
  PageTransHuge := fun _ _ => false;
  page_order := toy_page_order;
  compound_order := fun _ _ => 0%N;
  page_is_file_cache := fun _ _ => false;
  page_lru := fun _ _ => 0;
  get_pageblock_migratetype := fun _ _ => MIGRATE_MOVABLE;
  split_free_page := toy_split_free_page;
  capture_free_page := fun pg _ _ => toy_capture_free_page pg;
  __free_page := fun p s => with_buddy s ((p, 0) :: buddy s);
  arch_alloc_page := fun _ _ s => s;
  kernel_map_pages := fun _ _ _ s => s;
  free_list := fun _ => toy_free_list;
  nr_free := fun _ ord s =>
    Z.of_nat (length (filter (fun b => snd b =? ord) (buddy s)));
  low_wmark_pages := fun _ _ => 0;
  zone_watermark_ok := fun _ _ _ _ _ s => wmark_ok s;
  fragmentation_index := fun _ _ _ => 1000;
  sysctl_extfrag_threshold := fun _ => 500;
  zone_page_state := fun _ => toy_zone_page_state;
  mod_zone_page_state := fun _ => toy_mod_zone_page_state;
  __mod_zone_page_state := fun _ => toy_mod_zone_page_state;
  count_vm_event := fun _ s => s;
  count_vm_events := fun _ _ s => s;
  __isolate_lru_page := fun p _ => toy_isolate_lru_page p;
  del_page_from_lru_list := fun _ _ _ s => s;
  putback_lru_pages := toy_putback_lru_pages;
  putback_lru_page := fun _ s => s;
  __unmap_and_move := fun p np _ _ _ => toy_unmap_and_move p np;
  migrate_prep_local := fun s => s;
  lru_add_drain_all := fun s => s;
  gfp_zone := fun _ => 0;
  allocflags_to_migratetype := fun _ => MIGRATE_MOVABLE;
  zonelist_zones := fun _ _ _ => [0];
  online_nodes := fun _ => [0];
  node_zones := fun _ => [0];
  populated_zone := fun _ _ => true
|}.

Definition machine_capturing : Kernel := kernel_capturing (mk_config 0 4096).

(** Order-2 MOVABLE request with an empty capture slot. *)
Definition cc_capture : compact_control :=
  mk_cc [] [] 0 0 4096 0 true 2 MIGRATE_MOVABLE (Some 0) None (Some None).

(** A run that has just isolated the 32 pages from PFN 1024 and needs
    destinations: empty free list, migrate cursor at 1056, free cursor at
    the end of the zone. *)
Definition cc_need_free : compact_control :=
  mk_cc [] (rev (pfns 32 1024)) 0 32 4096 1056 true (-1) 0 (Some 0) None None.

(** The state that goes with it: the 32 pages are off the LRU and
    accounted as isolated. *)
Definition k_isolated_batch : state :=
  mk_state [(3072, 10)] (pfns 32 2048) 32 false false false.

(** A control block with two pages on its free list. *)
Definition cc_two_free : compact_control :=
  mk_cc [3000; 3001] [] 2 0 3072 1056 true (-1) 0 (Some 0) None None.

End Toy.

(** * Properties *)

Section Properties.

Context {kern : Kernel}.

(** ** Arithmetic of the helpers *)

Lemma pageblock_nr_pages_pow2 : pageblock_nr_pages = 2 ^ pageblock_order.
Proof.
  unfold pageblock_nr_pages. rewrite Z.shiftl_1_l. reflexivity.
Qed.

Lemma pageblock_nr_pages_pos : 0 < pageblock_nr_pages.
Proof.
  rewrite pageblock_nr_pages_pow2.
  apply Z.pow_pos_nonneg; [lia | apply pageblock_order_nonneg].
Qed.

Lemma MAX_ORDER_NR_PAGES_pos : 0 < MAX_ORDER_NR_PAGES.
Proof.
  unfold MAX_ORDER_NR_PAGES. rewrite Z.shiftl_1_l.
  apply Z.pow_pos_nonneg; [lia | pose proof MAX_ORDER_pos; lia].
Qed.

(** [ALIGN] rounds up to a multiple of the pageblock size. *)
Lemma ALIGN_pageblock (x : Z) :
  ALIGN x pageblock_nr_pages
  = (x + (pageblock_nr_pages - 1)) / pageblock_nr_pages * pageblock_nr_pages.
Proof.
  unfold ALIGN.
  assert (Hones : pageblock_nr_pages - 1 = Z.ones pageblock_order).
  { rewrite Z.ones_equiv, pageblock_nr_pages_pow2. lia. }
  rewrite Hones at 2.
  rewrite <- Z.ldiff_land.
  rewrite Z.ldiff_ones_r by apply pageblock_order_nonneg.
  rewrite Z.shiftr_div_pow2, Z.shiftl_mul_pow2 by apply pageblock_order_nonneg.
  rewrite <- pageblock_nr_pages_pow2. reflexivity.
Qed.

Lemma ALIGN_pageblock_ge (x : Z) : x <= ALIGN x pageblock_nr_pages.
Proof.
  rewrite ALIGN_pageblock.
  pose proof pageblock_nr_pages_pos as Hpos.
  pose proof (Z.mul_div_le (x + (pageblock_nr_pages - 1)) _ Hpos).
  pose proof (Z.mod_pos_bound (x + (pageblock_nr_pages - 1)) _ Hpos).
  pose proof (Z.div_mod (x + (pageblock_nr_pages - 1)) pageblock_nr_pages).
  nia.
Qed.

(** ** The termination predicate *)

(** Whatever the loop variable, each iteration of the scan of
    [compact_finished] looks at [free_area[cc->order]] only. *)
Lemma compact_finished_scan_closed_form fuel z cc ord k :
  compact_finished_scan fuel z cc ord k =
  match fuel with
  | O => COMPACT_CONTINUE
  | S _ =>
      if (ord <? MAX_ORDER) && free_area_hit z cc k then COMPACT_PARTIAL
      else COMPACT_CONTINUE
  end.
Proof.
  revert ord. induction fuel as [|fuel IH]; intros ord; [reflexivity|].
  cbn [compact_finished_scan]. rewrite IH. unfold free_area_hit.
  destruct (ord <? MAX_ORDER); [|reflexivity].
  destruct (negb (list_empty (free_list z (order cc) (migratetype cc) k)));
    [reflexivity|].
  destruct ((pageblock_order <=? order cc)
            && negb (nr_free z (order cc) k =? 0)); [reflexivity|].
  cbn [orb andb]. destruct fuel; [reflexivity|].
  rewrite andb_false_r. reflexivity.
Qed.

Lemma compact_finished_continue_cursors z cc k :
  compact_finished z cc k = COMPACT_CONTINUE -> migrate_pfn cc < free_pfn cc.
Proof.
  unfold compact_finished.
  destruct (fatal_signal_pending k); [discriminate|].
  destruct (free_pfn cc <=? migrate_pfn cc) eqn:Hle; [discriminate|].
  intros _. apply Z.leb_gt in Hle. exact Hle.
Qed.

Lemma compact_finished_cursors_met z cc k :
  free_pfn cc <= migrate_pfn cc ->
  compact_finished z cc k =
  if fatal_signal_pending k then COMPACT_PARTIAL else COMPACT_COMPLETE.
Proof.
  intros Hle. unfold compact_finished.
  destruct (fatal_signal_pending k); [reflexivity|].
  apply Z.leb_le in Hle. rewrite Hle. reflexivity.
Qed.

(** ** Backpressure *)

Lemma too_many_isolated_half z k :
  too_many_isolated z k = true <->
  zone_page_state z NR_INACTIVE_FILE k + zone_page_state z NR_INACTIVE_ANON k
  + (zone_page_state z NR_ACTIVE_FILE k + zone_page_state z NR_ACTIVE_ANON k)
  < 2 * (zone_page_state z NR_ISOLATED_FILE k
         + zone_page_state z NR_ISOLATED_ANON k).
Proof.
  unfold too_many_isolated.
  set (s := zone_page_state z NR_INACTIVE_FILE k
            + zone_page_state z NR_INACTIVE_ANON k
            + (zone_page_state z NR_ACTIVE_FILE k
               + zone_page_state z NR_ACTIVE_ANON k)).
  set (i := zone_page_state z NR_ISOLATED_FILE k
            + zone_page_state z NR_ISOLATED_ANON k).
  rewrite Z.gtb_lt.
  pose proof (Z.div_mod s 2 ltac:(lia)).
  pose proof (Z.mod_pos_bound s 2 ltac:(lia)).
  lia.
Qed.

(** C7: backpressure of [isolate_migratepages_range].  The zone has too
    many isolated pages exactly when the isolated count exceeds half of
    the active plus inactive LRU counts.  While that holds, an async
    caller returns 0 at once, with nothing changed; a sync caller waits on
    the congestion timer, returns 0 if a fatal signal is then pending, and
    otherwise checks again, as a fresh call in the state after the wait
    would. *)
Theorem isolate_migratepages_range_backpressure :
  (forall z k,
      too_many_isolated z k = true <->
      zone_page_state z NR_INACTIVE_FILE k + zone_page_state z NR_INACTIVE_ANON k
      + (zone_page_state z NR_ACTIVE_FILE k + zone_page_state z NR_ACTIVE_ANON k)
      < 2 * (zone_page_state z NR_ISOLATED_FILE k
             + zone_page_state z NR_ISOLATED_ANON k))
  /\ (forall fuel z cc low_pfn end_pfn k,
         too_many_isolated z k = true ->
         sync cc = false ->
         isolate_migratepages_range fuel z cc low_pfn end_pfn k
         = Some (0, cc, k))
  /\ (forall fuel z cc low_pfn end_pfn k,
         too_many_isolated z k = true ->
         sync cc = true ->
         fatal_signal_pending (congestion_wait k) = true ->
         isolate_migratepages_range (S fuel) z cc low_pfn end_pfn k
         = Some (0, cc, congestion_wait k))
  /\ (forall fuel z cc low_pfn end_pfn k,
         too_many_isolated z k = true ->
         sync cc = true ->
         fatal_signal_pending (congestion_wait k) = false ->
         isolate_migratepages_range (S fuel) z cc low_pfn end_pfn k
         = isolate_migratepages_range fuel z cc low_pfn end_pfn
             (congestion_wait k)).
Proof.
  split; [exact too_many_isolated_half|].
  split; [|split].
  - intros fuel z cc low_pfn end_pfn k Hmany Hasync.
    unfold isolate_migratepages_range.
    destruct fuel; cbn [too_many_isolated_wait]; rewrite Hmany, Hasync;
      reflexivity.
  - intros fuel z cc low_pfn end_pfn k Hmany Hsync Hsig.
    unfold isolate_migratepages_range.
    cbn [too_many_isolated_wait]. rewrite Hmany, Hsync. cbn [negb].
    rewrite Hsig. reflexivity.
  - intros fuel z cc low_pfn end_pfn k Hmany Hsync Hsig.
    unfold isolate_migratepages_range.
    cbn [too_many_isolated_wait]. rewrite Hmany, Hsync. cbn [negb].
    rewrite Hsig. reflexivity.
Qed.

(** ** The multi-node driver and the sysctl handler *)

(** C10: [compact_nodes] has one return value, COMPACT_COMPLETE: it
    returns exactly when its per-node runs return, whatever they did, and
    the sysctl handler passes that value on for every write. *)
Theorem compact_nodes_returns_complete :
  (forall fuel sync0 zi k,
      compact_nodes fuel sync0 zi k = None <->
      compact_nodes_loop fuel (online_nodes (lru_add_drain_all k)) sync0 zi
        (lru_add_drain_all k) = None)
  /\ (forall fuel sync0 zi k r zi' k',
         compact_nodes fuel sync0 zi k = Some (r, zi', k') ->
         r = COMPACT_COMPLETE)
  /\ (forall fuel write zi k r zi' k',
         write <> 0 ->
         sysctl_compaction_handler fuel write zi k = Some (r, zi', k') ->
         r = COMPACT_COMPLETE).
Proof.
  split; [|split].
  - intros fuel sync0 zi k. unfold compact_nodes.
    destruct (compact_nodes_loop fuel (online_nodes (lru_add_drain_all k))
                sync0 zi (lru_add_drain_all k)) as [[zi' k']|].
    + split; discriminate.
    + split; reflexivity.
  - intros fuel sync0 zi k r zi' k'. unfold compact_nodes.
    destruct (compact_nodes_loop fuel (online_nodes (lru_add_drain_all k))
                sync0 zi (lru_add_drain_all k)) as [[zi1 k1]|];
      [|discriminate].
    intros H. injection H as <- _ _. reflexivity.
  - intros fuel write zi k r zi' k' Hw. unfold sysctl_compaction_handler.
    apply Z.eqb_neq in Hw. rewrite Hw. cbn [negb].
    unfold compact_nodes.
    destruct (compact_nodes_loop fuel (online_nodes (lru_add_drain_all k))
                true zi (lru_add_drain_all k)) as [[zi1 k1]|];
      [|discriminate].
    intros H. injection H as <- _ _. reflexivity.
Qed.

(** ** The zone-list entry point *)

Lemma fold_status_max statuses rc :
  rc <= fold_status statuses rc
  /\ (forall s, In s statuses -> s <= fold_status statuses rc)
  /\ (fold_status statuses rc = rc \/ In (fold_status statuses rc) statuses).
Proof.
  revert rc. induction statuses as [|s l IH]; intros rc; cbn.
  - split; [lia|]. split; [intros s []|]. left; reflexivity.
  - destruct (IH (Z.max s rc)) as (Hge & Hall & Hin).
    unfold fold_status in *.
    split; [lia|]. split.
    + intros s' [<-|Hs']; [lia|]. apply Hall, Hs'.
    + destruct Hin as [Heq|Hin]; [|right; right; exact Hin].
      rewrite Heq. destruct (Z.max_spec s rc) as [[_ ->]|[_ ->]].
      * left; reflexivity.
      * right; left; reflexivity.
Qed.

Lemma try_to_compact_zones_run fuel ord gfp_mask sync0 zones :
  forall c p rc k r c' p' k',
    try_to_compact_zones fuel zones ord gfp_mask sync0 c p rc k
    = Some (r, c', p', k') ->
    exists statuses,
      zonelist_run fuel ord gfp_mask sync0 zones (c, p, k) statuses (c', p', k')
      /\ r = fold_status statuses rc.
Proof.
  induction zones as [|z rest IH]; intros c p rc k r c' p' k' H; cbn in H.
  - injection H as <- <- <- <-. exists []. split; [constructor|reflexivity].
  - destruct (compact_zone_order fuel z ord gfp_mask sync0 c p k)
      as [[[[status c1] p1] k1]|] eqn:Hz; [|discriminate].
    destruct (zone_watermark_ok z ord (low_wmark_pages z k1) 0 0 k1) eqn:Hw.
    + injection H as <- <- <- <-. exists [status].
      split; [eapply zonelist_break; eassumption|reflexivity].
    + apply IH in H. destruct H as (statuses & Hrun & ->).
      exists (status :: statuses).
      split; [eapply zonelist_next; eassumption|reflexivity].
Qed.

(** C8: [try_to_compact_pages] returns SKIPPED, leaving the state and the
    out-parameters untouched, when the order is 0 or the GFP mask lacks
    __GFP_FS or __GFP_IO.  Otherwise it counts a stall and runs the zone
    driver over the zones of the filtered zonelist in order, stopping
    after the first zone whose low watermark is satisfied for the order;
    the result is the maximum of SKIPPED and the statuses of the zones it
    ran. *)
Theorem try_to_compact_pages_skips_or_folds :
  (forall fuel zonelist ord gfp_mask nodemask sync0 c p k,
      ord = 0 \/ Z.land gfp_mask __GFP_FS = 0 \/ Z.land gfp_mask __GFP_IO = 0 ->
      try_to_compact_pages fuel zonelist ord gfp_mask nodemask sync0 c p k
      = Some (COMPACT_SKIPPED, c, p, k))
  /\ (forall fuel zonelist ord gfp_mask nodemask sync0 c p k r c' p' k',
         ord <> 0 ->
         Z.land gfp_mask __GFP_FS <> 0 ->
         Z.land gfp_mask __GFP_IO <> 0 ->
         try_to_compact_pages fuel zonelist ord gfp_mask nodemask sync0 c p k
         = Some (r, c', p', k') ->
         exists statuses,
           zonelist_run fuel ord gfp_mask sync0
             (zonelist_zones zonelist (gfp_zone gfp_mask) nodemask)
             (c, p, count_vm_event COMPACTSTALL k) statuses (c', p', k')
           /\ r = fold_status statuses COMPACT_SKIPPED
           /\ COMPACT_SKIPPED <= r
           /\ (forall s, In s statuses -> s <= r)
           /\ (r = COMPACT_SKIPPED \/ In r statuses)).
Proof.
  split.
  - intros fuel zonelist ord gfp_mask nodemask sync0 c p k H.
    unfold try_to_compact_pages.
    destruct H as [->|[->| ->]]; cbn [Z.eqb orb]; rewrite ?orb_true_r;
      reflexivity.
  - intros fuel zonelist ord gfp_mask nodemask sync0 c p k r c' p' k'
      Ho Hfs Hio H.
    unfold try_to_compact_pages in H.
    apply Z.eqb_neq in Ho, Hfs, Hio. rewrite Ho, Hfs, Hio in H. cbn [orb] in H.
    apply try_to_compact_zones_run in H. destruct H as (statuses & Hrun & ->).
    exists statuses. split; [exact Hrun|]. split; [reflexivity|].
    apply fold_status_max.
Qed.

(** ** The free-page block isolator *)

Lemma list_add_pages_app n : forall p fl,
  exists new, list_add_pages n p fl = new ++ fl /\ length new = n.
Proof.
  induction n as [|n IH]; intros p fl; cbn.
  - exists []. split; reflexivity.
  - destruct (IH (p + 1) (p :: fl)) as (new & -> & Hlen).
    exists (new ++ [p]). rewrite <- app_assoc. split; [reflexivity|].
    rewrite length_app, Hlen. cbn. lia.
Qed.

Lemma list_add_pages_length n p fl :
  length (list_add_pages n p fl) = (n + length fl)%nat.
Proof.
  destruct (list_add_pages_app n p fl) as (new & -> & <-).
  apply length_app.
Qed.

Lemma list_add_pages_In n : forall p fl q,
  In q fl \/ (p <= q < p + Z.of_nat n) -> In q (list_add_pages n p fl).
Proof.
  induction n as [|n IH]; intros p fl q H; cbn.
  - destruct H as [H|H]; [exact H|lia].
  - apply IH. destruct H as [H|H].
    + left. right. exact H.
    + destruct (Z.eq_dec q p) as [->|Hne].
      * left. left. reflexivity.
      * right. lia.
Qed.

Lemma block_body_strict_return_list p fl strict t k fl' k' :
  isolate_freepages_block_body p fl strict t k = Block_return0 fl' k' ->
  fl' = fl.
Proof.
  unfold isolate_freepages_block_body.
  destruct (pfn_valid_within p); cbn [negb].
  2:{ destruct strict; [|discriminate]. intros H. injection H as <- _.
      reflexivity. }
  destruct (PageBuddy p k); cbn [negb].
  2:{ destruct strict; [|discriminate]. intros H. injection H as <- _.
      reflexivity. }
  destruct (split_free_page p k) as [n k2].
  destruct ((Z.of_N n =? 0) && strict); [|discriminate].
  intros H. injection H as <- _. reflexivity.
Qed.


(** A PFN that yields nothing ends a strict scan with 0. *)
Lemma block_body_strict_hole p fl t k :
  block_hole p k ->
  exists k', isolate_freepages_block_body p fl true t k = Block_return0 fl k'.
Proof.
  unfold block_hole, isolate_freepages_block_body. intros H.
  destruct (pfn_valid_within p); cbn [negb]; [|eexists; reflexivity].
  destruct (PageBuddy p k); cbn [negb]; [|eexists; reflexivity].
  destruct H as [H|[H|H]]; try discriminate.
  destruct (split_free_page p k) as [n k1]. cbn in H. subst n.
  cbn. eexists; reflexivity.
Qed.

(** In lax mode the same PFN is stepped over: the scan goes on at the next
    PFN with the list and the total as they were. *)
Lemma block_body_lax_hole p fl t k :
  block_hole p k ->
  exists k', isolate_freepages_block_body p fl false t k
             = Block_next (p + 1) fl t k'.
Proof.
  unfold block_hole, isolate_freepages_block_body. intros H.
  destruct (pfn_valid_within p); cbn [negb]; [|eexists; reflexivity].
  destruct (PageBuddy p k); cbn [negb]; [|eexists; reflexivity].
  destruct H as [H|[H|H]]; try discriminate.
  destruct (split_free_page p k) as [n k1]. cbn in H. subst n.
  cbn. rewrite Z.add_0_r. eexists; reflexivity.
Qed.

(** A free page that splits into [n > 0] pages puts these on the list and
    moves the cursor past them, in either mode. *)
Lemma block_body_split p fl strict t k n k1 :
  pfn_valid_within p = true ->
  PageBuddy p k = true ->
  split_free_page p k = (n, k1) ->
  n <> 0%N ->
  isolate_freepages_block_body p fl strict t k
  = Block_next (p + Z.of_N n) (list_add_pages (N.to_nat n) p fl)
      (t + Z.of_N n) k1.
Proof.
  intros Hv Hb Hs Hn. unfold isolate_freepages_block_body.
  rewrite Hv, Hb, Hs. cbn [negb].
  assert (Hz : (Z.of_N n =? 0) = false) by (apply Z.eqb_neq; lia).
  rewrite Hz. cbn [andb]. f_equal. lia.
Qed.

(** Every continuing iteration is one of the two above. *)
Lemma block_body_next_inv p fl strict t k p1 fl1 t1 k1 :
  isolate_freepages_block_body p fl strict t k = Block_next p1 fl1 t1 k1 ->
  (strict = false /\ p1 = p + 1 /\ fl1 = fl /\ t1 = t)
  \/ (exists n, n <> 0%N /\ p1 = p + Z.of_N n /\ t1 = t + Z.of_N n
                /\ fl1 = list_add_pages (N.to_nat n) p fl).
Proof.
  unfold isolate_freepages_block_body.
  destruct (pfn_valid_within p); cbn [negb].
  2:{ destruct strict; [discriminate|]. intros H. injection H as <- <- <- <-.
      left. repeat split. }
  destruct (PageBuddy p k); cbn [negb].
  2:{ destruct strict; [discriminate|]. intros H. injection H as <- <- <- <-.
      left. repeat split. }
  destruct (split_free_page p k) as [n k2].
  destruct (Z.of_N n =? 0) eqn:Hz.
  - destruct strict; cbn [andb]; [discriminate|].
    intros H. injection H as <- <- <- <-.
    apply Z.eqb_eq in Hz. assert (n = 0%N) by lia. subst n.
    left. cbn. repeat split. lia.
  - cbn [andb]. intros H. injection H as <- <- <- <-.
    apply Z.eqb_neq in Hz.
    right. exists n. repeat split; lia.
Qed.

Lemma block_body_next_advances p fl strict t k p1 fl1 t1 k1 :
  isolate_freepages_block_body p fl strict t k = Block_next p1 fl1 t1 k1 ->
  p + 1 <= p1.
Proof.
  intros H. apply block_body_next_inv in H.
  destruct H as [(_ & -> & _)|(n & Hn & -> & _)]; lia.
Qed.

(** The fuel given by [isolate_freepages_block] is never used up: any
    fuel that covers the PFN range gives the same result. *)
Lemma isolate_freepages_block_loop_fuel end_pfn strict :
  forall fuel fuel' p fl t k,
    end_pfn - p <= Z.of_nat fuel ->
    end_pfn - p <= Z.of_nat fuel' ->
    isolate_freepages_block_loop fuel p end_pfn fl strict t k
    = isolate_freepages_block_loop fuel' p end_pfn fl strict t k.
Proof.
  induction fuel as [|fuel IH]; intros fuel' p fl t k H H'.
  - cbn. destruct fuel'; [reflexivity|]. cbn.
    destruct (p <? end_pfn) eqn:Hlt; [|reflexivity].
    apply Z.ltb_lt in Hlt. cbn in H. lia.
  - cbn [isolate_freepages_block_loop].
    destruct (p <? end_pfn) eqn:Hlt.
    + apply Z.ltb_lt in Hlt.
      destruct fuel' as [|fuel']; [cbn in H'; lia|].
      cbn [isolate_freepages_block_loop].
      apply Z.ltb_lt in Hlt. rewrite Hlt.
      destruct (isolate_freepages_block_body p fl strict t k)
        as [fl1 k1|p1 fl1 t1 k1] eqn:Hb; [reflexivity|].
      apply block_body_next_advances in Hb.
      apply IH; lia.
    + destruct fuel'; cbn; rewrite ?Hlt; reflexivity.
Qed.

Lemma isolate_freepages_block_loop_hole end_pfn :
  forall p fl t k p2 fl2 t2 k2,
    block_visits true end_pfn p fl t k p2 fl2 t2 k2 ->
    block_hole p2 k2 ->
    forall fuel,
      end_pfn - p <= Z.of_nat fuel ->
      fst (fst (isolate_freepages_block_loop fuel p end_pfn fl true t k)) = 0.
Proof.
  intros p fl t k p2 fl2 t2 k2 Hv.
  induction Hv as [p fl t k Hlt|p fl t k p1 fl1 t1 k1 p2 fl2 t2 k2 Hlt Hb Hv IH];
    intros Hhole fuel Hfuel.
  - destruct fuel as [|fuel]; [cbn in Hfuel; lia|].
    cbn [isolate_freepages_block_loop].
    apply Z.ltb_lt in Hlt. rewrite Hlt.
    destruct (block_body_strict_hole p fl t k Hhole) as (k' & ->).
    reflexivity.
  - destruct fuel as [|fuel]; [cbn in Hfuel; lia|].
    cbn [isolate_freepages_block_loop].
    pose proof Hlt as Hlt'. apply Z.ltb_lt in Hlt'. rewrite Hlt', Hb.
    apply block_body_next_advances in Hb.
    apply IH; [exact Hhole|lia].
Qed.

(** Pages on the list stay on the list, also when the scan fails. *)
Lemma isolate_freepages_block_loop_keeps end_pfn strict :
  forall fuel p fl t k r fl' k',
    isolate_freepages_block_loop fuel p end_pfn fl strict t k = (r, fl', k') ->
    forall q, In q fl -> In q fl'.
Proof.
  induction fuel as [|fuel IH]; intros p fl t k r fl' k' H q Hq.
  - cbn in H. injection H as _ <- _. exact Hq.
  - cbn [isolate_freepages_block_loop] in H.
    destruct (p <? end_pfn); [|injection H as _ <- _; exact Hq].
    destruct (isolate_freepages_block_body p fl strict t k)
      as [fl1 k1|p1 fl1 t1 k1] eqn:Hb.
    + apply block_body_strict_return_list in Hb. subst fl1.
      injection H as _ <- _. exact Hq.
    + eapply IH; [exact H|].
      apply block_body_next_inv in Hb.
      destruct Hb as [(_ & _ & -> & _)|(m & _ & _ & _ & ->)]; [exact Hq|].
      apply list_add_pages_In. left. exact Hq.
Qed.

(** The result of a lax scan counts the pages put on the list. *)
Lemma isolate_freepages_block_loop_lax_total end_pfn :
  forall fuel p fl t k r fl' k',
    isolate_freepages_block_loop fuel p end_pfn fl false t k = (r, fl', k') ->
    exists new, fl' = new ++ fl /\ r = t + Z.of_nat (length new).
Proof.
  induction fuel as [|fuel IH]; intros p fl t k r fl' k' H.
  - cbn in H. injection H as <- <- <-. exists []. split; [reflexivity|cbn; lia].
  - cbn [isolate_freepages_block_loop] in H.
    destruct (p <? end_pfn).
    2:{ injection H as <- <- <-. exists []. split; [reflexivity|cbn; lia]. }
    destruct (isolate_freepages_block_body p fl false t k)
      as [fl1 k1|p1 fl1 t1 k1] eqn:Hb.
    + apply (f_equal (fun s => match s with Block_return0 _ _ => true
                                      | Block_next _ _ _ _ => false end)) in Hb.
      unfold isolate_freepages_block_body in Hb.
      destruct (pfn_valid_within p); cbn in Hb; [|discriminate].
      destruct (PageBuddy p k); cbn in Hb; [|discriminate].
      destruct (split_free_page p k) as [n k2].
      rewrite andb_false_r in Hb. discriminate.
    + apply IH in H. destruct H as (new & -> & ->).
      apply block_body_next_inv in Hb.
      destruct Hb as [(_ & _ & -> & ->)|(n & Hn & _ & -> & ->)].
      * exists new. split; reflexivity.
      * destruct (list_add_pages_app (N.to_nat n) p fl) as (new' & -> & Hlen).
        exists (new ++ new'). rewrite app_assoc. split; [reflexivity|].
        rewrite length_app, Hlen. lia.
Qed.

(** A strict scan that returns a non-zero count has put every PFN from its
    cursor up to (at least) [end_pfn] on the list. *)
Lemma isolate_freepages_block_loop_strict_cover end_pfn :
  forall fuel p fl t k r fl' k',
    isolate_freepages_block_loop fuel p end_pfn fl true t k = (r, fl', k') ->
    end_pfn - p <= Z.of_nat fuel ->
    r <> 0 ->
    t <= r /\ end_pfn <= p + (r - t)
    /\ (forall q, In q fl \/ p <= q < p + (r - t) -> In q fl').
Proof.
  induction fuel as [|fuel IH]; intros p fl t k r fl' k' H Hfuel Hr.
  - cbn in H, Hfuel. injection H as <- <- <-.
    split; [lia|]. split; [lia|]. intros q [Hq|Hq]; [exact Hq|lia].
  - cbn [isolate_freepages_block_loop] in H.
    destruct (p <? end_pfn) eqn:Hlt.
    2:{ apply Z.ltb_ge in Hlt. injection H as <- <- <-.
        split; [lia|]. split; [lia|]. intros q [Hq|Hq]; [exact Hq|lia]. }
    destruct (isolate_freepages_block_body p fl true t k)
      as [fl1 k1|p1 fl1 t1 k1] eqn:Hb.
    + injection H as <- _ _. contradiction Hr. reflexivity.
    + apply block_body_next_inv in Hb.
      destruct Hb as [(Hs & _)|(n & Hn & -> & -> & ->)]; [discriminate|].
      apply IH in H; [|lia|exact Hr].
      destruct H as (Hle & Hend & Hcov).
      split; [lia|]. split; [lia|].
      intros q Hq. apply Hcov.
      destruct Hq as [Hq|Hq].
      * left. apply list_add_pages_In. left. exact Hq.
      * destruct (Z_lt_dec q (p + Z.of_N n)) as [Hq'|Hq'].
        -- left. apply list_add_pages_In. right. lia.
        -- right. lia.
Qed.

(** *** A lax scan, iteration by iteration *)

Lemma block_visits_lt strict end_pfn p fl t k p1 fl1 t1 k1 :
  block_visits strict end_pfn p fl t k p1 fl1 t1 k1 -> p1 < end_pfn.
Proof.
  induction 1; assumption.
Qed.

(** The iteration after a visited one is visited too, as long as it is
    below [end_pfn]. *)
Lemma block_visits_extend strict end_pfn p fl t k p1 fl1 t1 k1 p2 fl2 t2 k2 :
  block_visits strict end_pfn p fl t k p1 fl1 t1 k1 ->
  isolate_freepages_block_body p1 fl1 strict t1 k1 = Block_next p2 fl2 t2 k2 ->
  p2 < end_pfn ->
  block_visits strict end_pfn p fl t k p2 fl2 t2 k2.
Proof.
  intros Hv Hb Hlt.
  induction Hv as [p fl t k Hp|p fl t k pa fla ta ka pb flb tb kb Hp Hba Hv IH].
  - eapply visit_later; [exact Hp|exact Hb|]. apply visit_first, Hlt.
  - eapply visit_later; [exact Hp|exact Hba|]. apply IH, Hb.
Qed.

Lemma isolate_freepages_block_loop_done end_pfn strict fuel p fl t k :
  end_pfn <= p ->
  isolate_freepages_block_loop fuel p end_pfn fl strict t k = (t, fl, k).
Proof.
  intros Hge. destruct fuel as [|fuel]; [reflexivity|].
  cbn [isolate_freepages_block_loop].
  apply Z.ltb_ge in Hge. rewrite Hge. reflexivity.
Qed.

(** The scan from its start is the scan from any iteration it visits. *)
Lemma isolate_freepages_block_loop_visit end_pfn strict :
  forall p fl t k p1 fl1 t1 k1,
    block_visits strict end_pfn p fl t k p1 fl1 t1 k1 ->
    forall fuel,
      end_pfn - p <= Z.of_nat fuel ->
      exists fuel1,
        end_pfn - p1 <= Z.of_nat fuel1
        /\ isolate_freepages_block_loop fuel p end_pfn fl strict t k
           = isolate_freepages_block_loop fuel1 p1 end_pfn fl1 strict t1 k1.
Proof.
  intros p fl t k p1 fl1 t1 k1 Hv.
  induction Hv as [p fl t k Hp|p fl t k pa fla ta ka pb flb tb kb Hp Hba Hv IH];
    intros fuel Hfuel.
  - exists fuel. split; [exact Hfuel|reflexivity].
  - destruct fuel as [|fuel]; [cbn in Hfuel; lia|].
    cbn [isolate_freepages_block_loop].
    pose proof Hp as Hp'. apply Z.ltb_lt in Hp'. rewrite Hp', Hba.
    apply IH. apply block_body_next_advances in Hba. lia.
Qed.

(** ... and, one iteration further, the scan from the iteration's
    successor. *)
Lemma isolate_freepages_block_loop_visit_next end_pfn strict
    p fl t k p1 fl1 t1 k1 p2 fl2 t2 k2 :
  block_visits strict end_pfn p fl t k p1 fl1 t1 k1 ->
  isolate_freepages_block_body p1 fl1 strict t1 k1 = Block_next p2 fl2 t2 k2 ->
  forall fuel,
    end_pfn - p <= Z.of_nat fuel ->
    exists fuel2,
      isolate_freepages_block_loop fuel p end_pfn fl strict t k
      = isolate_freepages_block_loop fuel2 p2 end_pfn fl2 strict t2 k2.
Proof.
  intros Hv Hb fuel Hfuel.
  destruct (isolate_freepages_block_loop_visit _ _ _ _ _ _ _ _ _ _ Hv fuel Hfuel)
    as (fuel1 & Hfuel1 & ->).
  apply block_visits_lt in Hv.
  destruct fuel1 as [|fuel1]; [cbn in Hfuel1; lia|].
  exists fuel1. cbn [isolate_freepages_block_loop].
  apply Z.ltb_lt in Hv. rewrite Hv, Hb. reflexivity.
Qed.

(** C6: [isolate_freepages_block].  In strict mode, as soon as the scan
    meets a PFN that is invalid, is not a buddy page or fails to split,
    the function returns 0.  A lax call steps over such a PFN: the scan
    goes on at the next PFN with the list and the total unchanged (and if
    that was the last PFN, list and total are the result).  A lax call
    that meets a free page splitting into [n] pages has these [n] pages
    on the list it returns and counted in its result, and goes on at the
    PFN past them.  The result of a lax call is the number of order-0
    pages it has put on the list, and what any iteration has on the list
    and in the total is kept to the end.  In either mode a page that
    splits into [n] pages moves the cursor by [n]. *)
Theorem isolate_freepages_block_strict_and_lax :
  (forall blockpfn end_pfn freelist k p fl t k',
      block_visits true end_pfn blockpfn freelist 0 k p fl t k' ->
      block_hole p k' ->
      fst (fst (isolate_freepages_block blockpfn end_pfn freelist true k)) = 0)
  /\ (forall blockpfn end_pfn freelist k r fl' k' p fl t k1,
         isolate_freepages_block blockpfn end_pfn freelist false k
         = (r, fl', k') ->
         block_visits false end_pfn blockpfn freelist 0 k p fl t k1 ->
         block_hole p k1 ->
         exists k2,
           isolate_freepages_block_body p fl false t k1
           = Block_next (p + 1) fl t k2
           /\ (p + 1 < end_pfn ->
               block_visits false end_pfn blockpfn freelist 0 k
                 (p + 1) fl t k2)
           /\ (end_pfn <= p + 1 -> r = t /\ fl' = fl /\ k' = k2))
  /\ (forall blockpfn end_pfn freelist k r fl' k' p fl t k1 n k2,
         isolate_freepages_block blockpfn end_pfn freelist false k
         = (r, fl', k') ->
         block_visits false end_pfn blockpfn freelist 0 k p fl t k1 ->
         pfn_valid_within p = true ->
         PageBuddy p k1 = true ->
         split_free_page p k1 = (n, k2) ->
         n <> 0%N ->
         (forall q, p <= q < p + Z.of_N n -> In q fl')
         /\ t + Z.of_N n <= r
         /\ (p + Z.of_N n < end_pfn ->
             block_visits false end_pfn blockpfn freelist 0 k
               (p + Z.of_N n) (list_add_pages (N.to_nat n) p fl)
               (t + Z.of_N n) k2)
         /\ (end_pfn <= p + Z.of_N n ->
             r = t + Z.of_N n
             /\ fl' = list_add_pages (N.to_nat n) p fl /\ k' = k2))
  /\ (forall blockpfn end_pfn freelist k r fl' k',
         isolate_freepages_block blockpfn end_pfn freelist false k
         = (r, fl', k') ->
         (exists new, fl' = new ++ freelist /\ r = Z.of_nat (length new))
         /\ forall p fl t k1,
             block_visits false end_pfn blockpfn freelist 0 k p fl t k1 ->
             exists later,
               fl' = later ++ fl /\ r = t + Z.of_nat (length later))
  /\ (forall strict p fl t k n k1,
         pfn_valid_within p = true ->
         PageBuddy p k = true ->
         split_free_page p k = (n, k1) ->
         n <> 0%N ->
         isolate_freepages_block_body p fl strict t k
         = Block_next (p + Z.of_N n) (list_add_pages (N.to_nat n) p fl)
             (t + Z.of_N n) k1).
Proof.
  split; [|split; [|split; [|split]]].
  - intros blockpfn end_pfn freelist k p fl t k' Hv Hhole.
    unfold isolate_freepages_block.
    eapply isolate_freepages_block_loop_hole; [exact Hv|exact Hhole|lia].
  - intros blockpfn end_pfn freelist k r fl' k' p fl t k1 H Hv Hhole.
    destruct (block_body_lax_hole p fl t k1 Hhole) as (k2 & Hb).
    exists k2. split; [exact Hb|]. split.
    + intros Hlt. eapply block_visits_extend; eassumption.
    + intros Hge. unfold isolate_freepages_block in H.
      destruct (isolate_freepages_block_loop_visit_next _ _ _ _ _ _ _ _ _ _
                  _ _ _ _ Hv Hb (Z.to_nat (end_pfn - blockpfn)))
        as (fuel2 & E); [lia|].
      rewrite E, isolate_freepages_block_loop_done in H by exact Hge.
      injection H as <- <- <-. repeat split.
  - intros blockpfn end_pfn freelist k r fl' k' p fl t k1 n k2 H Hv
      Hvalid Hbuddy Hsplit Hn.
    pose proof (block_body_split p fl false t k1 n k2 Hvalid Hbuddy Hsplit Hn)
      as Hb.
    unfold isolate_freepages_block in H.
    destruct (isolate_freepages_block_loop_visit_next _ _ _ _ _ _ _ _ _ _
                _ _ _ _ Hv Hb (Z.to_nat (end_pfn - blockpfn)))
      as (fuel2 & E); [lia|].
    rewrite E in H.
    split; [|split; [|split]].
    + intros q Hq.
      eapply isolate_freepages_block_loop_keeps; [exact H|].
      apply list_add_pages_In. right. lia.
    + apply isolate_freepages_block_loop_lax_total in H.
      destruct H as (new & _ & ->). lia.
    + intros Hlt. eapply block_visits_extend; eassumption.
    + intros Hge.
      rewrite isolate_freepages_block_loop_done in H by exact Hge.
      injection H as <- <- <-. repeat split.
  - intros blockpfn end_pfn freelist k r fl' k' H.
    unfold isolate_freepages_block in H. split.
    + apply isolate_freepages_block_loop_lax_total in H.
      destruct H as (new & -> & ->). exists new. split; [reflexivity|lia].
    + intros p fl t k1 Hv.
      destruct (isolate_freepages_block_loop_visit _ _ _ _ _ _ _ _ _ _ Hv
                  (Z.to_nat (end_pfn - blockpfn))) as (fuel1 & _ & E); [lia|].
      rewrite E in H.
      apply isolate_freepages_block_loop_lax_total in H. exact H.
  - intros strict p fl t k n k1. apply block_body_split.
Qed.

(** ** The free-page range isolator *)

Lemma release_freepages_from_spec : forall l c k,
  release_freepages_from l c k
  = (c + Z.of_nat (length l), [],
     fold_left (fun k pg => __free_page pg k) l k).
Proof.
  induction l as [|pg l IH]; intros c k; cbn [release_freepages_from].
  - cbn. rewrite Z.add_0_r. reflexivity.
  - rewrite IH. cbn [length fold_left]. f_equal. f_equal. lia.
Qed.

Lemma release_freepages_spec l k :
  release_freepages l k
  = (Z.of_nat (length l), [], fold_left (fun k pg => __free_page pg k) l k).
Proof.
  unfold release_freepages. rewrite release_freepages_from_spec. reflexivity.
Qed.




(** ** The migrate-page range isolator *)

Lemma compact_checklock_irqsave_frame l locked cc k b cc' k' :
  compact_checklock_irqsave l locked cc k = (b, cc', k') ->
  same_static cc cc' /\ same_free cc cc' /\ same_migrate cc cc'
  /\ page cc' = page cc.
Proof.
  unfold compact_checklock_irqsave, same_static, same_free, same_migrate.
  destruct (need_resched k || spin_is_contended l k).
  - destruct locked; destruct (sync cc) eqn:Hs; cbn [negb];
      try destruct (fatal_signal_pending _);
      intros H; injection H as <- <- <-; cbn; rewrite ?Hs; repeat split.
  - intros H; injection H as <- <- <-. repeat split.
Qed.

Lemma isolate_migratepages_lock_check_frame z low locked cc k b cc' k' :
  isolate_migratepages_lock_check z low locked cc k = (b, cc', k') ->
  same_static cc cc' /\ same_free cc cc' /\ same_migrate cc cc'
  /\ page cc' = page cc.
Proof.
  unfold isolate_migratepages_lock_check.
  destruct ((low + 1) mod SWAP_CLUSTER_MAX =? 0);
    apply compact_checklock_irqsave_frame.
Qed.

Lemma shiftl_1_N_pos (n : N) : 0 < Z.shiftl 1 (Z.of_N n).
Proof.
  rewrite Z.shiftl_1_l. apply Z.pow_pos_nonneg; lia.
Qed.

(** What one iteration of the scan does to the cursor and to the control
    block.  A [break] leaves [low_pfn] where the lock check failed, with
    nothing isolated in this iteration, or one past a page that filled the
    batch; every other path moves [low_pfn] forward. *)
Lemma isolate_migratepages_body_inv z low lpn mode locked cc k :
  match isolate_migratepages_body z low lpn mode locked cc k with
  | Scan_break r l cc' k' =>
      same_static cc cc' /\ same_free cc cc' /\ page cc' = page cc
      /\ migrate_pfn cc' = migrate_pfn cc
      /\ ((r = low /\ l = false
           /\ isolate_migratepages_lock_check z low locked cc k
              = (false, cc', k'))
          \/ (r = low + 1 /\ l = true))
  | Scan_next low1 _ _ cc' k' =>
      same_static cc cc' /\ same_free cc cc' /\ page cc' = page cc
      /\ migrate_pfn cc' = migrate_pfn cc
      /\ low + 1 <= low1
  end.
Proof.
  unfold isolate_migratepages_body.
  destruct (isolate_migratepages_lock_check z low locked cc k)
    as [[l1 cc1] k1] eqn:Hlc.
  pose proof (isolate_migratepages_lock_check_frame _ _ _ _ _ _ _ _ Hlc)
    as (Hst & Hfr & (Hm1 & Hm2 & Hm3) & Hpg).
  pose proof MAX_ORDER_NR_PAGES_pos as HM.
  pose proof pageblock_nr_pages_pos as HP.
  pose proof (ALIGN_pageblock_ge (low + pageblock_nr_pages)) as HA.
  pose proof (shiftl_1_N_pos (compound_order low k1)) as HC.
  destruct l1; cbn [negb].
  2:{ split; [exact Hst|]. split; [exact Hfr|]. split; [exact Hpg|].
      split; [exact Hm3|]. left. repeat split. }
  repeat match goal with
         | |- context [if ?b then _ else _] => destruct b
         | |- context [let '(_, _) := ?e in _] => destruct e
         end;
    unfold same_static, same_free in *; cbn.
  all: repeat split; try tauto; try lia.
Qed.

Lemma same_static_refl cc : same_static cc cc.
Proof. repeat split. Qed.

Lemma same_static_trans cc1 cc2 cc3 :
  same_static cc1 cc2 -> same_static cc2 cc3 -> same_static cc1 cc3.
Proof.
  unfold same_static. intros (A & B & C & D) (A' & B' & C' & D').
  repeat split; congruence.
Qed.

Lemma same_free_refl cc : same_free cc cc.
Proof. repeat split. Qed.

Lemma same_free_trans cc1 cc2 cc3 :
  same_free cc1 cc2 -> same_free cc2 cc3 -> same_free cc1 cc3.
Proof.
  unfold same_free. intros (A & B & C) (A' & B' & C').
  repeat split; congruence.
Qed.

Lemma same_migrate_refl cc : same_migrate cc cc.
Proof. repeat split. Qed.

Lemma same_migrate_trans cc1 cc2 cc3 :
  same_migrate cc1 cc2 -> same_migrate cc2 cc3 -> same_migrate cc1 cc3.
Proof.
  unfold same_migrate. intros (A & B & C) (A' & B' & C').
  repeat split; congruence.
Qed.

(** The scan never moves [low_pfn] backwards, and when it leaves it in
    place it has isolated nothing. *)
Lemma isolate_migratepages_scan_inv z end_pfn :
  forall fuel low lpn mode locked cc k r l cc' k',
    isolate_migratepages_scan fuel z low end_pfn lpn mode locked cc k
    = (r, l, cc', k') ->
    same_static cc cc' /\ same_free cc cc' /\ page cc' = page cc
    /\ migrate_pfn cc' = migrate_pfn cc
    /\ ((r = low /\ migratepages cc' = migratepages cc
         /\ nr_migratepages cc' = nr_migratepages cc)
        \/ low < r).
Proof.
  induction fuel as [|fuel IH]; intros low lpn mode locked cc k r l cc' k' H.
  - cbn in H. injection H as <- <- <- <-.
    repeat split. left. repeat split.
  - cbn [isolate_migratepages_scan] in H.
    destruct (low <? end_pfn).
    2:{ injection H as <- <- <- <-. repeat split. left. repeat split. }
    pose proof (isolate_migratepages_body_inv z low lpn mode locked cc k) as Hb.
    destruct (isolate_migratepages_body z low lpn mode locked cc k)
      as [r1 l1 cc1 k1|low1 lpn1 mode1 cc1 k1].
    + injection H as <- <- <- <-.
      destruct Hb as (Hst & Hfr & Hpg & Hm & Hcase).
      split; [exact Hst|]. split; [exact Hfr|]. split; [exact Hpg|].
      split; [exact Hm|].
      destruct Hcase as [(-> & _ & Hlc)|(-> & _)]; [|right; lia].
      apply isolate_migratepages_lock_check_frame in Hlc.
      destruct Hlc as (_ & _ & (Hm1 & Hm2 & _) & _).
      left. repeat split; assumption.
    + apply IH in H.
      destruct Hb as (Hst & Hfr & Hpg & Hm & Hlow).
      destruct H as (Hst' & Hfr' & Hpg' & Hm' & Hcase).
      split; [eapply same_static_trans; eassumption|].
      split; [eapply same_free_trans; eassumption|].
      split; [congruence|]. split; [congruence|].
      right. destruct Hcase as [(-> & _)|Hlt]; lia.
Qed.

(** The fuel given by [isolate_migratepages_range] is never used up. *)
Lemma isolate_migratepages_scan_fuel z end_pfn :
  forall fuel fuel' low lpn mode locked cc k,
    end_pfn - low <= Z.of_nat fuel ->
    end_pfn - low <= Z.of_nat fuel' ->
    isolate_migratepages_scan fuel z low end_pfn lpn mode locked cc k
    = isolate_migratepages_scan fuel' z low end_pfn lpn mode locked cc k.
Proof.
  induction fuel as [|fuel IH]; intros fuel' low lpn mode locked cc k H H'.
  - cbn. destruct fuel'; [reflexivity|]. cbn.
    destruct (low <? end_pfn) eqn:Hlt; [|reflexivity].
    apply Z.ltb_lt in Hlt. cbn in H. lia.
  - cbn [isolate_migratepages_scan].
    destruct (low <? end_pfn) eqn:Hlt.
    + apply Z.ltb_lt in Hlt.
      destruct fuel' as [|fuel']; [cbn in H'; lia|].
      cbn [isolate_migratepages_scan].
      apply Z.ltb_lt in Hlt. rewrite Hlt.
      pose proof (isolate_migratepages_body_inv z low lpn mode locked cc k)
        as Hb.
      destruct (isolate_migratepages_body z low lpn mode locked cc k)
        as [r1 l1 cc1 k1|low1 lpn1 mode1 cc1 k1]; [reflexivity|].
      destruct Hb as (_ & _ & _ & _ & Hlow).
      apply IH; lia.
    + destruct fuel'; cbn; rewrite ?Hlt; reflexivity.
Qed.

(** An iteration whose lock check fails ends the scan at that PFN. *)
Lemma isolate_migratepages_scan_abort z end_pfn :
  forall low lpn mode cc k p lpn' mode' cc_p k_p,
    scan_visits z end_pfn low lpn mode cc k p lpn' mode' cc_p k_p ->
    forall cc' k',
      isolate_migratepages_lock_check z p true cc_p k_p = (false, cc', k') ->
      forall fuel,
        end_pfn - low <= Z.of_nat fuel ->
        isolate_migratepages_scan fuel z low end_pfn lpn mode true cc k
        = (p, false, cc', k').
Proof.
  intros low lpn mode cc k p lpn' mode' cc_p k_p Hv.
  induction Hv as [low lpn mode cc k Hlt
                  |low lpn mode cc k low1 lpn1 mode1 cc1 k1
                       low2 lpn2 mode2 cc2 k2 Hlt Hb Hv IH];
    intros cc' k' Hlc fuel Hfuel.
  - destruct fuel as [|fuel]; [cbn in Hfuel; lia|].
    cbn [isolate_migratepages_scan].
    apply Z.ltb_lt in Hlt. rewrite Hlt.
    unfold isolate_migratepages_body. rewrite Hlc. reflexivity.
  - destruct fuel as [|fuel]; [cbn in Hfuel; lia|].
    cbn [isolate_migratepages_scan].
    pose proof Hlt as Hlt'. apply Z.ltb_lt in Hlt'. rewrite Hlt'.
    pose proof (isolate_migratepages_body_inv z low lpn mode true cc k) as Hi.
    rewrite Hb in Hi |- *. destruct Hi as (_ & _ & _ & _ & Hlow).
    apply IH; [exact Hlc|lia].
Qed.

(** When the lock check tells its caller to abort: the task should
    yield or the lock is contended, and the run is async or, after
    yielding, a fatal signal is pending. *)
Lemma compact_checklock_irqsave_aborts l locked cc k :
  fst (fst (compact_checklock_irqsave l locked cc k)) = false <->
  need_resched k || spin_is_contended l k = true
  /\ (sync cc = false
      \/ fatal_signal_pending
           (cond_resched (if locked then spin_unlock_irqrestore l k else k))
         = true).
Proof.
  unfold compact_checklock_irqsave.
  destruct (need_resched k || spin_is_contended l k).
  - destruct locked; destruct (sync cc); cbn [negb fst];
      try destruct (fatal_signal_pending _) eqn:Hs; cbn [fst];
      intuition congruence.
  - cbn [fst]. intuition congruence.
Qed.

(** What a lock-check abort does to the value returned.  The
    lock-arbitration check tells its caller to abort on async contention
    or on a fatal signal in sync mode.  When it does so during the scan
    of [isolate_migratepages_range], the function accounts the pages
    isolated so far and returns the PFN at which the check failed: called
    with a positive [low_pfn] it returns 0 only from the backpressure
    gate, before the scan.  [isolate_migratepages] tests that value
    against 0 and nothing else. *)
Theorem isolate_migratepages_range_abort_value :
  (forall l locked cc k,
      fst (fst (compact_checklock_irqsave l locked cc k)) = false <->
      need_resched k || spin_is_contended l k = true
      /\ (sync cc = false
          \/ fatal_signal_pending
               (cond_resched (if locked then spin_unlock_irqrestore l k else k))
             = true))
  /\ (forall fuel z cc low_pfn end_pfn k k0 p lpn mode cc_p k_p cc' k',
      too_many_isolated_wait fuel z cc k = Some (false, k0) ->
      scan_visits z end_pfn low_pfn 0 0 cc
        (spin_lock_irqsave (lru_lock z) (cond_resched k0)) p lpn mode cc_p k_p ->
      isolate_migratepages_lock_check z p true cc_p k_p = (false, cc', k') ->
      isolate_migratepages_range fuel z cc low_pfn end_pfn k
      = Some (p, cc', acct_isolated z false cc' k'))
  /\ (forall fuel z cc low_pfn end_pfn k cc' k',
         0 < low_pfn ->
         isolate_migratepages_range fuel z cc low_pfn end_pfn k
         = Some (0, cc', k') ->
         too_many_isolated_wait fuel z cc k = Some (true, k') /\ cc' = cc)
  /\ (forall fuel z cc k r cc' k',
         let low_pfn := Z.max (migrate_pfn cc) (Z.of_N (zone_start_pfn z)) in
         let end_pfn :=
           ALIGN (low_pfn + pageblock_nr_pages) pageblock_nr_pages in
         end_pfn <= free_pfn cc ->
         pfn_valid low_pfn = true ->
         isolate_migratepages_range fuel z cc low_pfn end_pfn k
         = Some (r, cc', k') ->
         isolate_migratepages fuel z cc k
         = Some (if r =? 0 then (ISOLATE_ABORT, cc', k')
                 else (ISOLATE_SUCCESS, set_migrate_pfn cc' r, k'))).
Proof.
  split; [exact compact_checklock_irqsave_aborts|].
  split; [|split].
  - intros fuel z cc low_pfn end_pfn k k0 p lpn mode cc_p k_p cc' k'
      Hwait Hv Hlc.
    unfold isolate_migratepages_range. rewrite Hwait.
    rewrite (isolate_migratepages_scan_abort _ _ _ _ _ _ _ _ _ _ _ _ Hv
               _ _ Hlc) by lia.
    reflexivity.
  - intros fuel z cc low_pfn end_pfn k cc' k' Hpos H.
    unfold isolate_migratepages_range in H.
    destruct (too_many_isolated_wait fuel z cc k) as [[[|] k0]|];
      [|exfalso|discriminate].
    + injection H as <- <-. split; reflexivity.
    + destruct (isolate_migratepages_scan (Z.to_nat (end_pfn - low_pfn)) z
                  low_pfn end_pfn 0 0 true cc
                  (spin_lock_irqsave (lru_lock z) (cond_resched k0)))
        as [[[r l] cc1] k1] eqn:Hscan.
      apply isolate_migratepages_scan_inv in Hscan.
      destruct Hscan as (_ & _ & _ & _ & Hcase).
      injection H as -> _ _. destruct Hcase as [(Hr & _)|Hr]; lia.
  - intros fuel z cc k r cc' k' low_pfn end_pfn Hend Hvalid H.
    unfold isolate_migratepages. fold low_pfn. fold end_pfn.
    apply Z.ltb_ge in Hend. rewrite Hend, Hvalid. cbn [negb orb].
    rewrite H. destruct (r =? 0); reflexivity.
Qed.

(** ** The bounded loops never run out of fuel

    The loops that recurse on a fuel computed from their range give the
    same result for every fuel that covers the range. *)

Lemma compact_finished_scan_fuel z cc k :
  forall fuel fuel' ord,
    MAX_ORDER - ord <= Z.of_nat fuel ->
    MAX_ORDER - ord <= Z.of_nat fuel' ->
    compact_finished_scan fuel z cc ord k
    = compact_finished_scan fuel' z cc ord k.
Proof.
  intros fuel fuel' ord H H'.
  rewrite !compact_finished_scan_closed_form.
  destruct fuel, fuel'; try reflexivity.
  - destruct (ord <? MAX_ORDER) eqn:Hlt; [|reflexivity].
    apply Z.ltb_lt in Hlt. cbn in H. lia.
  - destruct (ord <? MAX_ORDER) eqn:Hlt; [|reflexivity].
    apply Z.ltb_lt in Hlt. cbn in H'. lia.
Qed.

Lemma compact_capture_orders_fuel z mtype :
  forall fuel fuel' ord cc k,
    MAX_ORDER - ord <= Z.of_nat fuel ->
    MAX_ORDER - ord <= Z.of_nat fuel' ->
    compact_capture_orders fuel z mtype ord cc k
    = compact_capture_orders fuel' z mtype ord cc k.
Proof.
  induction fuel as [|fuel IH]; intros fuel' ord cc k H H'.
  - cbn. destruct fuel'; [reflexivity|]. cbn.
    destruct (ord <? MAX_ORDER) eqn:Hlt; [|reflexivity].
    apply Z.ltb_lt in Hlt. cbn in H. lia.
  - cbn [compact_capture_orders].
    destruct (ord <? MAX_ORDER) eqn:Hlt.
    + destruct fuel' as [|fuel'];
        [apply Z.ltb_lt in Hlt; cbn in H'; lia|].
      cbn [compact_capture_orders]. rewrite Hlt. apply Z.ltb_lt in Hlt.
      assert (Hgo : forall cc0 k0,
                 compact_capture_orders fuel z mtype (ord + 1) cc0 k0
                 = compact_capture_orders fuel' z mtype (ord + 1) cc0 k0)
        by (intros; apply IH; lia).
      destruct (list_empty (free_list z ord mtype k)); [apply Hgo|].
      destruct (compact_trylock_irqsave (zone_lock z) cc k) as [[locked cc1] k1].
      destruct (negb locked); [reflexivity|].
      destruct (free_list z ord mtype k1); [apply Hgo|].
      destruct (capture_free_page _ _ _ _) as [ok k2].
      destruct ok; [reflexivity|apply Hgo].
    + destruct fuel'; cbn; rewrite ?Hlt; reflexivity.
Qed.

Lemma isolate_freepages_range_loop_fuel end_pfn zone0 :
  forall fuel fuel' p fl k,
    end_pfn - p <= Z.of_nat fuel ->
    end_pfn - p <= Z.of_nat fuel' ->
    isolate_freepages_range_loop fuel zone0 p end_pfn fl k
    = isolate_freepages_range_loop fuel' zone0 p end_pfn fl k.
Proof.
  induction fuel as [|fuel IH]; intros fuel' p fl k H H'.
  - cbn. destruct fuel'; [reflexivity|]. cbn.
    destruct (p <? end_pfn) eqn:Hlt; [|reflexivity].
    apply Z.ltb_lt in Hlt. cbn in H. lia.
  - cbn [isolate_freepages_range_loop].
    destruct (p <? end_pfn) eqn:Hlt.
    + destruct fuel' as [|fuel'];
        [apply Z.ltb_lt in Hlt; cbn in H'; lia|].
      cbn [isolate_freepages_range_loop]. rewrite Hlt. apply Z.ltb_lt in Hlt.
      destruct zone0 as [z|]; [|reflexivity].
      destruct (negb (pfn_valid p) || negb (z =? page_zone p)); [reflexivity|].
      destruct (isolate_freepages_block p
                  (Z.min (ALIGN (p + 1) pageblock_nr_pages) end_pfn) fl true
                  (spin_lock_irqsave (zone_lock z) k))
        as [[isolated fl1] k1] eqn:Hblk.
      destruct (isolated =? 0) eqn:Hz; [reflexivity|].
      apply Z.eqb_neq in Hz. unfold isolate_freepages_block in Hblk.
      apply isolate_freepages_block_loop_strict_cover in Hblk;
        [|lia|exact Hz].
      apply IH; lia.
    + destruct fuel'; cbn; rewrite ?Hlt; reflexivity.
Qed.

Lemma isolate_freepages_loop_fuel z low_pfn zone_end_pfn :
  forall fuel fuel' pfn0 high_pfn nr_free0 cc k,
    pfn0 - low_pfn <= Z.of_nat fuel ->
    pfn0 - low_pfn <= Z.of_nat fuel' ->
    isolate_freepages_loop fuel z pfn0 low_pfn high_pfn zone_end_pfn nr_free0
      cc k
    = isolate_freepages_loop fuel' z pfn0 low_pfn high_pfn zone_end_pfn
        nr_free0 cc k.
Proof.
  pose proof pageblock_nr_pages_pos as HP.
  induction fuel as [|fuel IH];
    intros fuel' pfn0 high_pfn nr_free0 cc k H H'.
  - cbn. destruct fuel'; [reflexivity|]. cbn.
    destruct (low_pfn <? pfn0) eqn:Hlt; [|reflexivity].
    apply Z.ltb_lt in Hlt. cbn in H. lia.
  - cbn [isolate_freepages_loop].
    destruct (low_pfn <? pfn0) eqn:Hlt; cbn [andb].
    + destruct fuel' as [|fuel'];
        [apply Z.ltb_lt in Hlt; cbn in H'; lia|].
      cbn [isolate_freepages_loop]. rewrite Hlt. cbn [andb].
      apply Z.ltb_lt in Hlt.
      assert (Hgo : forall high0 nr0 cc0 k0,
                 isolate_freepages_loop fuel z (pfn0 - pageblock_nr_pages)
                   low_pfn high0 zone_end_pfn nr0 cc0 k0
                 = isolate_freepages_loop fuel' z (pfn0 - pageblock_nr_pages)
                     low_pfn high0 zone_end_pfn nr0 cc0 k0)
        by (intros; apply IH; lia).
      destruct (nr_free0 <? nr_migratepages cc); [|reflexivity].
      destruct (negb (pfn_valid pfn0)); [apply Hgo|].
      destruct (negb (page_zone pfn0 =? z)); [apply Hgo|].
      destruct (negb (suitable_migration_target pfn0 k)); [apply Hgo|].
      destruct (compact_trylock_irqsave (zone_lock z) cc k)
        as [[locked cc1] k1].
      destruct (negb locked); [reflexivity|].
      destruct (if suitable_migration_target pfn0 k1
                then isolate_freepages_block pfn0
                       (Z.min (pfn0 + pageblock_nr_pages) zone_end_pfn)
                       (freepages cc1) false k1
                else (0, freepages cc1, k1)) as [[isolated fl] k2].
      apply Hgo.
    + destruct fuel'; cbn; rewrite ?Hlt; reflexivity.
Qed.


(** ** The two cursors *)

Lemma compact_zone_iterate_reaches z :
  forall n fuel cc k cc' k',
    compact_zone_iterate n fuel z cc k = Some (cc', k') ->
    zone_run_reaches z cc k cc' k'.
Proof.
  induction n as [|n IH]; intros fuel cc k cc' k' H; cbn in H.
  - injection H as <- <-. constructor.
  - destruct (compact_finished z cc k =? COMPACT_CONTINUE) eqn:Hf;
      [|discriminate].
    apply Z.eqb_eq in Hf.
    destruct (compact_zone_body fuel z cc k) as [[ret cc1 k1|cc1 k1]|] eqn:Hb;
      try discriminate.
    eapply reaches_step; [exact Hf|exact Hb|]. eapply IH, H.
Qed.

(** C2 (amended): the order of the cursors at the head of the main loop.
    Whenever the termination predicate lets the loop go on,
    [migrate_pfn < free_pfn].  A step of the loop can break the order:
    when the end of the next pageblock lies beyond [free_pfn],
    [isolate_migratepages] returns ISOLATE_NONE with [migrate_pfn] set to
    that end, strictly above [free_pfn].  From a state in which the order
    is broken the termination predicate ends the run, with COMPLETE or, on
    a fatal signal, PARTIAL. *)
Theorem compact_zone_cursor_order :
  (forall z cc k cc' k',
      zone_run_reaches z cc k cc' k' ->
      compact_finished z cc' k' = COMPACT_CONTINUE ->
      migrate_pfn cc' < free_pfn cc')
  /\ (forall fuel z cc k,
         let low_pfn := Z.max (migrate_pfn cc) (Z.of_N (zone_start_pfn z)) in
         let end_pfn :=
           ALIGN (low_pfn + pageblock_nr_pages) pageblock_nr_pages in
         free_pfn cc < end_pfn ->
         isolate_migratepages fuel z cc k
         = Some (ISOLATE_NONE, set_migrate_pfn cc end_pfn, k)
         /\ free_pfn (set_migrate_pfn cc end_pfn)
            < migrate_pfn (set_migrate_pfn cc end_pfn))
  /\ (forall z cc k cc' k',
         zone_run_reaches z cc k cc' k' ->
         free_pfn cc' <= migrate_pfn cc' ->
         compact_finished z cc' k'
         = if fatal_signal_pending k' then COMPACT_PARTIAL
           else COMPACT_COMPLETE).
Proof.
  split; [|split].
  - intros z cc k cc' k' _. apply compact_finished_continue_cursors.
  - intros fuel z cc k low_pfn end_pfn Hlt.
    unfold isolate_migratepages. fold low_pfn. fold end_pfn.
    apply Z.ltb_lt in Hlt. rewrite Hlt. cbn [orb].
    split; [reflexivity|]. cbn. apply Z.ltb_lt, Hlt.
  - intros z cc k cc' k' _. apply compact_finished_cursors_met.
Qed.

(** ** Frame properties of the helpers of the zone run *)

Lemma compact_capture_orders_frame z mtype :
  forall fuel ord cc k b cc' k',
    compact_capture_orders fuel z mtype ord cc k = (b, cc', k') ->
    same_static cc cc' /\ same_free cc cc' /\ same_migrate cc cc'.
Proof.
  induction fuel as [|fuel IH]; intros ord cc k b cc' k' H.
  - cbn in H. injection H as <- <- <-. repeat split.
  - cbn [compact_capture_orders] in H.
    destruct (ord <? MAX_ORDER).
    2:{ injection H as <- <- <-. repeat split. }
    destruct (list_empty (free_list z ord mtype k)); [eapply IH, H|].
    destruct (compact_trylock_irqsave (zone_lock z) cc k)
      as [[locked cc1] k1] eqn:Hl.
    apply compact_checklock_irqsave_frame in Hl.
    destruct Hl as (Hst & Hfr & Hmi & _).
    destruct locked; cbn [negb] in H.
    2:{ injection H as <- <- <-. tauto. }
    assert (Hgo : forall k2,
               compact_capture_orders fuel z mtype (ord + 1) cc1 k2
               = (b, cc', k') ->
               same_static cc cc' /\ same_free cc cc' /\ same_migrate cc cc').
    { intros k2 H2. apply IH in H2. destruct H2 as (A & B & C).
      split; [eapply same_static_trans; eassumption|].
      split; [eapply same_free_trans; eassumption
             |eapply same_migrate_trans; eassumption]. }
    destruct (free_list z ord mtype k1) as [|pg rest]; [eapply Hgo, H|].
    destruct (capture_free_page pg (order cc1) mtype k1) as [ok k2].
    destruct ok; [|eapply Hgo, H].
    injection H as <- <- <-.
    unfold same_static, same_free, same_migrate in *. cbn. tauto.
Qed.

Lemma compact_capture_mtypes_frame z mtype_high :
  forall fuel mtype cc k cc' k',
    compact_capture_mtypes fuel z mtype mtype_high cc k = (cc', k') ->
    same_static cc cc' /\ same_free cc cc' /\ same_migrate cc cc'.
Proof.
  induction fuel as [|fuel IH]; intros mtype cc k cc' k' H.
  - cbn in H. injection H as <- <-. repeat split.
  - cbn [compact_capture_mtypes] in H.
    destruct (mtype <? mtype_high).
    2:{ injection H as <- <-. repeat split. }
    destruct (compact_capture_orders (Z.to_nat (MAX_ORDER - order cc)) z mtype
                (order cc) cc k) as [[returned cc1] k1] eqn:Ho.
    apply compact_capture_orders_frame in Ho. destruct Ho as (A & B & C).
    destruct returned.
    + injection H as <- <-. tauto.
    + apply IH in H. destruct H as (A' & B' & C').
      split; [eapply same_static_trans; eassumption|].
      split; [eapply same_free_trans; eassumption
             |eapply same_migrate_trans; eassumption].
Qed.

Lemma compact_capture_page_frame cc k cc' k' :
  compact_capture_page cc k = (cc', k') ->
  same_static cc cc' /\ same_free cc cc' /\ same_migrate cc cc'.
Proof.
  unfold compact_capture_page.
  destruct (page cc) as [[pg|]|]; try (intros H; injection H as <- <-;
                                       repeat split).
  destruct (zone cc) as [z|]; [|intros H; injection H as <- <-; repeat split].
  destruct (migratetype cc =? MIGRATE_MOVABLE);
    apply compact_capture_mtypes_frame.
Qed.

Lemma isolate_freepages_loop_frame z low_pfn zone_end_pfn :
  forall fuel pfn0 high_pfn nr_free0 cc k high' nr' cc' k',
    isolate_freepages_loop fuel z pfn0 low_pfn high_pfn zone_end_pfn nr_free0
      cc k = (high', nr', cc', k') ->
    same_static cc cc' /\ same_migrate cc cc'.
Proof.
  induction fuel as [|fuel IH];
    intros pfn0 high_pfn nr_free0 cc k high' nr' cc' k' H.
  - cbn in H. injection H as <- <- <- <-. repeat split.
  - cbn [isolate_freepages_loop] in H.
    destruct ((low_pfn <? pfn0) && (nr_free0 <? nr_migratepages cc)).
    2:{ injection H as <- <- <- <-. repeat split. }
    destruct (negb (pfn_valid pfn0)); [eapply IH, H|].
    destruct (negb (page_zone pfn0 =? z)); [eapply IH, H|].
    destruct (negb (suitable_migration_target pfn0 k)); [eapply IH, H|].
    destruct (compact_trylock_irqsave (zone_lock z) cc k)
      as [[locked cc1] k1] eqn:Hl.
    apply compact_checklock_irqsave_frame in Hl.
    destruct Hl as (Hst & _ & Hmi & _).
    destruct locked; cbn [negb] in H.
    2:{ injection H as <- <- <- <-. tauto. }
    destruct (if suitable_migration_target pfn0 k1
              then isolate_freepages_block pfn0
                     (Z.min (pfn0 + pageblock_nr_pages) zone_end_pfn)
                     (freepages cc1) false k1
              else (0, freepages cc1, k1)) as [[isolated fl] k2].
    apply IH in H. destruct H as (A & B).
    unfold same_static, same_migrate in *. cbn in A, B. split.
    + destruct Hst as (? & ? & ? & ?), A as (? & ? & ? & ?).
      repeat split; congruence.
    + destruct Hmi as (? & ? & ?), B as (? & ? & ?).
      repeat split; congruence.
Qed.

Lemma isolate_freepages_frame z cc k cc' k' :
  isolate_freepages z cc k = (cc', k') ->
  same_static cc cc' /\ same_migrate cc cc'.
Proof.
  unfold isolate_freepages.
  destruct (isolate_freepages_loop _ z (free_pfn cc) _ _ _ _ cc k)
    as [[[high nr] cc1] k1] eqn:Hl.
  apply isolate_freepages_loop_frame in Hl. destruct Hl as (A & B).
  intros H. injection H as <- <-.
  unfold same_static, same_migrate in *. cbn. tauto.
Qed.

Lemma compaction_alloc_frame pg cc k r cc' k' :
  compaction_alloc pg cc k = (r, cc', k') ->
  same_static cc cc' /\ same_migrate cc cc'.
Proof.
  unfold compaction_alloc.
  destruct (if list_empty (freepages cc)
            then match zone cc with
                 | Some z => isolate_freepages z cc k
                 | None => (cc, k)
                 end
            else (cc, k)) as [cc1 k1] eqn:Hi.
  assert (Hf : same_static cc cc1 /\ same_migrate cc cc1).
  { destruct (list_empty (freepages cc)).
    - destruct (zone cc) as [z|].
      + apply isolate_freepages_frame in Hi. exact Hi.
      + injection Hi as <- <-. repeat split.
    - injection Hi as <- <-. repeat split. }
  destruct Hf as (A & B).
  destruct (freepages cc1) as [|fp rest]; intros H; injection H as <- <- <-.
  - tauto.
  - unfold same_static, same_migrate in *. cbn. tauto.
Qed.

(** ** The migration engine *)

Section MigratePages.

Variable get_new_page : new_page_t.
Hypothesis get_new_page_frame : forall pg cc k r cc' k',
  get_new_page pg cc k = (r, cc', k') ->
  same_static cc cc' /\ same_migrate cc cc'.

Lemma migrate_pages_pass_inv pass offlining mode :
  forall todo kept retry nr_failed cc k enomem l retry' nr_failed' cc' k',
    migrate_pages_pass todo kept get_new_page pass offlining mode retry
      nr_failed cc k = (enomem, l, retry', nr_failed', cc', k') ->
    same_static cc cc' /\ same_migrate cc cc'
    /\ nr_failed <= nr_failed'
    /\ (enomem = false ->
        retry' - retry = Z.of_nat (length l) - Z.of_nat (length kept)).
Proof.
  induction todo as [|pg rest IH];
    intros kept retry nr_failed cc k enomem l retry' nr_failed' cc' k' H;
    cbn [migrate_pages_pass] in H.
  - injection H as <- <- <- <- <- <-.
    split; [apply same_static_refl|]. split; [apply same_migrate_refl|].
    split; [lia|]. intros _. rewrite length_rev. lia.
  - destruct (get_new_page pg cc (cond_resched k)) as [[newpage cc1] k1]
      eqn:Hcb.
    apply get_new_page_frame in Hcb. destruct Hcb as (A & B).
    destruct newpage as [np|].
    2:{ injection H as <- <- <- <- <- <-.
        split; [exact A|]. split; [exact B|]. split; [lia|discriminate]. }
    destruct (__unmap_and_move pg np (2 <? pass) offlining mode k1)
      as [rc k2].
    assert (Hgo : forall kept0 retry0 nf0 k3,
               nr_failed <= nf0 ->
               migrate_pages_pass rest kept0 get_new_page pass offlining mode
                 retry0 nf0 cc1 k3 = (enomem, l, retry', nr_failed', cc', k') ->
               same_static cc cc' /\ same_migrate cc cc'
               /\ nr_failed <= nr_failed'
               /\ (enomem = false ->
                   retry' - retry0
                   = Z.of_nat (length l) - Z.of_nat (length kept0))).
    { intros kept0 retry0 nf0 k3 Hnf H0. apply IH in H0.
      destruct H0 as (A' & B' & C' & D').
      split; [eapply same_static_trans; eassumption|].
      split; [eapply same_migrate_trans; eassumption|].
      split; [lia|exact D']. }
    destruct (rc =? - EAGAIN).
    { apply Hgo in H; [|lia]. destruct H as (A' & B' & C' & D').
      split; [exact A'|]. split; [exact B'|]. split; [exact C'|].
      intros He. specialize (D' He). cbn [length] in D'. lia. }
    destruct (rc =? - ENOMEM).
    { injection H as <- <- <- <- <- <-.
      split; [exact A|]. split; [exact B|]. split; [lia|discriminate]. }
    destruct (rc =? 0).
    + apply Hgo in H; [|lia]. exact H.
    + apply Hgo in H; [|lia]. exact H.
Qed.

Lemma migrate_pages_passes_inv offlining mode :
  forall n from pass retry nr_failed cc k err l cc' k',
    migrate_pages_passes n from get_new_page pass offlining mode retry
      nr_failed cc k = (err, l, cc', k') ->
    0 <= nr_failed ->
    retry = Z.of_nat (length from) \/ (n <> O /\ retry <> 0) ->
    same_static cc cc' /\ same_migrate cc cc' /\ (err = 0 -> l = []).
Proof.
  induction n as [|n IH];
    intros from pass retry nr_failed cc k err l cc' k' H Hnf Hretry;
    cbn [migrate_pages_passes] in H.
  - injection H as <- <- <- <-.
    split; [apply same_static_refl|]. split; [apply same_migrate_refl|].
    intros He. destruct Hretry as [Hr|[Hn _]]; [|contradiction].
    destruct from; [reflexivity|]. cbn [length] in Hr. lia.
  - destruct (retry =? 0) eqn:Hz.
    + apply Z.eqb_eq in Hz. injection H as <- <- <- <-.
      split; [apply same_static_refl|]. split; [apply same_migrate_refl|].
      intros _. destruct Hretry as [Hr|[_ Hr]]; [|contradiction].
      destruct from; [reflexivity|]. cbn [length] in Hr. lia.
    + destruct (migrate_pages_pass from [] get_new_page pass offlining mode 0
                  nr_failed cc k)
        as [[[[[enomem from1] retry1] nf1] cc1] k1] eqn:Hpass.
      apply migrate_pages_pass_inv in Hpass.
      destruct Hpass as (A & B & C & D).
      destruct enomem.
      * injection H as <- <- <- <-.
        split; [exact A|]. split; [exact B|]. unfold ENOMEM. discriminate.
      * apply IH in H; [|lia|left; specialize (D eq_refl); cbn in D; lia].
        destruct H as (A' & B' & C').
        split; [eapply same_static_trans; eassumption|].
        split; [eapply same_migrate_trans; eassumption|exact C'].
Qed.

(** The engine returns 0 only when it has emptied the list. *)
Lemma migrate_pages_inv offlining mode cc k err cc' k' :
  migrate_pages get_new_page offlining mode cc k = (err, cc', k') ->
  same_static cc cc'
  /\ nr_migratepages cc' = nr_migratepages cc
  /\ migrate_pfn cc' = migrate_pfn cc
  /\ (err = 0 -> migratepages cc' = []).
Proof.
  unfold migrate_pages.
  destruct (migrate_pages_passes 10 (migratepages cc) get_new_page 0
              offlining mode 1 0 cc k) as [[[err1 l] cc1] k1] eqn:Hp.
  apply migrate_pages_passes_inv in Hp; [|lia|right; split; [discriminate|lia]].
  destruct Hp as (A & B & C).
  intros H. injection H as <- <- <-.
  unfold same_static, same_migrate in *. cbn. tauto.
Qed.

End MigratePages.

(** ** The zone run *)

Lemma isolate_migratepages_range_inv fuel z cc low end_pfn k r cc' k' :
  isolate_migratepages_range fuel z cc low end_pfn k = Some (r, cc', k') ->
  same_static cc cc' /\ same_free cc cc' /\ page cc' = page cc
  /\ migrate_pfn cc' = migrate_pfn cc
  /\ ((r = 0 \/ r = low)
      /\ migratepages cc' = migratepages cc
      /\ nr_migratepages cc' = nr_migratepages cc
      \/ low < r).
Proof.
  unfold isolate_migratepages_range.
  destruct (too_many_isolated_wait fuel z cc k) as [[[|] k0]|];
    [| |discriminate].
  - intros H. injection H as <- <- <-. repeat split. left. repeat split.
    left. reflexivity.
  - destruct (isolate_migratepages_scan (Z.to_nat (end_pfn - low)) z low
                end_pfn 0 0 true cc
                (spin_lock_irqsave (lru_lock z) (cond_resched k0)))
      as [[[r1 l] cc1] k1] eqn:Hscan.
    apply isolate_migratepages_scan_inv in Hscan.
    intros H. injection H as <- <- <-.
    destruct Hscan as (A & B & C & D & E).
    split; [exact A|]. split; [exact B|]. split; [exact C|].
    split; [exact D|].
    destruct E as [(-> & E1 & E2)|E]; [left|right; exact E].
    split; [right; reflexivity|]. split; assumption.
Qed.

(** The migrate-page sweep leaves the free list alone, and unless it
    reports success it leaves the migrate list alone too. *)
Lemma isolate_migratepages_inv fuel z cc k t cc' k' :
  isolate_migratepages fuel z cc k = Some (t, cc', k') ->
  same_static cc cc'
  /\ freepages cc' = freepages cc /\ nr_freepages cc' = nr_freepages cc
  /\ free_pfn cc' = free_pfn cc
  /\ (t <> ISOLATE_SUCCESS ->
      migratepages cc' = migratepages cc
      /\ nr_migratepages cc' = nr_migratepages cc).
Proof.
  unfold isolate_migratepages.
  set (low := Z.max (migrate_pfn cc) (Z.of_N (zone_start_pfn z))).
  set (end_pfn := ALIGN (low + pageblock_nr_pages) pageblock_nr_pages).
  destruct ((free_pfn cc <? end_pfn) || negb (pfn_valid low)).
  - intros H. injection H as <- <- <-. cbn. repeat split.
  - destruct (isolate_migratepages_range fuel z cc low end_pfn k)
      as [[[r cc1] k1]|] eqn:Hr; [|discriminate].
    apply isolate_migratepages_range_inv in Hr.
    destruct Hr as (A & (B1 & B2 & B3) & _ & _ & E).
    destruct (r =? 0) eqn:Hz; intros H; injection H as <- <- <-.
    + apply Z.eqb_eq in Hz. subst r.
      split; [exact A|]. split; [exact B1|]. split; [exact B2|].
      split; [exact B3|].
      intros _. destruct E as [(_ & E1 & E2)|E]; [split; assumption|].
      unfold low in E. lia.
    + unfold same_static in *. cbn.
      split; [tauto|]. split; [tauto|]. split; [tauto|]. split; [tauto|].
      intros Hc. contradiction Hc. reflexivity.
Qed.

(** The state of the two private lists at the head of the main loop. *)
Lemma ulong_sub_diag a : ulong_sub a a = 0.
Proof.
  unfold ulong_sub. rewrite Z.sub_diag. apply Zmod_0_l.
Qed.

Lemma compact_zone_out_empty ret cc k ret' cc' k' :
  compact_zone_out ret cc k = (ret', cc', k') ->
  nr_freepages cc = Z.of_nat (length (freepages cc)) ->
  ret' = ret /\ same_static cc cc' /\ same_migrate cc cc'
  /\ free_pfn cc' = free_pfn cc
  /\ freepages cc' = [] /\ nr_freepages cc' = 0.
Proof.
  unfold compact_zone_out. rewrite release_freepages_spec.
  intros H Hnr. injection H as <- <- <-. cbn.
  rewrite Hnr, ulong_sub_diag. repeat split.
Qed.

Lemma compact_zone_body_inv fuel z cc k it :
  compact_zone_body fuel z cc k = Some it ->
  migratepages cc = [] ->
  nr_migratepages cc = 0 ->
  nr_freepages cc = Z.of_nat (length (freepages cc)) ->
  match it with
  | Iter_out ret cc' _ =>
      ret = COMPACT_PARTIAL /\ same_static cc cc'
      /\ migratepages cc' = [] /\ nr_migratepages cc' = 0
      /\ nr_freepages cc' = Z.of_nat (length (freepages cc'))
  | Iter_next cc' _ =>
      same_static cc cc'
      /\ migratepages cc' = [] /\ nr_migratepages cc' = 0
      /\ nr_freepages cc' = Z.of_nat (length (freepages cc'))
  end.
Proof.
  unfold compact_zone_body. intros H Hml Hnm Hnf.
  destruct (isolate_migratepages fuel z cc k) as [[[t cc1] k1]|] eqn:Hi;
    [|discriminate].
  apply isolate_migratepages_inv in Hi.
  destruct Hi as (A & B1 & B2 & _ & C).
  destruct t.
  - injection H as <-. destruct C as (C1 & C2); [discriminate|].
    split; [reflexivity|]. split; [exact A|]. repeat split; congruence.
  - injection H as <-. destruct C as (C1 & C2); [discriminate|].
    split; [exact A|]. repeat split; congruence.
  - clear C.
    destruct (migrate_pages compaction_alloc false
                (if sync cc1 then MIGRATE_SYNC_LIGHT else MIGRATE_ASYNC)
                cc1 k1) as [[err cc2] k2] eqn:Hm.
    apply (migrate_pages_inv _ compaction_alloc_frame) in Hm.
    destruct Hm as (A2 & _ & _ & D2).
    assert (A12 : same_static cc cc2)
      by (eapply same_static_trans; eassumption).
    assert (Hup : same_static cc (update_nr_listpages cc2)).
    { unfold same_static in *. cbn. tauto. }
    cbv zeta in H.
    destruct (err =? 0) eqn:He.
    + apply Z.eqb_eq in He. specialize (D2 He).
      destruct (compact_capture_page (update_nr_listpages cc2) _)
        as [cc3 k3] eqn:Hc.
      apply compact_capture_page_frame in Hc.
      destruct Hc as (A3 & (F1 & F2 & _) & (M1 & M2 & _)).
      injection H as <-.
      split; [eapply same_static_trans; eassumption|].
      rewrite M1, M2, F1, F2. cbn. rewrite D2. repeat split.
    + destruct (err =? - ENOMEM).
      * injection H as <-.
        split; [reflexivity|]. split; [exact Hup|]. cbn. repeat split.
      * destruct (compact_capture_page _ _) as [cc3 k3] eqn:Hc.
        apply compact_capture_page_frame in Hc.
        destruct Hc as (A3 & (F1 & F2 & _) & (M1 & M2 & _)).
        injection H as <-.
        split; [eapply same_static_trans; [exact Hup|]; exact A3|].
        rewrite M1, M2, F1, F2. cbn. repeat split.
Qed.

Lemma compact_zone_loop_inv z :
  forall fuel cc k ret cc' k',
    compact_zone_loop fuel z cc k = Some (ret, cc', k') ->
    migratepages cc = [] ->
    nr_migratepages cc = 0 ->
    nr_freepages cc = Z.of_nat (length (freepages cc)) ->
    same_static cc cc'
    /\ freepages cc' = [] /\ nr_freepages cc' = 0
    /\ migratepages cc' = [] /\ nr_migratepages cc' = 0
    /\ (ret = COMPACT_PARTIAL
        \/ exists cc1 k1,
            zone_run_reaches z cc k cc1 k1
            /\ same_static cc cc1
            /\ ret = compact_finished z cc1 k1
            /\ ret <> COMPACT_CONTINUE
            /\ free_pfn cc' = free_pfn cc1
            /\ migrate_pfn cc' = migrate_pfn cc1).
Proof.
  assert (Hexit : forall cc k ret cc' k',
             compact_zone_out (compact_finished z cc k) cc k = (ret, cc', k') ->
             (compact_finished z cc k =? COMPACT_CONTINUE) = false ->
             migratepages cc = [] ->
             nr_migratepages cc = 0 ->
             nr_freepages cc = Z.of_nat (length (freepages cc)) ->
             same_static cc cc'
             /\ freepages cc' = [] /\ nr_freepages cc' = 0
             /\ migratepages cc' = [] /\ nr_migratepages cc' = 0
             /\ (ret = COMPACT_PARTIAL
                 \/ exists cc1 k1,
                     zone_run_reaches z cc k cc1 k1
                     /\ same_static cc cc1
                     /\ ret = compact_finished z cc1 k1
                     /\ ret <> COMPACT_CONTINUE
                     /\ free_pfn cc' = free_pfn cc1
                     /\ migrate_pfn cc' = migrate_pfn cc1)).
  { intros cc k ret cc' k' H Hf Hml Hnm Hnf.
    apply compact_zone_out_empty in H; [|exact Hnf].
    destruct H as (-> & A & (M1 & M2 & M3) & F & E1 & E2).
    split; [exact A|]. split; [exact E1|]. split; [exact E2|].
    split; [congruence|]. split; [congruence|].
    right. exists cc, k. split; [constructor|].
    split; [apply same_static_refl|]. split; [reflexivity|].
    split; [apply Z.eqb_neq, Hf|]. split; assumption. }
  induction fuel as [|fuel IH]; intros cc k ret cc' k' H Hml Hnm Hnf.
  - cbn in H.
    destruct (compact_finished z cc k =? COMPACT_CONTINUE) eqn:Hf;
      [discriminate|].
    injection H as H. eapply Hexit; eassumption.
  - cbn [compact_zone_loop] in H.
    destruct (compact_finished z cc k =? COMPACT_CONTINUE) eqn:Hf.
    2:{ injection H as H. eapply Hexit; eassumption. }
    apply Z.eqb_eq in Hf.
    destruct (compact_zone_body fuel z cc k) as [[ret1 cc1 k1|cc1 k1]|] eqn:Hb;
      [| |discriminate].
    + pose proof (compact_zone_body_inv _ _ _ _ _ Hb Hml Hnm Hnf)
        as (-> & A & M1 & M2 & F).
      injection H as H.
      apply compact_zone_out_empty in H; [|exact F].
      destruct H as (-> & A' & (N1 & N2 & _) & _ & E1 & E2).
      split; [eapply same_static_trans; eassumption|].
      split; [exact E1|]. split; [exact E2|].
      split; [congruence|]. split; [congruence|]. left. reflexivity.
    + pose proof (compact_zone_body_inv _ _ _ _ _ Hb Hml Hnm Hnf)
        as (A & M1 & M2 & F).
      apply IH in H; try assumption.
      destruct H as (A' & E1 & E2 & E3 & E4 & Hret).
      split; [eapply same_static_trans; eassumption|].
      split; [exact E1|]. split; [exact E2|].
      split; [exact E3|]. split; [exact E4|].
      destruct Hret as [Hp|(cc2 & k2 & Hreach & S2 & R1 & R2 & R3 & R4)];
        [left; exact Hp|].
      right. exists cc2, k2.
      split; [eapply reaches_step; eassumption|].
      split; [eapply same_static_trans; eassumption|].
      repeat split; assumption.
Qed.

Lemma compact_zone_init_static z cc : same_static cc (compact_zone_init z cc).
Proof. repeat split. Qed.

Lemma compact_zone_inv fuel z cc k ret cc' k' :
  compact_zone fuel z cc k = Some (ret, cc', k') ->
  freepages cc = [] -> nr_freepages cc = 0 ->
  migratepages cc = [] -> nr_migratepages cc = 0 ->
  same_static cc cc'
  /\ freepages cc' = [] /\ nr_freepages cc' = 0
  /\ migratepages cc' = [] /\ nr_migratepages cc' = 0.
Proof.
  unfold compact_zone. intros H Hfl Hnf Hml Hnm.
  destruct ((compaction_suitable z (order cc) k =? COMPACT_PARTIAL)
            || (compaction_suitable z (order cc) k =? COMPACT_SKIPPED)).
  - injection H as <- <- <-. split; [apply same_static_refl|tauto].
  - apply compact_zone_loop_inv in H.
    + destruct H as (A & H). split; [|tauto].
      eapply same_static_trans; [apply compact_zone_init_static|exact A].
    + exact Hml.
    + exact Hnm.
    + cbn. rewrite Hfl, Hnf. reflexivity.
Qed.

Lemma __compact_pgdat_zones_lists fuel :
  forall zones cc zi k cc' zi' k',
    __compact_pgdat_zones fuel zones cc zi k = Some (cc', zi', k') ->
    freepages cc = [] -> migratepages cc = [] ->
    order cc' = order cc
    /\ freepages cc' = [] /\ migratepages cc' = [].
Proof.
  induction zones as [|z rest IH]; intros cc zi k cc' zi' k' H Hfl Hml;
    cbn [__compact_pgdat_zones] in H.
  - injection H as <- <- <-. tauto.
  - destruct (negb (populated_zone z k)); [eapply IH; eassumption|].
    set (cc0 := set_zone (set_migratelist (set_freelist cc [] 0) [] 0) z) in *.
    destruct (if order cc0 =? -1 then (true, zi)
              else let '(deferred, d) := compaction_deferred (zi z) (order cc0) in
                   (negb deferred, set_zone_info zi z d)) as [run zi1].
    destruct run.
    + destruct (compact_zone fuel z cc0 k) as [[[ret cc1] k1]|] eqn:Hz;
        [|discriminate].
      apply compact_zone_inv in Hz; try reflexivity.
      destruct Hz as ((Ho & _) & E1 & _ & E3 & _).
      apply IH in H; try assumption.
      destruct H as (Ho' & H). split; [|exact H].
      rewrite Ho', Ho. reflexivity.
    + apply IH in H; try reflexivity. exact H.
Qed.

(** *** How a zone run is left *)

Lemma compact_zone_body_cases fuel z cc k it :
  compact_zone_body fuel z cc k = Some it ->
  exists t cc1 k1,
    isolate_migratepages fuel z cc k = Some (t, cc1, k1)
    /\ match t with
       | ISOLATE_ABORT => it = Iter_out COMPACT_PARTIAL cc1 k1
       | ISOLATE_NONE => it = Iter_next cc1 k1
       | ISOLATE_SUCCESS =>
           exists err cc2 k2,
             migrate_pages compaction_alloc false
               (if sync cc1 then MIGRATE_SYNC_LIGHT else MIGRATE_ASYNC) cc1 k1
             = (err, cc2, k2)
             /\ let k3 :=
                  migrate_account (nr_migratepages cc1)
                    (Z.of_nat (length (migratepages cc2))) k2 in
                if err =? 0 then
                  it = (let '(cc3, k4) :=
                          compact_capture_page (update_nr_listpages cc2) k3 in
                        Iter_next cc3 k4)
                else if err =? - ENOMEM then
                  it = Iter_out COMPACT_PARTIAL
                         (set_migratelist (update_nr_listpages cc2) [] 0)
                         (putback_lru_pages (migratepages cc2) k3)
                else
                  it = (let '(cc3, k4) :=
                          compact_capture_page
                            (set_migratelist (update_nr_listpages cc2) [] 0)
                            (putback_lru_pages (migratepages cc2) k3) in
                        Iter_next cc3 k4)
       end.
Proof.
  unfold compact_zone_body. intros H.
  destruct (isolate_migratepages fuel z cc k) as [[[t cc1] k1]|];
    [|discriminate].
  exists t, cc1, k1. split; [reflexivity|].
  destruct t.
  - injection H as <-. reflexivity.
  - injection H as <-. reflexivity.
  - destruct (migrate_pages compaction_alloc false
                (if sync cc1 then MIGRATE_SYNC_LIGHT else MIGRATE_ASYNC)
                cc1 k1) as [[err cc2] k2].
    exists err, cc2, k2. split; [reflexivity|].
    cbv zeta in H. cbv zeta. unfold migrate_account.
    cbn [nr_migratepages update_nr_listpages set_freelist set_migratelist
         migratepages] in H.
    destruct (err =? 0).
    + destruct (compact_capture_page _ _) as [cc3 k3].
      injection H as <-. reflexivity.
    + destruct (err =? - ENOMEM).
      * injection H as <-. reflexivity.
      * destruct (compact_capture_page _ _) as [cc3 k3].
        injection H as <-. reflexivity.
Qed.

Lemma compact_zone_loop_out z :
  forall fuel cc k ret cc' k',
    compact_zone_loop fuel z cc k = Some (ret, cc', k') ->
    exists cc0 k0 cc1 k1,
      zone_run_reaches z cc k cc0 k0
      /\ zone_run_leaves z cc0 k0 ret cc1 k1
      /\ compact_zone_out ret cc1 k1 = (ret, cc', k').
Proof.
  induction fuel as [|fuel IH]; intros cc k ret cc' k' H;
    cbn [compact_zone_loop] in H;
    destruct (compact_finished z cc k =? COMPACT_CONTINUE) eqn:Hf;
    try discriminate.
  1,3: apply Z.eqb_neq in Hf; injection H as H;
    assert (Hr : ret = compact_finished z cc k)
      by (unfold compact_zone_out in H;
          destruct (release_freepages (freepages cc) k) as [[c l] k2];
          injection H as <- _ _; reflexivity);
    exists cc, k, cc, k; (split; [apply reaches_here|]);
    rewrite Hr; (split; [apply leaves_finished, Hf|]);
    rewrite <- Hr; rewrite Hr at 1; exact H.
  apply Z.eqb_eq in Hf.
  destruct (compact_zone_body fuel z cc k) as [[ret1 cc1 k1|cc1 k1]|] eqn:Hb;
    [| |discriminate].
  - injection H as H.
    assert (Hr : ret = ret1)
      by (unfold compact_zone_out in H;
          destruct (release_freepages (freepages cc1) k1) as [[c l] k2];
          injection H as <- _ _; reflexivity).
    subst ret1.
    exists cc, k, cc1, k1. split; [apply reaches_here|]. split; [|exact H].
    apply compact_zone_body_cases in Hb.
    destruct Hb as (t & cca & ka & Hi & Hcase).
    destruct t.
    + injection Hcase as -> -> ->. eapply leaves_abort; eassumption.
    + discriminate.
    + destruct Hcase as (err & ccb & kb & Hm & Hcase). cbv zeta in Hcase.
      destruct (err =? 0) eqn:He0.
      { destruct (compact_capture_page _ _); discriminate. }
      destruct (err =? - ENOMEM) eqn:He.
      2:{ destruct (compact_capture_page _ _); discriminate. }
      apply Z.eqb_eq in He. subst err.
      injection Hcase as -> -> ->.
      eapply leaves_enomem; eassumption.
  - apply IH in H.
    destruct H as (cc0 & k0 & cc2 & k2 & Hreach & Hleave & Hout).
    exists cc0, k0, cc2, k2.
    split; [eapply reaches_step; eassumption|]. split; assumption.
Qed.


Lemma zone_run_reaches_lists z cc k cc0 k0 :
  zone_run_reaches z cc k cc0 k0 ->
  migratepages cc = [] ->
  nr_migratepages cc = 0 ->
  nr_freepages cc = Z.of_nat (length (freepages cc)) ->
  migratepages cc0 = [] /\ nr_migratepages cc0 = 0
  /\ nr_freepages cc0 = Z.of_nat (length (freepages cc0)).
Proof.
  induction 1 as [cc k|fuel cc k cc1 k1 cc2 k2 Hf Hb Hr IH];
    intros Hml Hnm Hnf; [tauto|].
  pose proof (compact_zone_body_inv _ _ _ _ _ Hb Hml Hnm Hnf) as Hi.
  cbn beta iota in Hi. destruct Hi as (_ & M1 & M2 & F).
  apply IH; assumption.
Qed.

Lemma zone_run_leaves_lists z cc k ret cc1 k1 :
  zone_run_leaves z cc k ret cc1 k1 ->
  migratepages cc = [] ->
  nr_migratepages cc = 0 ->
  nr_freepages cc = Z.of_nat (length (freepages cc)) ->
  migratepages cc1 = [] /\ nr_migratepages cc1 = 0
  /\ nr_freepages cc1 = Z.of_nat (length (freepages cc1)).
Proof.
  intros Hl Hml Hnm Hnf.
  destruct Hl as [Hf|fuel cc1 k1 Hf Hi|fuel cc1 k1 cc2 k2 Hf Hi Hm].
  - tauto.
  - apply isolate_migratepages_inv in Hi.
    destruct Hi as (_ & F1 & F2 & _ & M). destruct M as (M1 & M2);
      [discriminate|].
    rewrite M1, M2, F1, F2. tauto.
  - cbn. tauto.
Qed.

Lemma compact_zone_body_next_lists fuel z cc k cc' k' :
  migratepages cc = [] ->
  nr_migratepages cc = 0 ->
  compact_zone_body fuel z cc k = Some (Iter_next cc' k') ->
  migratepages cc' = [] /\ nr_migratepages cc' = 0
  /\ (isolate_migratepages fuel z cc k = Some (ISOLATE_NONE, cc', k')
      \/ exists cc1 k1 err cc2 k2,
          isolate_migratepages fuel z cc k = Some (ISOLATE_SUCCESS, cc1, k1)
          /\ migrate_pages compaction_alloc false
               (if sync cc1 then MIGRATE_SYNC_LIGHT else MIGRATE_ASYNC) cc1 k1
             = (err, cc2, k2)
          /\ err <> - ENOMEM
          /\ (err = 0 ->
              migratepages cc2 = []
              /\ (cc', k')
                 = compact_capture_page (update_nr_listpages cc2)
                     (migrate_account (nr_migratepages cc1)
                        (Z.of_nat (length (migratepages cc2))) k2))
          /\ (err <> 0 ->
              (cc', k')
              = compact_capture_page
                  (set_migratelist (update_nr_listpages cc2) [] 0)
                  (putback_lru_pages (migratepages cc2)
                     (migrate_account (nr_migratepages cc1)
                        (Z.of_nat (length (migratepages cc2))) k2)))).
Proof.
  intros Hml Hnm Hb.
  apply compact_zone_body_cases in Hb.
  destruct Hb as (t & cc1 & k1 & Hi & Hcase).
  destruct t; [discriminate| |].
  - injection Hcase as <- <-.
    pose proof Hi as Hinv. apply isolate_migratepages_inv in Hinv.
    destruct Hinv as (_ & _ & _ & _ & M). destruct M as (M1 & M2);
      [discriminate|].
    rewrite M1, M2. split; [exact Hml|]. split; [exact Hnm|].
    left. exact Hi.
  - destruct Hcase as (err & cc2 & k2 & Hm & Hcase). cbv zeta in Hcase.
    pose proof Hm as Hminv.
    apply (migrate_pages_inv _ compaction_alloc_frame) in Hminv.
    destruct Hminv as (_ & _ & _ & Hempty).
    destruct (err =? 0) eqn:He0.
    + apply Z.eqb_eq in He0. specialize (Hempty He0).
      destruct (compact_capture_page (update_nr_listpages cc2) _)
        as [cc3 k3] eqn:Hc.
      injection Hcase as <- <-.
      pose proof Hc as Hfr. apply compact_capture_page_frame in Hfr.
      destruct Hfr as (_ & _ & (M1 & M2 & _)).
      rewrite M1, M2. cbn. rewrite Hempty.
      split; [reflexivity|]. split; [reflexivity|].
      right. exists cc1, k1, err, cc2, k2.
      split; [exact Hi|]. split; [exact Hm|].
      split; [subst err; discriminate|].
      split.
      * intros _. split; [exact Hempty|]. rewrite Hempty in Hc.
        rewrite Hempty. symmetry. exact Hc.
      * intros Hne. contradiction.
    + apply Z.eqb_neq in He0.
      destruct (err =? - ENOMEM) eqn:He; [discriminate|].
      apply Z.eqb_neq in He.
      destruct (compact_capture_page _ _) as [cc3 k3] eqn:Hc.
      injection Hcase as <- <-.
      pose proof Hc as Hfr. apply compact_capture_page_frame in Hfr.
      destruct Hfr as (_ & _ & (M1 & M2 & _)).
      rewrite M1, M2. cbn.
      split; [reflexivity|]. split; [reflexivity|].
      right. exists cc1, k1, err, cc2, k2.
      split; [exact Hi|]. split; [exact Hm|]. split; [exact He|].
      split; [intros He'; contradiction|].
      intros _. symmetry. exact Hc.
Qed.

Lemma compact_zone_exit fuel z cc k ret cc' k' :
  freepages cc = [] -> nr_freepages cc = 0 ->
  migratepages cc = [] -> nr_migratepages cc = 0 ->
  compact_zone fuel z cc k = Some (ret, cc', k') ->
  (ret = compaction_suitable z (order cc) k
   /\ (ret = COMPACT_PARTIAL \/ ret = COMPACT_SKIPPED)
   /\ cc' = cc /\ k' = k)
  \/ exists cc0 k0 cc1 k1,
      zone_run_reaches z (compact_zone_init z cc) (migrate_prep_local k) cc0 k0
      /\ zone_run_leaves z cc0 k0 ret cc1 k1
      /\ migratepages cc1 = [] /\ nr_migratepages cc1 = 0
      /\ nr_freepages cc1 = Z.of_nat (length (freepages cc1))
      /\ cc' = set_freelist cc1 [] 0
      /\ k' = fold_left (fun k pg => __free_page pg k) (freepages cc1) k1.
Proof.
  intros Hfl Hnf Hml Hnm H. unfold compact_zone in H.
  destruct (compaction_suitable z (order cc) k =? COMPACT_PARTIAL) eqn:Hp.
  { apply Z.eqb_eq in Hp. cbn [orb] in H. injection H as <- <- <-.
    left. split; [reflexivity|]. split; [left; exact Hp|]. split; reflexivity. }
  destruct (compaction_suitable z (order cc) k =? COMPACT_SKIPPED) eqn:Hs.
  { apply Z.eqb_eq in Hs. cbn [orb] in H. injection H as <- <- <-.
    left. split; [reflexivity|]. split; [right; exact Hs|]. split; reflexivity. }
  cbn [orb] in H. right.
  apply compact_zone_loop_out in H.
  destruct H as (cc0 & k0 & cc1 & k1 & Hreach & Hleave & Hout).
  assert (Hinit : migratepages (compact_zone_init z cc) = []
                  /\ nr_migratepages (compact_zone_init z cc) = 0
                  /\ nr_freepages (compact_zone_init z cc)
                     = Z.of_nat (length (freepages (compact_zone_init z cc)))).
  { cbn. rewrite Hfl, Hnf. tauto. }
  destruct Hinit as (I1 & I2 & I3).
  destruct (zone_run_reaches_lists _ _ _ _ _ Hreach I1 I2 I3) as (J1 & J2 & J3).
  destruct (zone_run_leaves_lists _ _ _ _ _ _ Hleave J1 J2 J3)
    as (L1 & L2 & L3).
  exists cc0, k0, cc1, k1.
  split; [exact Hreach|]. split; [exact Hleave|].
  split; [exact L1|]. split; [exact L2|]. split; [exact L3|].
  unfold compact_zone_out in Hout. rewrite release_freepages_spec in Hout.
  injection Hout as <- <-. rewrite L3, ulong_sub_diag. split; reflexivity.
Qed.

(** C4: both private lists are empty when a zone run ends.  A run entered
    with empty lists (as [compact_zone_order] and [__compact_pgdat] enter
    it) returns, on whichever path, with [nr_freepages = 0] and an empty
    free list, and with [nr_migratepages = 0] and an empty migrate list.
    Either it returned early (SKIPPED or PARTIAL from
    [compaction_suitable]) with the control block and the kernel state
    untouched, or it left the main loop by one of the exit paths of
    [zone_run_leaves] (the termination predicate; an isolation abort; an
    out-of-memory migration error, after the pages left on the migrate
    list were put back on the LRU), with an empty migrate list, and the
    code at [out] handed every page still on the free list to
    [__free_page].  An iteration that goes back to the loop head leaves
    the migrate list empty as well: either nothing was isolated, or the
    engine returned 0 having emptied the list, or it returned an error
    and the pages it left were passed to [putback_lru_pages] before the
    list was reset.  Every loop head of the run has an empty migrate
    list, and [__compact_pgdat] returns with both lists of its control
    block empty. *)
Theorem compact_zone_lists_empty_on_exit :
  (forall fuel z cc k ret cc' k',
      freepages cc = [] -> nr_freepages cc = 0 ->
      migratepages cc = [] -> nr_migratepages cc = 0 ->
      compact_zone fuel z cc k = Some (ret, cc', k') ->
      (freepages cc' = [] /\ nr_freepages cc' = 0
       /\ migratepages cc' = [] /\ nr_migratepages cc' = 0)
      /\ ((ret = compaction_suitable z (order cc) k
           /\ (ret = COMPACT_PARTIAL \/ ret = COMPACT_SKIPPED)
           /\ cc' = cc /\ k' = k)
          \/ exists cc0 k0 cc1 k1,
              zone_run_reaches z (compact_zone_init z cc)
                (migrate_prep_local k) cc0 k0
              /\ zone_run_leaves z cc0 k0 ret cc1 k1
              /\ migratepages cc1 = [] /\ nr_migratepages cc1 = 0
              /\ nr_freepages cc1 = Z.of_nat (length (freepages cc1))
              /\ cc' = set_freelist cc1 [] 0
              /\ k' = fold_left (fun k pg => __free_page pg k)
                        (freepages cc1) k1))
  /\ (forall fuel z cc k cc' k',
         migratepages cc = [] ->
         nr_migratepages cc = 0 ->
         compact_zone_body fuel z cc k = Some (Iter_next cc' k') ->
         migratepages cc' = [] /\ nr_migratepages cc' = 0
         /\ (isolate_migratepages fuel z cc k = Some (ISOLATE_NONE, cc', k')
             \/ exists cc1 k1 err cc2 k2,
                 isolate_migratepages fuel z cc k
                 = Some (ISOLATE_SUCCESS, cc1, k1)
                 /\ migrate_pages compaction_alloc false
                      (if sync cc1 then MIGRATE_SYNC_LIGHT else MIGRATE_ASYNC)
                      cc1 k1
                    = (err, cc2, k2)
                 /\ err <> - ENOMEM
                 /\ (err = 0 ->
                     migratepages cc2 = []
                     /\ (cc', k')
                        = compact_capture_page (update_nr_listpages cc2)
                            (migrate_account (nr_migratepages cc1)
                               (Z.of_nat (length (migratepages cc2))) k2))
                 /\ (err <> 0 ->
                     (cc', k')
                     = compact_capture_page
                         (set_migratelist (update_nr_listpages cc2) [] 0)
                         (putback_lru_pages (migratepages cc2)
                            (migrate_account (nr_migratepages cc1)
                               (Z.of_nat (length (migratepages cc2))) k2)))))
  /\ (forall z cc k cc0 k0,
         migratepages cc = [] ->
         nr_migratepages cc = 0 ->
         nr_freepages cc = Z.of_nat (length (freepages cc)) ->
         zone_run_reaches z cc k cc0 k0 ->
         migratepages cc0 = [] /\ nr_migratepages cc0 = 0
         /\ nr_freepages cc0 = Z.of_nat (length (freepages cc0)))
  /\ (forall fuel pgdat cc zi k r cc' zi' k',
         freepages cc = [] -> migratepages cc = [] ->
         __compact_pgdat fuel pgdat cc zi k = Some (r, cc', zi', k') ->
         freepages cc' = [] /\ migratepages cc' = []).
Proof.
  split; [|split; [|split]].
  - intros fuel z cc k ret cc' k' Hfl Hnf Hml Hnm H. split.
    + eapply compact_zone_inv in H; try eassumption. tauto.
    + eapply compact_zone_exit; eassumption.
  - intros fuel z cc k cc' k'. apply compact_zone_body_next_lists.
  - intros z cc k cc0 k0 Hml Hnm Hnf Hr.
    eapply zone_run_reaches_lists; eassumption.
  - intros fuel pgdat cc zi k r cc' zi' k' Hfl Hml H.
    unfold __compact_pgdat in H.
    destruct (__compact_pgdat_zones fuel (node_zones pgdat) cc zi k)
      as [[[cc1 zi1] k1]|] eqn:Hz; [|discriminate].
    injection H as _ <- _ _.
    eapply __compact_pgdat_zones_lists in Hz; try eassumption. tauto.
Qed.

(** ** Greedy mode *)

Lemma compact_zone_body_static fuel z cc k it :
  compact_zone_body fuel z cc k = Some it ->
  match it with
  | Iter_out ret cc' _ => ret = COMPACT_PARTIAL /\ same_static cc cc'
  | Iter_next cc' _ => same_static cc cc'
  end.
Proof.
  unfold compact_zone_body. intros H.
  destruct (isolate_migratepages fuel z cc k) as [[[t cc1] k1]|] eqn:Hi;
    [|discriminate].
  apply isolate_migratepages_inv in Hi. destruct Hi as (A & _).
  destruct t.
  - injection H as <-. split; [reflexivity|exact A].
  - injection H as <-. exact A.
  - destruct (migrate_pages compaction_alloc false
                (if sync cc1 then MIGRATE_SYNC_LIGHT else MIGRATE_ASYNC)
                cc1 k1) as [[err cc2] k2] eqn:Hm.
    apply (migrate_pages_inv _ compaction_alloc_frame) in Hm.
    destruct Hm as (A2 & _).
    assert (Hup : same_static cc (update_nr_listpages cc2)).
    { unfold same_static in *. cbn. intuition congruence. }
    cbv zeta in H.
    destruct (err =? 0).
    + destruct (compact_capture_page (update_nr_listpages cc2) _)
        as [cc3 k3] eqn:Hc.
      apply compact_capture_page_frame in Hc. destruct Hc as (A3 & _).
      injection H as <-. eapply same_static_trans; eassumption.
    + destruct (err =? - ENOMEM).
      * injection H as <-. split; [reflexivity|exact Hup].
      * destruct (compact_capture_page _ _) as [cc3 k3] eqn:Hc.
        apply compact_capture_page_frame in Hc. destruct Hc as (A3 & _).
        injection H as <-. eapply same_static_trans; [exact Hup|exact A3].
Qed.

(** How the main loop is left: through [out] with PARTIAL from inside the
    body, or by the verdict of the termination predicate at a loop head. *)
Lemma compact_zone_loop_exit z :
  forall fuel cc k ret cc' k',
    compact_zone_loop fuel z cc k = Some (ret, cc', k') ->
    same_static cc cc'
    /\ (ret = COMPACT_PARTIAL
        \/ exists cc1 k1,
            zone_run_reaches z cc k cc1 k1
            /\ same_static cc cc1
            /\ ret = compact_finished z cc1 k1
            /\ ret <> COMPACT_CONTINUE
            /\ free_pfn cc' = free_pfn cc1
            /\ migrate_pfn cc' = migrate_pfn cc1).
Proof.
  assert (Hout : forall ret cc k ret' cc' k',
             compact_zone_out ret cc k = (ret', cc', k') ->
             ret' = ret /\ same_static cc cc'
             /\ free_pfn cc' = free_pfn cc /\ migrate_pfn cc' = migrate_pfn cc).
  { intros ret cc k ret' cc' k'. unfold compact_zone_out.
    rewrite release_freepages_spec. intros H. injection H as <- <- <-.
    repeat split. }
  induction fuel as [|fuel IH]; intros cc k ret cc' k' H;
    cbn [compact_zone_loop] in H;
    destruct (compact_finished z cc k =? COMPACT_CONTINUE) eqn:Hf;
    try discriminate.
  1,3: injection H as H; apply Hout in H; destruct H as (-> & A & F & M);
    (split; [exact A|]); right; exists cc, k;
    (split; [constructor|]); (split; [apply same_static_refl|]);
    (split; [reflexivity|]); (split; [apply Z.eqb_neq, Hf|]);
    split; assumption.
  apply Z.eqb_eq in Hf.
  destruct (compact_zone_body fuel z cc k) as [[ret1 cc1 k1|cc1 k1]|] eqn:Hb;
    [| |discriminate].
  - pose proof (compact_zone_body_static _ _ _ _ _ Hb) as (-> & A).
    injection H as H. apply Hout in H. destruct H as (-> & A' & _).
    split; [eapply same_static_trans; eassumption|]. left. reflexivity.
  - pose proof (compact_zone_body_static _ _ _ _ _ Hb) as A.
    cbn beta iota in A.
    apply IH in H. destruct H as (A' & Hret).
    split; [eapply same_static_trans; eassumption|].
    destruct Hret as [Hp|(cc2 & k2 & Hreach & S2 & R)]; [left; exact Hp|].
    right. exists cc2, k2.
    split; [eapply reaches_step; eassumption|].
    split; [eapply same_static_trans; eassumption|exact R].
Qed.

Lemma compact_finished_greedy z cc k :
  order cc = -1 ->
  fatal_signal_pending k = false ->
  compact_finished z cc k
  = if free_pfn cc <=? migrate_pfn cc then COMPACT_COMPLETE
    else COMPACT_CONTINUE.
Proof.
  intros Ho Hs. unfold compact_finished. rewrite Hs, Ho.
  destruct (free_pfn cc <=? migrate_pfn cc); reflexivity.
Qed.

Lemma compact_zone_greedy fuel z cc k ret cc' k' :
  order cc = -1 ->
  compact_zone fuel z cc k = Some (ret, cc', k') ->
  order cc' = -1
  /\ (ret = COMPACT_COMPLETE /\ free_pfn cc' <= migrate_pfn cc'
      \/ ret = COMPACT_PARTIAL).
Proof.
  intros Ho H. unfold compact_zone in H. rewrite Ho in H.
  cbn [compaction_suitable Z.eqb orb] in H.
  change (COMPACT_CONTINUE =? COMPACT_PARTIAL) with false in H.
  change (COMPACT_CONTINUE =? COMPACT_SKIPPED) with false in H.
  cbn [orb] in H.
  apply compact_zone_loop_exit in H.
  destruct H as ((Ho' & _) & Hret).
  split; [rewrite Ho'; exact Ho|].
  destruct Hret as [Hp|(cc1 & k1 & _ & (Ho1 & _) & R1 & R2 & F & M)];
    [right; exact Hp|].
  cbn in Ho1. rewrite Ho in Ho1.
  unfold compact_finished in R1.
  destruct (fatal_signal_pending k1); [right; exact R1|].
  destruct (free_pfn cc1 <=? migrate_pfn cc1) eqn:Hle.
  - left. split; [exact R1|]. apply Z.leb_le in Hle. lia.
  - rewrite Ho1 in R1. cbn in R1. contradiction.
Qed.

Lemma __compact_pgdat_zones_greedy_step fuel z rest cc zi k :
  order cc = -1 ->
  __compact_pgdat_zones fuel (z :: rest) cc zi k
  = if populated_zone z k then
      match compact_zone fuel z (reset_for_zone cc z) k with
      | None => None
      | Some (_, cc', k') => __compact_pgdat_zones fuel rest cc' zi k'
      end
    else __compact_pgdat_zones fuel rest cc zi k.
Proof.
  intros Ho. cbn [__compact_pgdat_zones].
  destruct (populated_zone z k); cbn [negb]; [|reflexivity].
  fold (reset_for_zone cc z).
  change (order (reset_for_zone cc z)) with (order cc). rewrite Ho.
  cbn [Z.eqb Pos.eqb].
  destruct (compact_zone fuel z (reset_for_zone cc z) k)
    as [[[ret cc1] k1]|] eqn:Hz; [|reflexivity].
  apply compact_zone_greedy in Hz; [|exact Ho].
  destruct Hz as (-> & _). reflexivity.
Qed.

Lemma __compact_pgdat_zones_greedy fuel :
  forall zones cc zi k cc' zi' k',
    order cc = -1 ->
    __compact_pgdat_zones fuel zones cc zi k = Some (cc', zi', k') ->
    zi' = zi.
Proof.
  induction zones as [|z rest IH]; intros cc zi k cc' zi' k' Ho H.
  - cbn in H. injection H as _ <- _. reflexivity.
  - rewrite __compact_pgdat_zones_greedy_step in H by exact Ho.
    destruct (populated_zone z k); [|eapply IH; eassumption].
    destruct (compact_zone fuel z (reset_for_zone cc z) k)
      as [[[ret cc1] k1]|] eqn:Hz; [|discriminate].
    apply compact_zone_greedy in Hz; [|exact Ho].
    eapply IH; [|exact H]. tauto.
Qed.

Lemma zone_run_reaches_static z cc k cc0 k0 :
  zone_run_reaches z cc k cc0 k0 -> same_static cc cc0.
Proof.
  induction 1 as [cc k|fuel cc k cc1 k1 cc2 k2 Hf Hb Hr IH].
  - apply same_static_refl.
  - apply compact_zone_body_static in Hb. cbn beta iota in Hb.
    eapply same_static_trans; eassumption.
Qed.

(** What ends a greedy zone run. *)
Lemma compact_zone_greedy_causes fuel z cc k ret cc' k' :
  order cc = -1 ->
  compact_zone fuel z cc k = Some (ret, cc', k') ->
  exists cc0 k0,
    zone_run_reaches z (compact_zone_init z cc) (migrate_prep_local k) cc0 k0
    /\ ((ret = COMPACT_COMPLETE
         /\ fatal_signal_pending k0 = false
         /\ free_pfn cc0 <= migrate_pfn cc0
         /\ free_pfn cc' = free_pfn cc0 /\ migrate_pfn cc' = migrate_pfn cc0)
        \/ (ret = COMPACT_PARTIAL /\ fatal_signal_pending k0 = true)
        \/ (ret = COMPACT_PARTIAL
            /\ fatal_signal_pending k0 = false
            /\ migrate_pfn cc0 < free_pfn cc0
            /\ exists fuel' cc1 k1,
                isolate_migratepages fuel' z cc0 k0
                = Some (ISOLATE_ABORT, cc1, k1))
        \/ (ret = COMPACT_PARTIAL
            /\ fatal_signal_pending k0 = false
            /\ migrate_pfn cc0 < free_pfn cc0
            /\ exists fuel' cc1 k1 cc2 k2,
                isolate_migratepages fuel' z cc0 k0
                = Some (ISOLATE_SUCCESS, cc1, k1)
                /\ migrate_pages compaction_alloc false
                     (if sync cc1 then MIGRATE_SYNC_LIGHT else MIGRATE_ASYNC)
                     cc1 k1
                   = (- ENOMEM, cc2, k2))).
Proof.
  intros Ho H. unfold compact_zone in H. rewrite Ho in H.
  cbn [compaction_suitable Z.eqb orb] in H.
  change (COMPACT_CONTINUE =? COMPACT_PARTIAL) with false in H.
  change (COMPACT_CONTINUE =? COMPACT_SKIPPED) with false in H.
  cbn [orb] in H.
  apply compact_zone_loop_out in H.
  destruct H as (cc0 & k0 & cc1 & k1 & Hreach & Hleave & Hout).
  exists cc0, k0. split; [exact Hreach|].
  assert (Ho0 : order cc0 = -1).
  { apply zone_run_reaches_static in Hreach.
    destruct Hreach as (Ho0 & _). rewrite Ho0. exact Ho. }
  assert (Hcont : compact_finished z cc0 k0 = COMPACT_CONTINUE ->
                  fatal_signal_pending k0 = false
                  /\ migrate_pfn cc0 < free_pfn cc0).
  { unfold compact_finished.
    destruct (fatal_signal_pending k0); [discriminate|].
    destruct (free_pfn cc0 <=? migrate_pfn cc0) eqn:Hle; [discriminate|].
    apply Z.leb_gt in Hle. intros _. split; [reflexivity|exact Hle]. }
  unfold compact_zone_out in Hout. rewrite release_freepages_spec in Hout.
  injection Hout as <- _.
  destruct Hleave as [Hf|fuel' cca ka Hf Hi|fuel' cca ka ccb kb Hf Hi Hm].
  - unfold compact_finished in Hf |- *.
    destruct (fatal_signal_pending k0); [right; left; split; reflexivity|].
    destruct (free_pfn cc0 <=? migrate_pfn cc0) eqn:Hle.
    + left. apply Z.leb_le in Hle. repeat split. exact Hle.
    + rewrite Ho0 in Hf. cbn in Hf. contradiction.
  - destruct (Hcont Hf) as (Hs & Hlt).
    right. right. left. split; [reflexivity|]. split; [exact Hs|].
    split; [exact Hlt|]. exists fuel', cca, ka. exact Hi.
  - destruct (Hcont Hf) as (Hs & Hlt).
    right. right. right. split; [reflexivity|]. split; [exact Hs|].
    split; [exact Hlt|]. exists fuel', cca, ka, ccb, kb.
    split; [exact Hi|exact Hm].
Qed.

(** C5 (amended): greedy mode ([order = -1]).  [compaction_suitable]
    returns CONTINUE whatever the watermarks and the fragmentation index;
    absent a fatal signal [compact_finished] returns COMPLETE when
    [free_pfn <= migrate_pfn] and CONTINUE otherwise, whatever the
    watermarks and the free areas.  A greedy zone run that returns has
    left its main loop at a loop head of the run in one of four ways:
    with COMPLETE, no signal pending and the cursors met; with PARTIAL
    because a fatal signal was pending at the loop head; with PARTIAL
    because [isolate_migratepages] returned ISOLATE_ABORT; or with
    PARTIAL because [migrate_pages] returned -ENOMEM.  [__compact_pgdat]
    runs the zone driver on every populated zone, consulting neither the
    deferral state nor the watermarks, and [compact_node] returns every
    zone's deferral state, [compact_order_failed] included, as it found
    it. *)
Theorem greedy_mode_runs_until_cursors_meet :
  (forall z k, compaction_suitable z (-1) k = COMPACT_CONTINUE)
  /\ (forall z cc k,
         order cc = -1 ->
         fatal_signal_pending k = false ->
         compact_finished z cc k
         = if free_pfn cc <=? migrate_pfn cc then COMPACT_COMPLETE
           else COMPACT_CONTINUE)
  /\ (forall fuel z cc k ret cc' k',
         order cc = -1 ->
         compact_zone fuel z cc k = Some (ret, cc', k') ->
         exists cc0 k0,
           zone_run_reaches z (compact_zone_init z cc) (migrate_prep_local k)
             cc0 k0
           /\ ((ret = COMPACT_COMPLETE
                /\ fatal_signal_pending k0 = false
                /\ free_pfn cc0 <= migrate_pfn cc0
                /\ free_pfn cc' = free_pfn cc0
                /\ migrate_pfn cc' = migrate_pfn cc0)
               \/ (ret = COMPACT_PARTIAL /\ fatal_signal_pending k0 = true)
               \/ (ret = COMPACT_PARTIAL
                   /\ fatal_signal_pending k0 = false
                   /\ migrate_pfn cc0 < free_pfn cc0
                   /\ exists fuel' cc1 k1,
                       isolate_migratepages fuel' z cc0 k0
                       = Some (ISOLATE_ABORT, cc1, k1))
               \/ (ret = COMPACT_PARTIAL
                   /\ fatal_signal_pending k0 = false
                   /\ migrate_pfn cc0 < free_pfn cc0
                   /\ exists fuel' cc1 k1 cc2 k2,
                       isolate_migratepages fuel' z cc0 k0
                       = Some (ISOLATE_SUCCESS, cc1, k1)
                       /\ migrate_pages compaction_alloc false
                            (if sync cc1 then MIGRATE_SYNC_LIGHT
                             else MIGRATE_ASYNC) cc1 k1
                          = (- ENOMEM, cc2, k2))))
  /\ (forall fuel z rest cc zi k,
         order cc = -1 ->
         __compact_pgdat_zones fuel (z :: rest) cc zi k
         = if populated_zone z k then
             match compact_zone fuel z (reset_for_zone cc z) k with
             | None => None
             | Some (_, cc', k') => __compact_pgdat_zones fuel rest cc' zi k'
             end
           else __compact_pgdat_zones fuel rest cc zi k)
  /\ (forall fuel nid sync0 zi k r cc' zi' k',
         compact_node fuel nid sync0 zi k = Some (r, cc', zi', k') ->
         zi' = zi
         /\ forall z, compact_order_failed (zi' z) = compact_order_failed (zi z)).
Proof.
  split; [reflexivity|].
  split; [exact compact_finished_greedy|].
  split; [exact compact_zone_greedy_causes|].
  split; [intros; apply __compact_pgdat_zones_greedy_step; assumption|].
  intros fuel nid sync0 zi k r cc' zi' k' H.
  unfold compact_node, __compact_pgdat in H.
  destruct (__compact_pgdat_zones fuel (node_zones nid) _ zi k)
    as [[[cc1 zi1] k1]|] eqn:Hz; [|discriminate].
  injection H as _ _ <- _.
  apply __compact_pgdat_zones_greedy in Hz; [|reflexivity].
  subst zi1. split; reflexivity.
Qed.

End Properties.

(** * The functions at work on the small kernel *)

Section Examples.

Import Toy.

(** C1: the free-area scan of [compact_finished] misses a free page of
    the caller's migrate type at an order above [cc->order].  Zone 0 has
    one free MOVABLE block, of order 3; an order-2 MOVABLE request without
    a capture slot passes the watermark check, the free list at order 3 is
    not empty, and [compact_finished] returns CONTINUE: every iteration of
    its loop has read [free_area[2]]. *)
Theorem compact_finished_misses_higher_order :
  order cc_order2 = 2
  /\ page cc_order2 = None
  /\ zone_watermark_ok (Kernel := machine) 0 2
       (low_wmark_pages (Kernel := machine) 0 k_free_order3 + Z.shiftl 1 2)
       0 0 k_free_order3 = true
  /\ free_list (Kernel := machine) 0 3 (migratetype cc_order2) k_free_order3
     = [2048]
  /\ 2 <= 3 < MAX_ORDER (Kernel := machine)
  /\ free_list (Kernel := machine) 0 2 (migratetype cc_order2) k_free_order3
     = []
  /\ nr_free (Kernel := machine) 0 2 k_free_order3 = 0
  /\ compact_finished (kern := machine) 0 cc_order2 k_free_order3
     = COMPACT_CONTINUE.
Proof.
  repeat split; vm_compute; congruence.
Qed.

(** C2, counterexample.  Greedy run over zone 0 in state
    [k_two_batches].  Iteration 1 scans [0, 1024) and finds nothing;
    iteration 2 isolates the 32 LRU pages from PFN 1024 (the batch is
    full at 1055, so the migrate cursor stops at 1056) and the free sweep
    takes the block at 3072, which becomes the free cursor; iteration 3
    scans on from 1056 and fills a batch with the pages from 2048, the
    cursor stopping at 2080; in iteration 4 the end of the next
    pageblock, [ALIGN(2080 + 1024, 1024) = 4096], is beyond the free
    cursor and [isolate_migratepages] sets the migrate cursor to 4096
    while the free cursor is 3072. *)
Lemma cursor_order_counterexample :
  exists cc k,
    zone_run_reaches (kern := machine) 0
      (compact_zone_init (kern := machine) 0 cc_greedy) k_two_batches cc k
    /\ migrate_pfn cc = 4096 /\ free_pfn cc = 3072.
Proof.
  destruct (compact_zone_iterate (kern := machine) 4 5 0
              (compact_zone_init (kern := machine) 0 cc_greedy) k_two_batches)
    as [[cc k]|] eqn:E.
  - exists cc, k.
    split; [exact (compact_zone_iterate_reaches _ _ _ _ _ _ _ E)|].
    vm_compute in E. injection E as <- <-. split; reflexivity.
  - vm_compute in E. discriminate.
Qed.

Lemma compact_zone_cursor_order_witness :
  (migrate_pfn cc_async < free_pfn cc_async)
  /\ (isolate_migratepages (kern := machine) 0 0 cc_mid_block k_contended
      = Some (ISOLATE_NONE, set_migrate_pfn cc_mid_block 4096, k_contended)
      /\ free_pfn (set_migrate_pfn cc_mid_block 4096)
         < migrate_pfn (set_migrate_pfn cc_mid_block 4096))
  /\ compact_finished (kern := machine) 0 (set_migrate_pfn cc_mid_block 4096)
       k_contended = COMPACT_COMPLETE.
Proof.
  pose proof (compact_zone_cursor_order (kern := machine)) as (H1 & H2 & H3).
  split; [|split].
  - apply (H1 0 cc_async k_busy cc_async k_busy).
    + apply reaches_here.
    + vm_compute. reflexivity.
  - apply (H2 0%nat 0 cc_mid_block k_contended). vm_compute. reflexivity.
  - apply (H3 0 (set_migrate_pfn cc_mid_block 4096) k_contended
             (set_migrate_pfn cc_mid_block 4096) k_contended).
    + apply reaches_here.
    + vm_compute. discriminate.
Defined.

(** C3: an abort of the scan by the lock-arbitration check is not
    reported as an abort.  Async order-3 run over zone 0 with the migrate
    cursor at 1024, while [need_resched()] is true.  The lock check of
    the first iteration returns false (release the lock and abort) and
    sets the contention flag; the scan is left at PFN 1024 and
    [isolate_migratepages_range] returns 1024, not 0;
    [isolate_migratepages] reports ISOLATE_SUCCESS.  The sibling abort of
    the backpressure gate is reported as ISOLATE_ABORT, and so is the very
    same lock abort when the migrate cursor stands at PFN 0 (the run then
    ends with PARTIAL).  At 1024 the iteration goes back to the loop head
    with the state it started from, the termination predicate says
    CONTINUE, and the run does not return as long as the contention
    lasts. *)
Theorem lock_abort_reported_as_success :
  sync cc_async = false
  /\ need_resched (Kernel := machine) k_contended = true
  /\ compact_checklock_irqsave (kern := machine) (lru_lock 0) true cc_async
       k_contended
     = (false, set_contended cc_async, k_contended)
  /\ isolate_migratepages_lock_check (kern := machine) 0 1024 true cc_async
       k_contended
     = (false, set_contended cc_async, k_contended)
  /\ isolate_migratepages_range (kern := machine) 0 0 cc_async 1024 2048
       k_contended
     = Some (1024, set_contended cc_async, k_contended)
  /\ isolate_migratepages (kern := machine) 0 0 cc_async k_contended
     = Some (ISOLATE_SUCCESS, set_contended cc_async, k_contended)
  /\ isolate_migratepages (kern := machine) 0 0 cc_async k_busy
     = Some (ISOLATE_ABORT, cc_async, k_busy)
  /\ isolate_migratepages (kern := machine) 0 0 (set_migrate_pfn cc_async 0)
       k_contended
     = Some (ISOLATE_ABORT, set_contended (set_migrate_pfn cc_async 0),
             k_contended)
  /\ compact_zone_loop (kern := machine) 1 0 (set_migrate_pfn cc_async 0)
       k_contended
     = Some (COMPACT_PARTIAL, set_contended (set_migrate_pfn cc_async 0),
             k_contended)
  /\ compact_finished (kern := machine) 0 (set_contended cc_async) k_contended
     = COMPACT_CONTINUE
  /\ (forall fuel,
         compact_zone_body (kern := machine) fuel 0 (set_contended cc_async)
           k_contended
         = Some (Iter_next (kern := machine) (set_contended cc_async)
                  k_contended))
  /\ (forall fuel,
         compact_zone_loop (kern := machine) fuel 0 (set_contended cc_async)
           k_contended = None).
Proof.
  assert (Hfin : compact_finished (kern := machine) 0 (set_contended cc_async)
                   k_contended = COMPACT_CONTINUE)
    by (vm_compute; reflexivity).
  assert (Hbody : forall fuel,
             compact_zone_body (kern := machine) fuel 0
               (set_contended cc_async) k_contended
             = Some (Iter_next (kern := machine) (set_contended cc_async)
                  k_contended))
    by (intros [|fuel]; vm_compute; reflexivity).
  do 9 (split; [vm_compute; reflexivity|]).
  split; [exact Hfin|]. split; [exact Hbody|].
  induction fuel as [|fuel IH].
  - vm_compute. reflexivity.
  - cbn [compact_zone_loop]. rewrite Hfin, Hbody. exact IH.
Qed.

Lemma isolate_migratepages_range_abort_value_witness :
  isolate_migratepages_range (kern := machine) 0 0 cc_async 1024 2048
    k_contended
  = Some (1024, set_contended cc_async, k_contended)
  /\ (too_many_isolated_wait (kern := machine) 0 0 cc_async k_busy
      = Some (true, k_busy) /\ cc_async = cc_async)
  /\ isolate_migratepages (kern := machine) 0 0 cc_async k_contended
     = Some (ISOLATE_SUCCESS, set_contended cc_async, k_contended).
Proof.
  pose proof (isolate_migratepages_range_abort_value (kern := machine))
    as (_ & H1 & H2 & H3).
  split; [|split].
  - apply (H1 0%nat 0 cc_async 1024 2048 k_contended k_contended 1024 0 0
              cc_async k_contended (set_contended cc_async) k_contended).
    + vm_compute. reflexivity.
    + apply scan_first. vm_compute. reflexivity.
    + vm_compute. reflexivity.
  - apply (H2 0%nat 0 cc_async 1024 2048 k_busy cc_async k_busy).
    + vm_compute. reflexivity.
    + vm_compute. reflexivity.
  - apply (H3 0%nat 0 cc_async k_contended 1024 (set_contended cc_async)
              k_contended).
    + vm_compute. discriminate.
    + vm_compute. reflexivity.
    + vm_compute. reflexivity.
Defined.

Lemma compact_zone_lists_empty_on_exit_witness :
  (exists ret cc' k',
      compact_zone (kern := machine) 10 0 cc_greedy k_two_batches
      = Some (ret, cc', k')
      /\ ret = COMPACT_COMPLETE
      /\ freepages cc' = [] /\ nr_freepages cc' = 0
      /\ migratepages cc' = [] /\ nr_migratepages cc' = 0)
  /\ (exists ret cc' k',
         compact_zone (kern := machine) 10 0 cc_greedy k_no_free
         = Some (ret, cc', k')
         /\ ret = COMPACT_PARTIAL
         /\ freepages cc' = [] /\ nr_freepages cc' = 0
         /\ migratepages cc' = [] /\ nr_migratepages cc' = 0)
  /\ (exists cc' k',
         compact_zone_body (kern := machine) 5 0
           (compact_zone_init (kern := machine) 0 cc_greedy) k_two_batches
         = Some (Iter_next cc' k')
         /\ migratepages cc' = [] /\ nr_migratepages cc' = 0)
  /\ (migratepages cc_greedy = [] /\ nr_migratepages cc_greedy = 0
      /\ nr_freepages cc_greedy = Z.of_nat (length (freepages cc_greedy)))
  /\ (exists r cc' zi' k',
         __compact_pgdat (kern := machine) 10 0 cc_greedy zi0 k_two_batches
         = Some (r, cc', zi', k')
         /\ freepages cc' = [] /\ migratepages cc' = []).
Proof.
  pose proof (compact_zone_lists_empty_on_exit (kern := machine))
    as (H1 & H2 & H3 & H4).
  split; [|split; [|split; [|split]]].
  - destruct (compact_zone (kern := machine) 10 0 cc_greedy k_two_batches)
      as [[[ret cc'] k']|] eqn:E.
    + exists ret, cc', k'. split; [reflexivity|]. split.
      * vm_compute in E. injection E as <- _ _. reflexivity.
      * apply (H1 10%nat 0 cc_greedy k_two_batches ret cc' k');
          try reflexivity. exact E.
    + vm_compute in E. discriminate.
  - destruct (compact_zone (kern := machine) 10 0 cc_greedy k_no_free)
      as [[[ret cc'] k']|] eqn:E.
    + exists ret, cc', k'. split; [reflexivity|]. split.
      * vm_compute in E. injection E as <- _ _. reflexivity.
      * apply (H1 10%nat 0 cc_greedy k_no_free ret cc' k');
          try reflexivity. exact E.
    + vm_compute in E. discriminate.
  - destruct (compact_zone_body (kern := machine) 5 0
                (compact_zone_init (kern := machine) 0 cc_greedy)
                k_two_batches) as [[ret cc' k'|cc' k']|] eqn:E.
    + vm_compute in E. discriminate.
    + exists cc', k'. split; [reflexivity|].
      destruct (H2 5%nat 0 (compact_zone_init (kern := machine) 0 cc_greedy)
                  k_two_batches cc' k') as (M1 & M2 & _);
        try reflexivity; [exact E|]. split; assumption.
    + vm_compute in E. discriminate.
  - apply (H3 0 cc_greedy k_two_batches cc_greedy k_two_batches);
      try reflexivity. apply reaches_here.
  - destruct (__compact_pgdat (kern := machine) 10 0 cc_greedy zi0
                k_two_batches) as [[[[r cc'] zi'] k']|] eqn:E.
    + exists r, cc', zi', k'. split; [reflexivity|].
      apply (H4 10%nat 0 cc_greedy zi0 k_two_batches r cc' zi' k');
        try reflexivity. exact E.
    + vm_compute in E. discriminate.
Defined.

(** C5, counterexample.  Greedy synchronous run over zone 0 in state
    [k_no_free]: no fatal signal is pending, 32 pages are on the LRU from
    PFN 1024 and no page is free.  Iteration 1 scans [0, 1024) and finds
    nothing; iteration 2 isolates the 32 pages (migrate cursor at 1056);
    the free sweep finds no free page between the cursors and leaves the
    free cursor at 2080; the engine gets no destination and returns
    -ENOMEM; the 32 pages are put back and the run ends with PARTIAL,
    the cursors still 1024 pages apart.  [compact_node] returns with the
    zone in that state. *)
Lemma greedy_run_stops_short_counterexample :
  exists cc' zi' k',
    compact_node (kern := machine) 10 0 true zi0 k_no_free
    = Some (0, cc', zi', k')
    /\ compact_zone (kern := machine) 10 0 cc_greedy k_no_free
       = Some (COMPACT_PARTIAL, cc', k')
    /\ populated_zone (Kernel := machine) 0 k_no_free = true
    /\ fatal_signal_pending (Kernel := machine) k_no_free = false
    /\ fatal_signal_pending (Kernel := machine) k' = false
    /\ migrate_pfn cc' = 1056 /\ free_pfn cc' = 2080
    /\ lru k' = rev (lru k_no_free).
Proof.
  destruct (compact_node (kern := machine) 10 0 true zi0 k_no_free)
    as [[[[r cc'] zi'] k']|] eqn:E; [|vm_compute in E; discriminate].
  exists cc', zi', k'.
  vm_compute in E. injection E as <- <- <- <-.
  repeat split; vm_compute; reflexivity.
Qed.

Lemma greedy_mode_runs_until_cursors_meet_witness :
  compact_finished (kern := machine) 0 cc_mid_block k_two_batches
  = COMPACT_CONTINUE
  /\ (exists ret cc' k',
         compact_zone (kern := machine) 10 0 cc_greedy k_two_batches
         = Some (ret, cc', k')
         /\ ret = COMPACT_COMPLETE /\ free_pfn cc' <= migrate_pfn cc')
  /\ (exists ret cc' k',
         compact_zone (kern := machine) 10 0 cc_greedy k_no_free
         = Some (ret, cc', k')
         /\ ret = COMPACT_PARTIAL
         /\ exists cc0 k0,
             zone_run_reaches (kern := machine) 0
               (compact_zone_init (kern := machine) 0 cc_greedy)
               (migrate_prep_local (Kernel := machine) k_no_free) cc0 k0)
  /\ (exists r cc' zi' k',
         compact_node (kern := machine) 10 0 true zi0 k_two_batches
         = Some (r, cc', zi', k')
         /\ zi' = zi0).
Proof.
  pose proof (greedy_mode_runs_until_cursors_meet (kern := machine))
    as (_ & H2 & H3 & _ & H5).
  split; [|split; [|split]].
  - apply (H2 0 cc_mid_block k_two_batches); reflexivity.
  - destruct (compact_zone (kern := machine) 10 0 cc_greedy k_two_batches)
      as [[[ret cc'] k']|] eqn:E.
    + exists ret, cc', k'. split; [reflexivity|].
      destruct (H3 10%nat 0 cc_greedy k_two_batches ret cc' k' eq_refl E)
        as (cc0 & k0 & _ & [(Hr & _ & Hle & Hf & Hm)|Hp]).
      * split; [exact Hr|]. rewrite Hf, Hm. exact Hle.
      * exfalso. vm_compute in E. injection E as <- _ _.
        destruct Hp as [(Hr & _)|[(Hr & _)|(Hr & _)]]; discriminate Hr.
    + vm_compute in E. discriminate.
  - destruct (compact_zone (kern := machine) 10 0 cc_greedy k_no_free)
      as [[[ret cc'] k']|] eqn:E.
    + exists ret, cc', k'. split; [reflexivity|].
      destruct (H3 10%nat 0 cc_greedy k_no_free ret cc' k' eq_refl E)
        as (cc0 & k0 & Hreach & _).
      split; [vm_compute in E; injection E as <- _ _; reflexivity|].
      exists cc0, k0. exact Hreach.
    + vm_compute in E. discriminate.
  - destruct (compact_node (kern := machine) 10 0 true zi0 k_two_batches)
      as [[[[r cc'] zi'] k']|] eqn:E.
    + exists r, cc', zi', k'. split; [reflexivity|].
      apply (H5 10%nat 0 true zi0 k_two_batches r cc' zi' k' E).
    + vm_compute in E. discriminate.
Defined.

Lemma isolate_freepages_block_strict_and_lax_witness :
  fst (fst (isolate_freepages_block (kern := machine) 1024 1028 [] true
              k_pair)) = 0
  /\ (exists k2 : @K machine,
         block_visits (kern := machine) false 1028 1024 [] 0 k_gap_pair
           1025 [] 0 k2)
  /\ (In 1026 [1027; 1026] /\ In 1027 [1027; 1026] /\ 0 + 2 <= 2)
  /\ (exists new,
         [1027; 1026] = new ++ [] /\ 2 = Z.of_nat (length new))
  /\ isolate_freepages_block_body (kern := machine) 1024 [] false 0 k_quad
     = Block_next 1028 [1027; 1026; 1025; 1024] 4 (with_buddy k_quad [] : @K machine).
Proof.
  pose proof (isolate_freepages_block_strict_and_lax (kern := machine))
    as (H1 & H2 & H3 & H4 & H5).
  assert (E : isolate_freepages_block (kern := machine) 1024 1028 [] false
                k_gap_pair
              = (2, [1027; 1026], (with_buddy k_gap_pair [] : @K machine)))
    by (vm_compute; reflexivity).
  assert (V0 : block_visits (kern := machine) false 1028 1024 [] 0 k_gap_pair
                 1024 [] 0 k_gap_pair)
    by (apply visit_first; vm_compute; reflexivity).
  assert (V2 : block_visits (kern := machine) false 1028 1024 [] 0 k_gap_pair
                 1026 [] 0 k_gap_pair).
  { eapply visit_later; [vm_compute; reflexivity|vm_compute; reflexivity|].
    eapply visit_later; [vm_compute; reflexivity|vm_compute; reflexivity|].
    apply visit_first. vm_compute. reflexivity. }
  split; [|split; [|split; [|split]]].
  - apply (H1 1024 1028 [] k_pair 1026 [1025; 1024] 2 (with_buddy k_pair [] : @K machine)).
    + eapply visit_later.
      * vm_compute. reflexivity.
      * vm_compute. reflexivity.
      * apply visit_first. vm_compute. reflexivity.
    + right. left. vm_compute. reflexivity.
  - destruct (H2 1024 1028 [] k_gap_pair 2 [1027; 1026]
                (with_buddy k_gap_pair [] : @K machine) 1024 [] 0 k_gap_pair
                E V0) as (k2 & _ & Hnext & _).
    + right. left. vm_compute. reflexivity.
    + exists k2. apply Hnext. vm_compute. reflexivity.
  - destruct (H3 1024 1028 [] k_gap_pair 2 [1027; 1026]
                (with_buddy k_gap_pair [] : @K machine) 1026 [] 0 k_gap_pair
                2%N (with_buddy k_gap_pair [] : @K machine) E V2)
      as (Hin & Hle & _).
    + vm_compute. reflexivity.
    + vm_compute. reflexivity.
    + vm_compute. reflexivity.
    + discriminate.
    + split; [apply Hin; cbn; lia|].
      split; [apply Hin; cbn; lia|].
      exact Hle.
  - apply (H4 1024 1028 [] k_gap_pair 2 [1027; 1026]
              (with_buddy k_gap_pair [] : @K machine) E).
  - apply (H5 false 1024 [] 0 k_quad 4%N (with_buddy k_quad [] : @K machine)).
    + vm_compute. reflexivity.
    + vm_compute. reflexivity.
    + vm_compute. reflexivity.
    + discriminate.
Defined.

Lemma isolate_migratepages_range_backpressure_witness :
  isolate_migratepages_range (kern := machine) 0 0 cc_async 1024 2048 k_busy
  = Some (0, cc_async, k_busy)
  /\ isolate_migratepages_range (kern := machine) 1 0 cc_sync 1024 2048
       k_busy_signal
     = Some (0, cc_sync, congestion_wait (Kernel := machine) k_busy_signal)
  /\ isolate_migratepages_range (kern := machine) 1 0 cc_sync 1024 2048 k_busy
     = isolate_migratepages_range (kern := machine) 0 0 cc_sync 1024 2048
         (congestion_wait (Kernel := machine) k_busy).
Proof.
  pose proof (isolate_migratepages_range_backpressure (kern := machine))
    as (H1 & H2 & H3 & H4).
  assert (Hmany : too_many_isolated (kern := machine) 0 k_busy = true).
  { apply (proj2 (H1 0 k_busy)). vm_compute. reflexivity. }
  split; [|split].
  - apply (H2 0%nat 0 cc_async 1024 2048 k_busy Hmany). reflexivity.
  - apply (H3 0%nat 0 cc_sync 1024 2048 k_busy_signal);
      vm_compute; reflexivity.
  - apply (H4 0%nat 0 cc_sync 1024 2048 k_busy Hmany);
      vm_compute; reflexivity.
Defined.

Lemma try_to_compact_pages_skips_or_folds_witness :
  try_to_compact_pages (kern := machine) 10 0 0 208 0 true None None
    k_two_batches
  = Some (COMPACT_SKIPPED, None, None, k_two_batches)
  /\ try_to_compact_pages (kern := machine) 10 0 3 16 0 true None None
       k_two_batches
     = Some (COMPACT_SKIPPED, None, None, k_two_batches)
  /\ (exists r c' p' k' statuses,
         try_to_compact_pages (kern := machine) 10 0 3 208 0 true None None
           k_free_order3 = Some (r, c', p', k')
         /\ zonelist_run (kern := machine) 10 3 208 true [0]
              (None, None, k_free_order3) statuses (c', p', k')
         /\ r = fold_status statuses COMPACT_SKIPPED).
Proof.
  pose proof (try_to_compact_pages_skips_or_folds (kern := machine))
    as (H1 & H2).
  split; [|split].
  - apply H1. left. reflexivity.
  - apply H1. right. left. reflexivity.
  - destruct (try_to_compact_pages (kern := machine) 10 0 3 208 0 true None
                None k_free_order3) as [[[[r c'] p'] k']|] eqn:E.
    + destruct (H2 10%nat 0 3 208 0 true None None k_free_order3 r c' p' k')
        as (statuses & Hrun & Hr & _); try discriminate; try exact E.
      exists r, c', p', k', statuses. split; [reflexivity|].
      split; [exact Hrun|exact Hr].
    + vm_compute in E. discriminate.
Defined.

Lemma compact_nodes_returns_complete_witness :
  (exists r zi' k',
      compact_nodes (kern := machine) 10 true zi0 k_two_batches
      = Some (r, zi', k')
      /\ r = COMPACT_COMPLETE)
  /\ (exists r zi' k',
         sysctl_compaction_handler (kern := machine) 10 1 zi0 k_two_batches
         = Some (r, zi', k')
         /\ r = COMPACT_COMPLETE).
Proof.
  pose proof (compact_nodes_returns_complete (kern := machine))
    as (_ & H2 & H3).
  split.
  - destruct (compact_nodes (kern := machine) 10 true zi0 k_two_batches)
      as [[[r zi'] k']|] eqn:E.
    + exists r, zi', k'. split; [reflexivity|].
      apply (H2 10%nat true zi0 k_two_batches r zi' k' E).
    + vm_compute in E. discriminate.
  - destruct (sysctl_compaction_handler (kern := machine) 10 1 zi0
                k_two_batches) as [[[r zi'] k']|] eqn:E.
    + exists r, zi', k'. split; [reflexivity|].
      apply (H3 10%nat 1 zi0 k_two_batches r zi' k'); [discriminate|exact E].
    + vm_compute in E. discriminate.
Defined.

(** The two outcomes of [isolate_freepages_range] over [1024, 1028): with
    a free order-2 block there the whole range is isolated and 1028 is
    returned; with only an order-1 block the scan fails at 1026, the two
    pages already isolated go back to the allocator (as order-0 blocks)
    and 0 is returned. *)
Example isolate_freepages_range_both_outcomes :
  isolate_freepages_range (kern := machine) 1024 1028 k_quad
  = (1028, [1027; 1026; 1025; 1024], with_buddy k_quad [])
  /\ isolate_freepages_range (kern := machine) 1024 1028 k_pair
     = (0, [], with_buddy k_pair [(1024, 0); (1025, 0)]).
Proof.
  split; vm_compute; reflexivity.
Qed.

End Examples.

(** * Further properties of the helpers and of the drivers *)

Section MoreProperties.

Context {kern : Kernel}.

(** ** Releasing and accounting *)

(** X1: [release_freepages] hands every page of the list to
    [__free_page], in list order, leaves the list empty and returns the
    number of pages it released, which is the length of the list. *)
Theorem release_freepages_frees_all (freelist : list pfn) (k : K) :
  release_freepages freelist k
  = (Z.of_nat (length freelist), [],
     fold_left (fun k pg => __free_page pg k) freelist k).
Proof.
  apply release_freepages_spec.
Qed.

Lemma count_isolated_spec k : forall l count0 count1,
  count_isolated l k count0 count1
  = (count0
     + Z.of_nat (length (filter (fun pg => negb (page_is_file_cache pg k)) l)),
     count1 + Z.of_nat (length (filter (fun pg => page_is_file_cache pg k) l))).
Proof.
  induction l as [|pg l IH]; intros count0 count1; cbn [count_isolated filter].
  - cbn. rewrite !Z.add_0_r. reflexivity.
  - destruct (page_is_file_cache pg k); cbn [negb length]; rewrite IH;
      f_equal; lia.
Qed.

Lemma filter_partition_length {A : Type} (f : A -> bool) : forall l : list A,
  (length (filter (fun x => negb (f x)) l) + length (filter f l))%nat
  = length l.
Proof.
  induction l as [|x l IH]; [reflexivity|].
  cbn [filter]. destruct (f x); cbn [negb length]; lia.
Qed.

(** X2: [acct_isolated] adds to NR_ISOLATED_ANON the number of pages of
    the migrate list that are not file cache and to NR_ISOLATED_FILE the
    number that are, with the interrupt-unsafe primitives when the lock is
    held and the safe ones otherwise; together the two amounts are the
    length of the migrate list. *)
Theorem acct_isolated_counts (z : zone_id) (locked : bool)
    (cc : compact_control) (k : K) :
  let anon :=
    Z.of_nat (length (filter (fun pg => negb (page_is_file_cache pg k))
                        (migratepages cc))) in
  let file :=
    Z.of_nat (length (filter (fun pg => page_is_file_cache pg k)
                        (migratepages cc))) in
  acct_isolated z locked cc k
  = (if locked then
       __mod_zone_page_state z NR_ISOLATED_FILE file
         (__mod_zone_page_state z NR_ISOLATED_ANON anon k)
     else
       mod_zone_page_state z NR_ISOLATED_FILE file
         (mod_zone_page_state z NR_ISOLATED_ANON anon k))
  /\ anon + file = Z.of_nat (length (migratepages cc)).
Proof.
  cbv zeta. split.
  - unfold acct_isolated. rewrite count_isolated_spec. reflexivity.
  - rewrite <- Nat2Z.inj_add, filter_partition_length. reflexivity.
Qed.

(** ** The lock check *)

(** X3: what [compact_checklock_irqsave] does to the control block.  It
    leaves it alone, except on an async abort, where it sets the caller's
    contention flag (when there is one); and in sync mode without a fatal
    signal pending after the yield it always returns true. *)
Theorem compact_checklock_irqsave_contended :
  (forall l locked cc k b cc' k',
      compact_checklock_irqsave l locked cc k = (b, cc', k') ->
      (b = true \/ sync cc = true -> cc' = cc)
      /\ (b = false -> sync cc = false ->
          cc' = set_contended cc
          /\ contended cc' = match contended cc with
                             | Some _ => Some true
                             | None => None
                             end))
  /\ (forall l (locked : bool) cc (k : K),
         sync cc = true ->
         fatal_signal_pending
           (cond_resched (if locked then spin_unlock_irqrestore l k else k))
         = false ->
         fst (fst (compact_checklock_irqsave l locked cc k)) = true).
Proof.
  split.
  - intros l locked cc k b cc' k'. unfold compact_checklock_irqsave.
    destruct (need_resched k || spin_is_contended l k).
    + destruct locked; destruct (sync cc); cbn [negb];
        try destruct (fatal_signal_pending _);
        intros H; injection H as <- <- <-;
        (split; [intros [?|?]; try discriminate; reflexivity
                |intros ? ?; try discriminate; split; reflexivity]).
    + intros H; injection H as <- <- <-.
      split; [reflexivity|discriminate].
  - intros l locked cc k Hs Hf. unfold compact_checklock_irqsave.
    destruct (need_resched k || spin_is_contended l k); [|reflexivity].
    destruct locked; rewrite Hs; cbn [negb]; rewrite Hf; reflexivity.
Qed.

(** ** Strict isolation of a block *)

Lemma list_add_pages_run : forall n p fl,
  list_add_pages n p fl = rev (pfn_run n p) ++ fl.
Proof.
  induction n as [|n IH]; intros p fl; cbn [list_add_pages pfn_run rev].
  - reflexivity.
  - rewrite IH, <- app_assoc. reflexivity.
Qed.

Lemma pfn_run_app : forall n m a,
  pfn_run (n + m) a = pfn_run n a ++ pfn_run m (a + Z.of_nat n).
Proof.
  induction n as [|n IH]; intros m a; cbn [pfn_run Nat.add app].
  - cbn. rewrite Z.add_0_r. reflexivity.
  - rewrite IH. do 3 f_equal. lia.
Qed.

Lemma isolate_freepages_block_loop_strict_exact end_pfn :
  forall fuel p fl t k r fl' k',
    isolate_freepages_block_loop fuel p end_pfn fl true t k = (r, fl', k') ->
    end_pfn - p <= Z.of_nat fuel ->
    r <> 0 ->
    t <= r /\ end_pfn <= p + (r - t)
    /\ fl' = rev (pfn_run (Z.to_nat (r - t)) p) ++ fl.
Proof.
  induction fuel as [|fuel IH]; intros p fl t k r fl' k' H Hfuel Hr.
  - cbn in H, Hfuel. injection H as <- <- <-.
    rewrite Z.sub_diag. split; [lia|]. split; [lia|reflexivity].
  - cbn [isolate_freepages_block_loop] in H.
    destruct (p <? end_pfn) eqn:Hlt.
    2:{ apply Z.ltb_ge in Hlt. injection H as <- <- <-.
        rewrite Z.sub_diag. split; [lia|]. split; [lia|reflexivity]. }
    destruct (isolate_freepages_block_body p fl true t k)
      as [fl1 k1|p1 fl1 t1 k1] eqn:Hb.
    + injection H as <- _ _. contradiction Hr. reflexivity.
    + apply block_body_next_inv in Hb.
      destruct Hb as [(Hs & _)|(n & Hn & -> & -> & ->)]; [discriminate|].
      apply IH in H; [|lia|exact Hr].
      destruct H as (Hle & Hend & ->).
      split; [lia|]. split; [lia|].
      rewrite list_add_pages_run, app_assoc, <- rev_app_distr.
      replace (Z.to_nat (r - t))
        with (N.to_nat n + Z.to_nat (r - (t + Z.of_N n)))%nat by lia.
      rewrite pfn_run_app, N_nat_Z. reflexivity.
Qed.

(** X4: a strict [isolate_freepages_block] that returns a non-zero count
    [r] has isolated a run without gaps: the pages it put on the list are
    exactly the PFNs [blockpfn, ..., blockpfn + r - 1] (the last one at
    the head of the list), and the run reaches at least to [end_pfn]. *)
Theorem isolate_freepages_block_strict_run blockpfn end_pfn freelist k r fl' k' :
  isolate_freepages_block blockpfn end_pfn freelist true k = (r, fl', k') ->
  r <> 0 ->
  blockpfn < end_pfn
  /\ end_pfn <= blockpfn + r
  /\ fl' = rev (pfn_run (Z.to_nat r) blockpfn) ++ freelist.
Proof.
  intros H Hr. unfold isolate_freepages_block in H.
  assert (Hlt : blockpfn < end_pfn).
  { destruct (Z_lt_dec blockpfn end_pfn) as [Hlt|Hge]; [exact Hlt|].
    replace (Z.to_nat (end_pfn - blockpfn)) with O in H by lia.
    cbn in H. injection H as <- _ _. contradiction Hr. reflexivity. }
  apply isolate_freepages_block_loop_strict_exact in H; [|lia|exact Hr].
  destruct H as (_ & Hend & ->). rewrite Z.sub_0_r in *.
  split; [exact Hlt|]. split; [exact Hend|reflexivity].
Qed.

(** ** The pages the migrate scan isolates *)

(** What one iteration of the scan does to the migrate list: nothing, or
    it puts the page at [low_pfn] (a valid page of the zone) at the head
    and counts it; it breaks exactly when that fills the batch. *)
Lemma isolate_migratepages_body_pages z low lpn mode locked cc k :
  let added cc' :=
    migratepages cc' = low :: migratepages cc
    /\ nr_migratepages cc' = nr_migratepages cc + 1
    /\ pfn_valid_within low = true /\ page_zone low = z in
  let unchanged cc' :=
    migratepages cc' = migratepages cc
    /\ nr_migratepages cc' = nr_migratepages cc in
  match isolate_migratepages_body z low lpn mode locked cc k with
  | Scan_break r _ cc' _ =>
      (r = low /\ unchanged cc')
      \/ (r = low + 1 /\ added cc'
          /\ nr_migratepages cc' = COMPACT_CLUSTER_MAX)
  | Scan_next _ _ _ cc' _ =>
      unchanged cc'
      \/ (added cc' /\ nr_migratepages cc' <> COMPACT_CLUSTER_MAX)
  end.
Proof.
  cbv zeta. unfold isolate_migratepages_body.
  destruct (isolate_migratepages_lock_check z low locked cc k)
    as [[l1 cc1] k1] eqn:Hlc.
  apply isolate_migratepages_lock_check_frame in Hlc.
  destruct Hlc as (_ & _ & (Hm1 & Hm2 & _) & _).
  destruct l1; cbn [negb]; [|left; tauto].
  destruct ((Z.land low (MAX_ORDER_NR_PAGES - 1) =? 0) && negb (pfn_valid low));
    [left; tauto|].
  destruct (pfn_valid_within low) eqn:Hv; cbn [negb]; [|left; tauto].
  destruct (page_zone low =? z) eqn:Hz; cbn [negb]; [|left; tauto].
  apply Z.eqb_eq in Hz.
  destruct (PageBuddy low k1); [left; tauto|].
  destruct (negb (sync cc1)
            && negb (lpn =? Z.shiftr low pageblock_order)
            && negb (migrate_async_suitable
                       (get_pageblock_migratetype low k1)));
    [left; tauto|].
  destruct (negb (PageLRU low k1)); [left; tauto|].
  destruct (PageTransHuge low k1); [left; tauto|].
  destruct (__isolate_lru_page low _ k1) as [rc k2].
  destruct (negb (rc =? 0)); [left; tauto|].
  cbn [nr_migratepages set_migratelist].
  destruct (nr_migratepages cc1 + 1 =? COMPACT_CLUSTER_MAX) eqn:Hfull.
  - apply Z.eqb_eq in Hfull. right. cbn. rewrite Hm1, Hm2 in *. tauto.
  - apply Z.eqb_neq in Hfull. right. cbn. rewrite Hm1, Hm2 in *. tauto.
Qed.

Lemma isolate_migratepages_scan_pages z end_pfn :
  forall fuel low lpn mode locked cc k r l cc' k',
    isolate_migratepages_scan fuel z low end_pfn lpn mode locked cc k
    = (r, l, cc', k') ->
    exists new,
      migratepages cc' = new ++ migratepages cc
      /\ nr_migratepages cc' = nr_migratepages cc + Z.of_nat (length new)
      /\ (forall pg, In pg new ->
            low <= pg < r /\ pfn_valid_within pg = true /\ page_zone pg = z)
      /\ (nr_migratepages cc < COMPACT_CLUSTER_MAX ->
          nr_migratepages cc' <= COMPACT_CLUSTER_MAX).
Proof.
  induction fuel as [|fuel IH]; intros low lpn mode locked cc k r l cc' k' H.
  - cbn in H. injection H as <- <- <- <-. exists [].
    cbn. split; [reflexivity|]. split; [lia|]. split; [intros pg []|lia].
  - cbn [isolate_migratepages_scan] in H.
    destruct (low <? end_pfn).
    2:{ injection H as <- <- <- <-. exists [].
        cbn. split; [reflexivity|]. split; [lia|].
        split; [intros pg []|lia]. }
    pose proof (isolate_migratepages_body_pages z low lpn mode locked cc k)
      as Hp.
    pose proof (isolate_migratepages_body_inv z low lpn mode locked cc k)
      as Hi.
    cbv zeta in Hp.
    destruct (isolate_migratepages_body z low lpn mode locked cc k)
      as [r1 l1 cc1 k1|low1 lpn1 mode1 cc1 k1].
    + injection H as <- <- <- <-.
      destruct Hp as [(-> & E1 & E2)|(-> & (E1 & E2 & Hv & Hz) & Hfull)].
      * exists []. cbn. split; [exact E1|]. split; [lia|].
        split; [intros pg []|lia].
      * exists [low]. cbn. split; [exact E1|]. split; [lia|].
        split; [|lia]. intros pg [<-|[]]. split; [lia|tauto].
    + destruct Hi as (_ & _ & _ & _ & Hlow).
      pose proof H as Hscan.
      apply isolate_migratepages_scan_inv in Hscan.
      destruct Hscan as (_ & _ & _ & _ & Hr).
      assert (Hle : low1 <= r) by (destruct Hr as [(-> & _)|Hr]; lia).
      apply IH in H. destruct H as (new & F1 & F2 & F3 & F4).
      destruct Hp as [(E1 & E2)|((E1 & E2 & Hv & Hz) & Hfull)].
      * exists new. rewrite F1, F2, E1, E2.
        split; [reflexivity|]. split; [reflexivity|].
        split; [|rewrite <- E2, <- F2; exact F4].
        intros pg Hin. destruct (F3 pg Hin) as (Hrange & Hrest).
        split; [lia|exact Hrest].
      * exists (new ++ [low]). rewrite F1, F2, E1, E2, <- app_assoc.
        split; [reflexivity|].
        split; [rewrite length_app; cbn; lia|].
        split.
        -- intros pg Hin. apply in_app_or in Hin.
           destruct Hin as [Hin|[<-|[]]].
           ++ destruct (F3 pg Hin) as (Hrange & Hrest).
              split; [lia|exact Hrest].
           ++ split; [lia|tauto].
        -- intros Hlt. rewrite <- E2, <- F2. apply F4. lia.
Qed.

(** X5: the pages [isolate_migratepages_range] isolates.  The migrate
    list grows at its head by the pages isolated in this call and
    [nr_migratepages] grows by their number; each of these pages is a
    valid page of the zone whose PFN lies between [low_pfn] and the PFN
    returned; and a call entered with fewer than COMPACT_CLUSTER_MAX pages
    on the list leaves at most COMPACT_CLUSTER_MAX on it. *)
Theorem isolate_migratepages_range_pages fuel z cc low_pfn end_pfn k r cc' k' :
  isolate_migratepages_range fuel z cc low_pfn end_pfn k = Some (r, cc', k') ->
  exists new,
    migratepages cc' = new ++ migratepages cc
    /\ nr_migratepages cc' = nr_migratepages cc + Z.of_nat (length new)
    /\ (forall pg, In pg new ->
          low_pfn <= pg < r /\ pfn_valid_within pg = true /\ page_zone pg = z)
    /\ (nr_migratepages cc < COMPACT_CLUSTER_MAX ->
        nr_migratepages cc' <= COMPACT_CLUSTER_MAX).
Proof.
  unfold isolate_migratepages_range.
  destruct (too_many_isolated_wait fuel z cc k) as [[[|] k0]|];
    [| |discriminate].
  - intros H. injection H as <- <- <-. exists [].
    cbn. split; [reflexivity|]. split; [lia|]. split; [intros pg []|lia].
  - destruct (isolate_migratepages_scan (Z.to_nat (end_pfn - low_pfn)) z
                low_pfn end_pfn 0 0 true cc
                (spin_lock_irqsave (lru_lock z) (cond_resched k0)))
      as [[[r1 l] cc1] k1] eqn:Hscan.
    apply isolate_migratepages_scan_pages in Hscan.
    intros H. injection H as <- <- <-. exact Hscan.
Qed.

(** ** The free-page sweep and the allocation callback *)

Lemma isolate_freepages_loop_bounds z low_pfn zone_end_pfn :
  forall fuel pfn0 high_pfn nr_free0 cc k high' nr' cc' k',
    isolate_freepages_loop fuel z pfn0 low_pfn high_pfn zone_end_pfn nr_free0
      cc k = (high', nr', cc', k') ->
    high_pfn <= high' <= Z.max high_pfn pfn0
    /\ exists new,
        freepages cc' = new ++ freepages cc
        /\ nr' = nr_free0 + Z.of_nat (length new).
Proof.
  pose proof pageblock_nr_pages_pos as HP.
  assert (Hstop : forall high nr0 (cc0 : compact_control) pfn0,
             high <= high <= Z.max high pfn0
             /\ exists new,
                 freepages cc0 = new ++ freepages cc0
                 /\ nr0 = nr0 + Z.of_nat (length new)).
  { intros. split; [lia|]. exists []. split; [reflexivity|cbn; lia]. }
  induction fuel as [|fuel IH];
    intros pfn0 high_pfn nr_free0 cc k high' nr' cc' k' H.
  - cbn in H. injection H as <- <- <- <-. apply Hstop.
  - cbn [isolate_freepages_loop] in H.
    destruct ((low_pfn <? pfn0) && (nr_free0 <? nr_migratepages cc)).
    2:{ injection H as <- <- <- <-. apply Hstop. }
    assert (Hskip : isolate_freepages_loop fuel z (pfn0 - pageblock_nr_pages)
                      low_pfn high_pfn zone_end_pfn nr_free0 cc k
                    = (high', nr', cc', k') ->
                    high_pfn <= high' <= Z.max high_pfn pfn0
                    /\ exists new,
                        freepages cc' = new ++ freepages cc
                        /\ nr' = nr_free0 + Z.of_nat (length new)).
    { intros H0. apply IH in H0. destruct H0 as (Hb & Hn).
      split; [lia|exact Hn]. }
    destruct (negb (pfn_valid pfn0)); [apply Hskip, H|].
    destruct (negb (page_zone pfn0 =? z)); [apply Hskip, H|].
    destruct (negb (suitable_migration_target pfn0 k)); [apply Hskip, H|].
    clear Hskip.
    destruct (compact_trylock_irqsave (zone_lock z) cc k)
      as [[locked cc1] k1] eqn:Hl.
    apply compact_checklock_irqsave_frame in Hl.
    destruct Hl as (_ & (Hf1 & _) & _).
    destruct locked; cbn [negb] in H.
    2:{ injection H as <- <- <- <-. split; [lia|].
        exists []. split; [exact Hf1|cbn; lia]. }
    destruct (if suitable_migration_target pfn0 k1
              then isolate_freepages_block pfn0
                     (Z.min (pfn0 + pageblock_nr_pages) zone_end_pfn)
                     (freepages cc1) false k1
              else (0, freepages cc1, k1)) as [[isolated fl] k2] eqn:Hblk.
    assert (Hnew : exists new,
               fl = new ++ freepages cc
               /\ isolated = Z.of_nat (length new)).
    { destruct (suitable_migration_target pfn0 k1).
      - unfold isolate_freepages_block in Hblk.
        apply isolate_freepages_block_loop_lax_total in Hblk.
        destruct Hblk as (new & -> & ->). exists new.
        rewrite Hf1. split; [reflexivity|lia].
      - injection Hblk as <- <- _. exists []. split; [exact Hf1|reflexivity]. }
    destruct Hnew as (new & -> & ->).
    apply IH in H. destruct H as (Hb & new' & E1 & E2).
    cbn [freepages set_freelist] in E1.
    split.
    + destruct (Z.of_nat (length new) =? 0); lia.
    + exists (new' ++ new). rewrite E1, E2, <- app_assoc.
      split; [reflexivity|]. rewrite length_app. lia.
Qed.

Lemma isolate_freepages_cursor_and_count_aux z cc k cc' k' :
  isolate_freepages z cc k = (cc', k') ->
  Z.min (migrate_pfn cc + pageblock_nr_pages) (free_pfn cc) <= free_pfn cc'
  /\ free_pfn cc' <= free_pfn cc
  /\ (migrate_pfn cc < free_pfn cc -> migrate_pfn cc' < free_pfn cc')
  /\ (exists new,
         freepages cc' = new ++ freepages cc
         /\ nr_freepages cc' = nr_freepages cc + Z.of_nat (length new))
  /\ same_migrate cc cc'.
Proof.
  intros H. pose proof H as Hfr. apply isolate_freepages_frame in Hfr.
  destruct Hfr as (_ & Hm). unfold isolate_freepages in H.
  destruct (isolate_freepages_loop _ z (free_pfn cc) _ _ _ _ cc k)
    as [[[high nr] cc1] k1] eqn:Hl.
  apply isolate_freepages_loop_bounds in Hl.
  destruct Hl as (Hb & new & E1 & E2).
  injection H as <- <-. cbn [free_pfn freepages nr_freepages set_free_pfn
                             set_freelist migrate_pfn] in *.
  pose proof pageblock_nr_pages_pos as HP.
  pose proof Hm as (_ & _ & Hmp). cbn in Hmp.
  split; [lia|]. split; [lia|]. split; [lia|].
  split; [exists new; split; assumption|exact Hm].
Qed.

(** X6: the free-page sweep.  [isolate_freepages] never raises the free
    cursor and never lowers it below the smaller of its old value and
    [migrate_pfn + pageblock_nr_pages], so a free cursor above the migrate
    cursor stays above it; the free list grows at its head and
    [nr_freepages] grows by the number of pages added; the migrate list
    and the migrate cursor are left alone. *)
Theorem isolate_freepages_cursor_and_count z cc k cc' k' :
  isolate_freepages z cc k = (cc', k') ->
  Z.min (migrate_pfn cc + pageblock_nr_pages) (free_pfn cc) <= free_pfn cc'
  /\ free_pfn cc' <= free_pfn cc
  /\ (migrate_pfn cc < free_pfn cc -> migrate_pfn cc' < free_pfn cc')
  /\ (exists new,
         freepages cc' = new ++ freepages cc
         /\ nr_freepages cc' = nr_freepages cc + Z.of_nat (length new))
  /\ same_migrate cc cc'.
Proof.
  exact (isolate_freepages_cursor_and_count_aux z cc k cc' k').
Qed.

Lemma ulong_sub_small a b :
  0 <= a - b < 2 ^ BITS_PER_LONG -> ulong_sub a b = a - b.
Proof.
  intros H. unfold ulong_sub. apply Z.mod_small, H.
Qed.

Lemma ulong_sub_wraps : 0 <= BITS_PER_LONG -> ulong_sub 0 1 = 2 ^ BITS_PER_LONG - 1.
Proof.
  intros H. unfold ulong_sub.
  assert (Hpos : 0 < 2 ^ BITS_PER_LONG) by (apply Z.pow_pos_nonneg; lia).
  symmetry. apply (Z.mod_unique_pos _ _ (-1)); lia.
Qed.

Lemma compaction_alloc_pops_aux :
  (forall migratepage cc k freepage rest,
      freepages cc = freepage :: rest ->
      compaction_alloc migratepage cc k
      = (Some freepage,
         set_freelist cc rest (ulong_sub (nr_freepages cc) 1), k))
  /\ (forall n, 0 < n <= 2 ^ BITS_PER_LONG -> ulong_sub n 1 = n - 1)
  /\ (0 <= BITS_PER_LONG -> ulong_sub 0 1 = 2 ^ BITS_PER_LONG - 1)
  /\ (forall migratepage cc k r cc' k',
         compaction_alloc migratepage cc k = (r, cc', k') ->
         match r with
         | None => freepages cc = [] /\ freepages cc' = []
         | Some freepage =>
             exists new, new ++ freepages cc = freepage :: freepages cc'
         end
         /\ free_pfn cc' <= free_pfn cc
         /\ same_migrate cc cc'
         /\ (nr_freepages cc = Z.of_nat (length (freepages cc)) ->
             nr_freepages cc'
             = Z.of_nat (length (freepages cc')) mod 2 ^ BITS_PER_LONG)).
Proof.
  split; [|split; [|split]].
  - intros migratepage cc k freepage rest Hfl. unfold compaction_alloc.
    rewrite Hfl. cbn [list_empty]. rewrite Hfl. reflexivity.
  - intros n Hn. apply ulong_sub_small. lia.
  - exact ulong_sub_wraps.
  - intros migratepage cc k r cc' k' H.
    pose proof H as Hfr. apply compaction_alloc_frame in Hfr.
    destruct Hfr as (_ & Hm).
    unfold compaction_alloc in H.
    destruct (freepages cc) as [|fp0 rest0] eqn:Hfl; cbn [list_empty] in H.
    + destruct (zone cc) as [z|].
      * destruct (isolate_freepages z cc k) as [cc1 k1] eqn:Hi.
        apply isolate_freepages_cursor_and_count_aux in Hi.
        destruct Hi as (_ & Hle & _ & (new & E1 & E2) & _).
        rewrite Hfl, app_nil_r in E1.
        destruct (freepages cc1) as [|fp rest] eqn:Hfl1;
          injection H as <- <- <-.
        -- split; [split; [reflexivity|exact Hfl1]|].
           split; [exact Hle|]. split; [exact Hm|].
           intros Hnr. rewrite Hfl1, E2, Hnr. subst new.
           cbn [length Z.of_nat]. rewrite Zmod_0_l. reflexivity.
        -- cbn [freepages set_freelist nr_freepages free_pfn].
           split; [exists new; rewrite app_nil_r; symmetry; exact E1|].
           split; [exact Hle|]. split; [exact Hm|].
           intros Hnr. rewrite E2, Hnr. subst new. cbn [length].
           unfold ulong_sub. f_equal. lia.
      * rewrite Hfl in H. injection H as <- <- <-.
        split; [split; [reflexivity|exact Hfl]|].
        split; [lia|]. split; [exact Hm|]. intros Hnr.
        rewrite Hnr, Hfl. cbn [length Z.of_nat]. rewrite Zmod_0_l.
        reflexivity.
    + rewrite Hfl in H. injection H as <- <- <-.
      cbn [freepages set_freelist nr_freepages free_pfn].
      split; [exists []; reflexivity|].
      split; [lia|]. split; [exact Hm|].
      intros Hnr. rewrite Hnr. cbn [length]. unfold ulong_sub. f_equal. lia.
Qed.

(** X7: the allocation callback.  With a non-empty free list
    [compaction_alloc] pops its head and decrements the unsigned counter
    [nr_freepages], touching nothing else: a positive count goes down by
    one, a count of 0 wraps to [2^BITS_PER_LONG - 1].  With an empty list
    it runs the free sweep first and pops the head of what the sweep
    collected, returning NULL only when the list is still empty.  It
    never raises the free cursor, keeps the migrate list and cursor, and
    a count that was the length of the free list on entry is that length
    (as an unsigned long) on return. *)
Theorem compaction_alloc_pops :
  (forall migratepage cc k freepage rest,
      freepages cc = freepage :: rest ->
      compaction_alloc migratepage cc k
      = (Some freepage,
         set_freelist cc rest (ulong_sub (nr_freepages cc) 1), k))
  /\ (forall n, 0 < n <= 2 ^ BITS_PER_LONG -> ulong_sub n 1 = n - 1)
  /\ (0 <= BITS_PER_LONG -> ulong_sub 0 1 = 2 ^ BITS_PER_LONG - 1)
  /\ (forall migratepage cc k r cc' k',
         compaction_alloc migratepage cc k = (r, cc', k') ->
         match r with
         | None => freepages cc = [] /\ freepages cc' = []
         | Some freepage =>
             exists new, new ++ freepages cc = freepage :: freepages cc'
         end
         /\ free_pfn cc' <= free_pfn cc
         /\ same_migrate cc cc'
         /\ (nr_freepages cc = Z.of_nat (length (freepages cc)) ->
             nr_freepages cc'
             = Z.of_nat (length (freepages cc')) mod 2 ^ BITS_PER_LONG)).
Proof.
  exact (compaction_alloc_pops_aux).
Qed.

(** ** The cursors along a zone run *)

Lemma ALIGN_pageblock_multiple (x : Z) :
  ALIGN x pageblock_nr_pages mod pageblock_nr_pages = 0.
Proof.
  rewrite ALIGN_pageblock. apply Z_mod_mult.
Qed.

Lemma isolate_migratepages_cursor_aux fuel z cc k t cc' k' :
  isolate_migratepages fuel z cc k = Some (t, cc', k') ->
  free_pfn cc' = free_pfn cc
  /\ match t with
     | ISOLATE_ABORT => migrate_pfn cc' = migrate_pfn cc
     | ISOLATE_NONE =>
         migrate_pfn cc < migrate_pfn cc'
         /\ migrate_pfn cc' mod pageblock_nr_pages = 0
         /\ cc' = set_migrate_pfn cc (migrate_pfn cc') /\ k' = k
     | ISOLATE_SUCCESS =>
         migrate_pfn cc <= migrate_pfn cc' /\ migrate_pfn cc' <> 0
     end.
Proof.
  unfold isolate_migratepages.
  set (low := Z.max (migrate_pfn cc) (Z.of_N (zone_start_pfn z))).
  set (end_pfn := ALIGN (low + pageblock_nr_pages) pageblock_nr_pages).
  pose proof pageblock_nr_pages_pos as HP.
  pose proof (ALIGN_pageblock_ge (low + pageblock_nr_pages)) as HA.
  fold end_pfn in HA.
  destruct ((free_pfn cc <? end_pfn) || negb (pfn_valid low)).
  - intros H. injection H as <- <- <-. cbn.
    split; [reflexivity|]. split; [unfold low in *; lia|].
    split; [apply ALIGN_pageblock_multiple|]. split; reflexivity.
  - destruct (isolate_migratepages_range fuel z cc low end_pfn k)
      as [[[r cc1] k1]|] eqn:Hr; [|discriminate].
    apply isolate_migratepages_range_inv in Hr.
    destruct Hr as (_ & (_ & _ & Hf) & _ & Hm & Hcase).
    destruct (r =? 0) eqn:Hz; intros H; injection H as <- <- <-.
    + split; [exact Hf|exact Hm].
    + apply Z.eqb_neq in Hz. cbn. split; [exact Hf|].
      split; [|exact Hz].
      destruct Hcase as [([?|?] & _)|?]; unfold low in *; lia.
Qed.

(** X8: what [isolate_migratepages] does to the cursors.  It never touches
    the free cursor and never moves the migrate cursor backwards: on
    ISOLATE_ABORT the migrate cursor stays, on ISOLATE_NONE it moves
    strictly forward to a pageblock boundary (and neither the lists nor
    the kernel state change), on ISOLATE_SUCCESS it moves to the non-zero
    PFN the range isolator returned, at or after its old value. *)
Theorem isolate_migratepages_cursor fuel z cc k t cc' k' :
  isolate_migratepages fuel z cc k = Some (t, cc', k') ->
  free_pfn cc' = free_pfn cc
  /\ match t with
     | ISOLATE_ABORT => migrate_pfn cc' = migrate_pfn cc
     | ISOLATE_NONE =>
         migrate_pfn cc < migrate_pfn cc'
         /\ migrate_pfn cc' mod pageblock_nr_pages = 0
         /\ cc' = set_migrate_pfn cc (migrate_pfn cc') /\ k' = k
     | ISOLATE_SUCCESS =>
         migrate_pfn cc <= migrate_pfn cc' /\ migrate_pfn cc' <> 0
     end.
Proof.
  exact (isolate_migratepages_cursor_aux fuel z cc k t cc' k').
Qed.

Section MigratePagesCursor.

Variable get_new_page : new_page_t.
Hypothesis get_new_page_cursor : forall pg cc k r cc' k',
  get_new_page pg cc k = (r, cc', k') -> free_pfn cc' <= free_pfn cc.

Lemma migrate_pages_pass_free_pfn pass offlining mode :
  forall todo kept retry nr_failed cc k enomem l retry' nr_failed' cc' k',
    migrate_pages_pass todo kept get_new_page pass offlining mode retry
      nr_failed cc k = (enomem, l, retry', nr_failed', cc', k') ->
    free_pfn cc' <= free_pfn cc.
Proof.
  induction todo as [|pg rest IH];
    intros kept retry nr_failed cc k enomem l retry' nr_failed' cc' k' H;
    cbn [migrate_pages_pass] in H.
  - injection H as _ _ _ _ <- _. lia.
  - destruct (get_new_page pg cc (cond_resched k)) as [[newpage cc1] k1]
      eqn:Hcb.
    apply get_new_page_cursor in Hcb.
    destruct newpage as [np|]; [|injection H as _ _ _ _ <- _; exact Hcb].
    destruct (__unmap_and_move pg np (2 <? pass) offlining mode k1)
      as [rc k2].
    destruct (rc =? - EAGAIN); [apply IH in H; lia|].
    destruct (rc =? - ENOMEM); [injection H as _ _ _ _ <- _; exact Hcb|].
    destruct (rc =? 0); apply IH in H; lia.
Qed.

Lemma migrate_pages_passes_free_pfn offlining mode :
  forall n from pass retry nr_failed cc k err l cc' k',
    migrate_pages_passes n from get_new_page pass offlining mode retry
      nr_failed cc k = (err, l, cc', k') ->
    free_pfn cc' <= free_pfn cc.
Proof.
  induction n as [|n IH];
    intros from pass retry nr_failed cc k err l cc' k' H;
    cbn [migrate_pages_passes] in H.
  - injection H as _ _ <- _. lia.
  - destruct (retry =? 0); [injection H as _ _ <- _; lia|].
    destruct (migrate_pages_pass from [] get_new_page pass offlining mode 0
                nr_failed cc k)
      as [[[[[enomem from1] retry1] nf1] cc1] k1] eqn:Hpass.
    apply migrate_pages_pass_free_pfn in Hpass.
    destruct enomem; [injection H as _ _ <- _; exact Hpass|].
    apply IH in H. lia.
Qed.

Lemma migrate_pages_free_pfn offlining mode cc k err cc' k' :
  migrate_pages get_new_page offlining mode cc k = (err, cc', k') ->
  free_pfn cc' <= free_pfn cc.
Proof.
  unfold migrate_pages.
  destruct (migrate_pages_passes 10 (migratepages cc) get_new_page 0
              offlining mode 1 0 cc k) as [[[err1 l] cc1] k1] eqn:Hp.
  apply migrate_pages_passes_free_pfn in Hp.
  intros H. injection H as _ <- _. exact Hp.
Qed.

End MigratePagesCursor.

Lemma compaction_alloc_free_pfn pg cc k r cc' k' :
  compaction_alloc pg cc k = (r, cc', k') -> free_pfn cc' <= free_pfn cc.
Proof.
  intros H. apply compaction_alloc_pops_aux in H. tauto.
Qed.

Lemma compact_zone_body_cursors fuel z cc k it :
  compact_zone_body fuel z cc k = Some it ->
  match it with
  | Iter_out _ cc' _ | Iter_next cc' _ =>
      migrate_pfn cc <= migrate_pfn cc' /\ free_pfn cc' <= free_pfn cc
  end.
Proof.
  unfold compact_zone_body. intros H.
  destruct (isolate_migratepages fuel z cc k) as [[[t cc1] k1]|] eqn:Hi;
    [|discriminate].
  apply isolate_migratepages_cursor_aux in Hi. destruct Hi as (Hf & Hm).
  destruct t.
  - injection H as <-. lia.
  - injection H as <-. lia.
  - destruct (migrate_pages compaction_alloc false
                (if sync cc1 then MIGRATE_SYNC_LIGHT else MIGRATE_ASYNC)
                cc1 k1) as [[err cc2] k2] eqn:Hmp.
    pose proof (migrate_pages_free_pfn _ compaction_alloc_free_pfn _ _ _ _ _
                  _ _ Hmp) as Hf2.
    apply (migrate_pages_inv _ compaction_alloc_frame) in Hmp.
    destruct Hmp as (_ & _ & Hm2 & _).
    cbv zeta in H.
    assert (Hcap : forall cc3 k3 cc4 k4,
               compact_capture_page cc3 k3 = (cc4, k4) ->
               migrate_pfn cc4 = migrate_pfn cc3
               /\ free_pfn cc4 = free_pfn cc3).
    { intros cc3 k3 cc4 k4 Hc. apply compact_capture_page_frame in Hc.
      destruct Hc as (_ & (_ & _ & F) & (_ & _ & M)). split; assumption. }
    destruct (err =? 0).
    + destruct (compact_capture_page (update_nr_listpages cc2) _)
        as [cc3 k3] eqn:Hc.
      apply Hcap in Hc. cbn in Hc. injection H as <-. lia.
    + destruct (err =? - ENOMEM).
      * injection H as <-. cbn. lia.
      * destruct (compact_capture_page _ _) as [cc3 k3] eqn:Hc.
        apply Hcap in Hc. cbn in Hc. injection H as <-. lia.
Qed.

(** X9: the cursors never move towards their starting ends.  Along the
    loop heads of a zone run, and through every iteration of the main
    loop whichever way it ends, the migrate cursor is non-decreasing and
    the free cursor is non-increasing. *)
Theorem compact_zone_cursors_monotone :
  (forall fuel z cc k it,
      compact_zone_body fuel z cc k = Some it ->
      match it with
      | Iter_out _ cc' _ | Iter_next cc' _ =>
          migrate_pfn cc <= migrate_pfn cc' /\ free_pfn cc' <= free_pfn cc
      end)
  /\ (forall z cc k cc' k',
         zone_run_reaches z cc k cc' k' ->
         migrate_pfn cc <= migrate_pfn cc' /\ free_pfn cc' <= free_pfn cc).
Proof.
  split; [exact compact_zone_body_cursors|].
  intros z cc k cc' k' Hr.
  induction Hr as [cc k|fuel cc k cc1 k1 cc2 k2 Hf Hb Hr IH]; [lia|].
  apply compact_zone_body_cursors in Hb. lia.
Qed.

(** ** The statuses the drivers return *)

Lemma compact_finished_range z cc k :
  compact_finished z cc k = COMPACT_CONTINUE
  \/ compact_finished z cc k = COMPACT_PARTIAL
  \/ (compact_finished z cc k = COMPACT_COMPLETE
      /\ free_pfn cc <= migrate_pfn cc).
Proof.
  unfold compact_finished.
  destruct (fatal_signal_pending k); [tauto|].
  destruct (free_pfn cc <=? migrate_pfn cc) eqn:Hle;
    [apply Z.leb_le in Hle; tauto|].
  destruct (order cc =? -1); [tauto|].
  destruct (negb (zone_watermark_ok _ _ _ _ _ _)); [tauto|].
  destruct (page cc) as [[pg|]|]; try tauto.
  rewrite compact_finished_scan_closed_form.
  destruct (Z.to_nat _); [tauto|].
  destruct (_ && _); tauto.
Qed.

Lemma compaction_suitable_range z ord k :
  compaction_suitable z ord k = COMPACT_SKIPPED
  \/ compaction_suitable z ord k = COMPACT_PARTIAL
  \/ compaction_suitable z ord k = COMPACT_CONTINUE.
Proof.
  unfold compaction_suitable.
  destruct (ord =? -1); [tauto|].
  destruct (negb (zone_watermark_ok _ _ _ _ _ _)); [tauto|].
  destruct (_ && _); [tauto|].
  destruct (_ && _); tauto.
Qed.

Lemma compact_zone_status_aux fuel z cc k ret cc' k' :
  compact_zone fuel z cc k = Some (ret, cc', k') ->
  (ret = COMPACT_SKIPPED
   /\ compaction_suitable z (order cc) k = COMPACT_SKIPPED
   /\ cc' = cc /\ k' = k)
  \/ ret = COMPACT_PARTIAL
  \/ (ret = COMPACT_COMPLETE /\ free_pfn cc' <= migrate_pfn cc').
Proof.
  unfold compact_zone. intros H.
  destruct (compaction_suitable_range z (order cc) k) as [Hs|[Hs|Hs]];
    rewrite Hs in H; cbn in H.
  - injection H as <- <- <-. left. tauto.
  - injection H as <- <- <-. right. left. reflexivity.
  - apply compact_zone_loop_exit in H.
    destruct H as (_ & [Hp|(cc1 & k1 & _ & _ & R1 & R2 & F & M)]);
      [right; left; exact Hp|].
    destruct (compact_finished_range z cc1 k1) as [Hc|[Hc|(Hc & Hle)]].
    + congruence.
    + right. left. congruence.
    + right. right. split; [congruence|lia].
Qed.

(** X10: the status of a zone run.  [compact_zone] never returns the
    internal status CONTINUE: it returns SKIPPED, only when
    [compaction_suitable] said so, and then without touching the control
    block or the kernel state; or PARTIAL; or COMPLETE, and then the
    cursors have met. *)
Theorem compact_zone_status fuel z cc k ret cc' k' :
  compact_zone fuel z cc k = Some (ret, cc', k') ->
  (ret = COMPACT_SKIPPED
   /\ compaction_suitable z (order cc) k = COMPACT_SKIPPED
   /\ cc' = cc /\ k' = k)
  \/ ret = COMPACT_PARTIAL
  \/ (ret = COMPACT_COMPLETE /\ free_pfn cc' <= migrate_pfn cc').
Proof.
  exact (compact_zone_status_aux fuel z cc k ret cc' k').
Qed.

Lemma try_to_compact_zones_status fuel ord gfp_mask sync0 :
  forall zones c p rc k r c' p' k',
    try_to_compact_zones fuel zones ord gfp_mask sync0 c p rc k
    = Some (r, c', p', k') ->
    rc = COMPACT_SKIPPED \/ rc = COMPACT_PARTIAL \/ rc = COMPACT_COMPLETE ->
    r = COMPACT_SKIPPED \/ r = COMPACT_PARTIAL \/ r = COMPACT_COMPLETE.
Proof.
  induction zones as [|z rest IH]; intros c p rc k r c' p' k' H Hrc;
    cbn [try_to_compact_zones] in H.
  - injection H as <- _ _ _. exact Hrc.
  - unfold compact_zone_order in H.
    destruct (compact_zone fuel z _ k) as [[[status cc1] k1]|] eqn:Hz;
      [|discriminate].
    apply compact_zone_status_aux in Hz.
    assert (Hmax : Z.max status rc = COMPACT_SKIPPED
                   \/ Z.max status rc = COMPACT_PARTIAL
                   \/ Z.max status rc = COMPACT_COMPLETE).
    { unfold COMPACT_SKIPPED, COMPACT_PARTIAL, COMPACT_COMPLETE in *.
      destruct Hz as [(-> & _)|[->|(-> & _)]];
        destruct Hrc as [->|[->| ->]]; cbn; tauto. }
    destruct (zone_watermark_ok z ord (low_wmark_pages z k1) 0 0 k1).
    + injection H as <- _ _ _. exact Hmax.
    + eapply IH; eassumption.
Qed.

(** X11: the status of [try_to_compact_pages] is SKIPPED, PARTIAL or
    COMPLETE, never the internal CONTINUE, whatever the zonelist. *)
Theorem try_to_compact_pages_status
    fuel zonelist ord gfp_mask nodemask sync0 c p k r c' p' k' :
  try_to_compact_pages fuel zonelist ord gfp_mask nodemask sync0 c p k
  = Some (r, c', p', k') ->
  r = COMPACT_SKIPPED \/ r = COMPACT_PARTIAL \/ r = COMPACT_COMPLETE.
Proof.
  unfold try_to_compact_pages.
  destruct ((ord =? 0) || (Z.land gfp_mask __GFP_FS =? 0)
            || (Z.land gfp_mask __GFP_IO =? 0)).
  - intros H. injection H as <- _ _ _. left. reflexivity.
  - intros H. eapply try_to_compact_zones_status; [exact H|].
    left. reflexivity.
Qed.

(** ** The capture path *)

Lemma compact_capture_orders_source z mtype :
  forall fuel ord cc k b cc' k',
    page cc = Some None ->
    compact_capture_orders fuel z mtype ord cc k = (b, cc', k') ->
    page cc' = Some None
    \/ exists pg ord' k1,
        b = true
        /\ ord <= ord' < MAX_ORDER
        /\ page cc' = Some (Some pg)
        /\ hd_error (free_list z ord' mtype k1) = Some pg
        /\ fst (capture_free_page pg (order cc) mtype k1) = true.
Proof.
  induction fuel as [|fuel IH]; intros ord cc k b cc' k' Hpg H.
  - cbn in H. injection H as _ <- _. left. exact Hpg.
  - cbn [compact_capture_orders] in H.
    destruct (ord <? MAX_ORDER) eqn:Hlt.
    2:{ injection H as _ <- _. left. exact Hpg. }
    apply Z.ltb_lt in Hlt.
    assert (Hgo : forall cc1 k2,
               page cc1 = Some None -> order cc1 = order cc ->
               compact_capture_orders fuel z mtype (ord + 1) cc1 k2
               = (b, cc', k') ->
               page cc' = Some None
               \/ exists pg ord' k1,
                   b = true
                   /\ ord <= ord' < MAX_ORDER
                   /\ page cc' = Some (Some pg)
                   /\ hd_error (free_list z ord' mtype k1) = Some pg
                   /\ fst (capture_free_page pg (order cc) mtype k1) = true).
    { intros cc1 k2 Hp1 Ho1 H1. apply IH in H1; [|exact Hp1].
      destruct H1 as [H1|(pg & ord' & k1 & Hb & Hr & H1)]; [left; exact H1|].
      right. exists pg, ord', k1. rewrite <- Ho1.
      split; [exact Hb|]. split; [lia|exact H1]. }
    destruct (list_empty (free_list z ord mtype k));
      [eapply Hgo; [exact Hpg|reflexivity|exact H]|].
    destruct (compact_trylock_irqsave (zone_lock z) cc k)
      as [[locked cc1] k1] eqn:Hl.
    apply compact_checklock_irqsave_frame in Hl.
    destruct Hl as ((Ho & _) & _ & _ & Hp1). rewrite Hpg in Hp1.
    destruct locked; cbn [negb] in H.
    2:{ injection H as _ <- _. left. exact Hp1. }
    destruct (free_list z ord mtype k1) as [|pg rest] eqn:Hfl;
      [eapply Hgo; [exact Hp1|exact Ho|exact H]|].
    destruct (capture_free_page pg (order cc1) mtype k1) as [ok k2] eqn:Hc.
    destruct ok; [|eapply Hgo; [exact Hp1|exact Ho|exact H]].
    injection H as <- <- _. right. exists pg, ord, k1.
    split; [reflexivity|]. split; [lia|]. split; [cbn; rewrite Hp1; reflexivity|].
    split; [rewrite Hfl; reflexivity|]. rewrite <- Ho, Hc. reflexivity.
Qed.

Lemma compact_capture_mtypes_source z mtype_high :
  forall fuel mtype cc k cc' k',
    page cc = Some None ->
    compact_capture_mtypes fuel z mtype mtype_high cc k = (cc', k') ->
    page cc' = Some None
    \/ exists pg mt ord' k1,
        mtype <= mt < mtype_high
        /\ order cc <= ord' < MAX_ORDER
        /\ page cc' = Some (Some pg)
        /\ hd_error (free_list z ord' mt k1) = Some pg
        /\ fst (capture_free_page pg (order cc) mt k1) = true.
Proof.
  induction fuel as [|fuel IH]; intros mtype cc k cc' k' Hpg H.
  - cbn in H. injection H as <- _. left. exact Hpg.
  - cbn [compact_capture_mtypes] in H.
    destruct (mtype <? mtype_high) eqn:Hlt.
    2:{ injection H as <- _. left. exact Hpg. }
    apply Z.ltb_lt in Hlt.
    destruct (compact_capture_orders (Z.to_nat (MAX_ORDER - order cc)) z mtype
                (order cc) cc k) as [[returned cc1] k1] eqn:Ho.
    pose proof Ho as Hfr. apply compact_capture_orders_frame in Hfr.
    destruct Hfr as ((Hord & _) & _).
    apply compact_capture_orders_source in Ho; [|exact Hpg].
    destruct Ho as [Hp1|(pg & ord' & k2 & -> & Hr & Hp1 & Hrest)].
    + destruct returned; [injection H as <- _; left; exact Hp1|].
      apply IH in H; [|exact Hp1].
      destruct H as [H|(pg & mt & ord' & k2 & Hm & H)]; [left; exact H|].
      right. exists pg, mt, ord', k2. rewrite <- Hord.
      split; [lia|exact H].
    + injection H as <- _. right. exists pg, mtype, ord', k2.
      split; [lia|]. split; [exact Hr|]. split; [exact Hp1|exact Hrest].
Qed.

(** X12: the capture path.  Without a capture slot, or with a slot that is
    already filled, [compact_capture_page] changes nothing.  With an
    empty slot it leaves the lists, the counts and the cursors alone, and
    the slot either stays empty or receives a page that was at the head
    of a free list of an order from [cc->order] up to MAX_ORDER and that
    [capture_free_page] took out at order [cc->order]; the free list is
    one of the types below MIGRATE_PCPTYPES for a MOVABLE request and
    the request's own type otherwise. *)
Theorem compact_capture_page_source :
  (forall cc k, page cc <> Some None -> compact_capture_page cc k = (cc, k))
  /\ (forall cc k cc' k',
         compact_capture_page cc k = (cc', k') ->
         same_static cc cc' /\ same_free cc cc' /\ same_migrate cc cc')
  /\ (forall cc k cc' k' z,
         page cc = Some None ->
         zone cc = Some z ->
         compact_capture_page cc k = (cc', k') ->
         page cc' = Some None
         \/ exists pg mt ord' k1,
             page cc' = Some (Some pg)
             /\ (if migratetype cc =? MIGRATE_MOVABLE
                 then 0 <= mt < MIGRATE_PCPTYPES
                 else mt = migratetype cc)
             /\ order cc <= ord' < MAX_ORDER
             /\ hd_error (free_list z ord' mt k1) = Some pg
             /\ fst (capture_free_page pg (order cc) mt k1) = true).
Proof.
  split; [|split].
  - intros cc k Hpg. unfold compact_capture_page.
    destruct (page cc) as [[pg|]|]; try reflexivity.
    contradiction Hpg. reflexivity.
  - intros cc k cc' k'. apply compact_capture_page_frame.
  - intros cc k cc' k' z Hpg Hz H. unfold compact_capture_page in H.
    rewrite Hpg, Hz in H.
    destruct (migratetype cc =? MIGRATE_MOVABLE);
      apply compact_capture_mtypes_source in H; try exact Hpg;
      (destruct H as [H|(pg & mt & ord' & k1 & Hm & Ho & H)];
       [left; exact H|]);
      right; exists pg, mt, ord', k1;
      (split; [tauto|]); (split; [lia|]); (split; [exact Ho|tauto]).
Qed.

(** ** Async mode never waits *)

Lemma too_many_isolated_wait_async fuel z cc k :
  sync cc = false ->
  too_many_isolated_wait fuel z cc k = Some (too_many_isolated z k, k).
Proof.
  intros Hs. destruct fuel; cbn [too_many_isolated_wait];
    destruct (too_many_isolated z k); rewrite ?Hs; reflexivity.
Qed.

Lemma isolate_migratepages_range_async fuel z cc low end_pfn k :
  sync cc = false ->
  isolate_migratepages_range fuel z cc low end_pfn k
  = isolate_migratepages_range 0 z cc low end_pfn k
  /\ isolate_migratepages_range 0 z cc low end_pfn k <> None.
Proof.
  intros Hs. unfold isolate_migratepages_range.
  rewrite !too_many_isolated_wait_async by exact Hs.
  split; [reflexivity|].
  destruct (too_many_isolated z k); [discriminate|]. cbv zeta.
  destruct (isolate_migratepages_scan _ z low end_pfn 0 0 true cc _)
    as [[[r l] cc1] k1].
  discriminate.
Qed.

Lemma isolate_migratepages_async fuel z cc k :
  sync cc = false ->
  isolate_migratepages fuel z cc k = isolate_migratepages 0 z cc k
  /\ isolate_migratepages 0 z cc k <> None.
Proof.
  intros Hs. unfold isolate_migratepages.
  destruct ((free_pfn cc <? _) || negb (pfn_valid _));
    [split; [reflexivity|discriminate]|].
  match goal with
  | |- context [isolate_migratepages_range fuel z cc ?low ?e k] =>
      destruct (isolate_migratepages_range_async fuel z cc low e k Hs)
        as (-> & Hn);
      destruct (isolate_migratepages_range 0 z cc low e k)
        as [[[r cc1] k1]|]
  end.
  - split; [reflexivity|]. destruct (r =? 0); discriminate.
  - contradiction Hn. reflexivity.
Qed.

(** X13: an async run never waits.  The fuel of the model is spent only
    by the congestion wait of the backpressure loop; with [sync] false
    one iteration of the main loop of [compact_zone] returns, and returns
    the same result for every fuel, zero included. *)
Theorem compact_zone_body_async_never_waits z cc k :
  sync cc = false ->
  exists it, forall fuel, compact_zone_body fuel z cc k = Some it.
Proof.
  intros Hs.
  assert (Heq : forall fuel,
             compact_zone_body fuel z cc k = compact_zone_body 0 z cc k).
  { intros fuel. unfold compact_zone_body.
    destruct (isolate_migratepages_async fuel z cc k Hs) as (-> & _).
    reflexivity. }
  destruct (compact_zone_body 0 z cc k) as [it|] eqn:H0.
  - exists it. intros fuel. rewrite Heq. reflexivity.
  - exfalso. unfold compact_zone_body in H0.
    destruct (isolate_migratepages_async 0%nat z cc k Hs) as (_ & Hn).
    destruct (isolate_migratepages 0 z cc k) as [[[t cc1] k1]|];
      [|contradiction Hn; reflexivity].
    destruct t; try discriminate.
    destruct (migrate_pages _ _ _ _ _) as [[err cc2] k2].
    cbv zeta in H0.
    destruct (err =? 0).
    + destruct (compact_capture_page _ _); discriminate.
    + destruct (err =? - ENOMEM); [discriminate|].
      destruct (compact_capture_page _ _); discriminate.
Qed.

(** ** The per-node pass and the deferral state *)

Lemma compact_zone_static fuel z cc k ret cc' k' :
  compact_zone fuel z cc k = Some (ret, cc', k') -> same_static cc cc'.
Proof.
  unfold compact_zone.
  destruct ((_ =? COMPACT_PARTIAL) || (_ =? COMPACT_SKIPPED)).
  - intros H. injection H as _ <- _. apply same_static_refl.
  - intros H. apply compact_zone_loop_exit in H. destruct H as (A & _).
    eapply same_static_trans; [apply compact_zone_init_static|exact A].
Qed.

Lemma __compact_pgdat_zones_async fuel :
  forall zones cc zi k cc' zi' k',
    sync cc = false ->
    __compact_pgdat_zones fuel zones cc zi k = Some (cc', zi', k') ->
    forall z,
      defer_async_step (zi z) (zi' z)
      /\ (~ In z zones -> zi' z = zi z).
Proof.
  induction zones as [|z0 rest IH]; intros cc zi k cc' zi' k' Hs H z;
    cbn [__compact_pgdat_zones] in H.
  - injection H as _ <- _. split; [split; [reflexivity|lia]|reflexivity].
  - destruct (negb (populated_zone z0 k)).
    { destruct (IH _ _ _ _ _ _ Hs H z) as (A & B).
      split; [exact A|]. intros Hn. apply B. intros Hin. apply Hn.
      right. exact Hin. }
    set (cc0 := set_zone (set_migratelist (set_freelist cc [] 0) [] 0) z0) in *.
    assert (Hs0 : sync cc0 = false) by exact Hs.
    destruct (if order cc0 =? -1 then (true, zi)
              else let '(deferred, d) := compaction_deferred (zi z0) (order cc0) in
                   (negb deferred, set_zone_info zi z0 d)) as [run zi1] eqn:Hd.
    assert (H1 : forall z,
               defer_async_step (zi z) (zi1 z)
               /\ (z <> z0 -> zi1 z = zi z)).
    { intros z1. destruct (order cc0 =? -1).
      - injection Hd as _ <-. split; [split; [reflexivity|lia]|reflexivity].
      - unfold compaction_deferred in Hd.
        destruct (order cc0 <? compact_order_failed (zi z0));
          injection Hd as _ <-; unfold set_zone_info;
          destruct (z1 =? z0) eqn:E;
          try (apply Z.eqb_eq in E; subst z1);
          (split; [split; [reflexivity|cbn; lia]|]);
          try reflexivity; intros Hne; try contradiction; reflexivity. }
    destruct (if run
              then match compact_zone fuel z0 cc0 k with
                   | Some (_, cc1, k1) => Some (cc1, k1)
                   | None => None
                   end
              else Some (cc0, k)) as [[cc1 k1]|] eqn:Hrun; [|discriminate].
    assert (Hs1 : sync cc1 = false).
    { destruct run.
      - destruct (compact_zone fuel z0 cc0 k) as [[[ret cc2] k2]|] eqn:Hz;
          [|discriminate].
        injection Hrun as <- _. apply compact_zone_static in Hz.
        destruct Hz as (_ & Hsy & _). rewrite Hsy. exact Hs0.
      - injection Hrun as <- _. exact Hs0. }
    rewrite Hs1, andb_false_r in H.
    match type of H with
    | __compact_pgdat_zones _ _ _ ?zi2 _ = _ => set (zi2' := zi2) in *
    end.
    assert (H2 : forall z,
               defer_async_step (zi1 z) (zi2' z)
               /\ (z <> z0 -> zi2' z = zi1 z)).
    { intros z1. unfold zi2'.
      destruct (0 <? order cc1);
        [|split; [split; [reflexivity|lia]|reflexivity]].
      destruct (zone_watermark_ok z0 (order cc1) (low_wmark_pages z0 k1) 0 0 k1
                && (compact_order_failed (zi1 z0) <=? order cc1)) eqn:Hok;
        [|split; [split; [reflexivity|lia]|reflexivity]].
      apply andb_true_iff in Hok. destruct Hok as (_ & Hle).
      apply Z.leb_le in Hle.
      unfold set_zone_info. destruct (z1 =? z0) eqn:E.
      - apply Z.eqb_eq in E. subst z1.
        split; [split; [reflexivity|cbn; lia]|].
        intros Hne. contradiction Hne. reflexivity.
      - split; [split; [reflexivity|lia]|reflexivity]. }
    destruct (IH _ _ _ _ _ _ Hs1 H z) as ((A1 & A2) & B).
    destruct (H1 z) as ((C1 & C2) & D).
    destruct (H2 z) as ((E1 & E2) & F).
    split; [split; [congruence|lia]|].
    intros Hn.
    rewrite B by (intros Hin; apply Hn; right; exact Hin).
    assert (Hne : z <> z0) by (intros ->; apply Hn; left; reflexivity).
    rewrite F, D by exact Hne. reflexivity.
Qed.

(** X14: the async per-node pass and the deferral state.  [compact_pgdat]
    returns 0; it never defers compaction, so that no zone's
    [compact_defer_shift] changes; it never lowers a zone's
    [compact_order_failed]; and it leaves the deferral state of every
    zone outside the node untouched. *)
Theorem compact_pgdat_deferral fuel pgdat ord zi k r cc' zi' k' :
  compact_pgdat fuel pgdat ord zi k = Some (r, cc', zi', k') ->
  r = 0
  /\ forall z,
      compact_defer_shift (zi' z) = compact_defer_shift (zi z)
      /\ compact_order_failed (zi z) <= compact_order_failed (zi' z)
      /\ (~ In z (node_zones pgdat) -> zi' z = zi z).
Proof.
  unfold compact_pgdat, __compact_pgdat.
  destruct (__compact_pgdat_zones fuel (node_zones pgdat) _ zi k)
    as [[[cc1 zi1] k1]|] eqn:Hz; [|discriminate].
  intros H. injection H as <- _ <- _.
  split; [reflexivity|]. intros z.
  eapply __compact_pgdat_zones_async in Hz; [|reflexivity].
  destruct Hz as ((A & B) & C). split; [exact A|]. split; [exact B|exact C].
Qed.

End MoreProperties.

(** * The further properties on the small kernel *)

Section MoreExamples.

Import Toy.

Lemma compact_checklock_irqsave_contended_witness :
  set_contended cc_async = set_contended cc_async
  /\ contended (set_contended cc_async) = Some true
  /\ fst (fst (compact_checklock_irqsave (kern := machine) (lru_lock 0) true
                 cc_sync k_contended)) = true.
Proof.
  pose proof (compact_checklock_irqsave_contended (kern := machine))
    as (H1 & H2).
  destruct (H1 (lru_lock 0) true cc_async k_contended false
              (set_contended cc_async) k_contended) as (_ & Ha).
  { vm_compute. reflexivity. }
  destruct Ha as (Ha1 & Ha2); try reflexivity.
  split; [exact Ha1|]. split; [exact Ha2|].
  apply (H2 (lru_lock 0) true cc_sync k_contended); reflexivity.
Defined.

Lemma isolate_freepages_block_strict_run_witness :
  1024 < 1028 /\ 1028 <= 1024 + 4
  /\ [1027; 1026; 1025; 1024] = rev (pfn_run (Z.to_nat 4) 1024) ++ [].
Proof.
  apply (isolate_freepages_block_strict_run (kern := machine) 1024 1028 []
           k_quad 4 [1027; 1026; 1025; 1024] (with_buddy k_quad [] : @K machine)).
  - vm_compute. reflexivity.
  - discriminate.
Defined.

Lemma isolate_migratepages_range_pages_witness :
  exists r cc' k' new,
    isolate_migratepages_range (kern := machine) 0 0 cc_sync 1024 2048
      k_two_batches = Some (r, cc', k')
    /\ r = 1056
    /\ migratepages cc' = new ++ migratepages cc_sync
    /\ nr_migratepages cc' = nr_migratepages cc_sync + Z.of_nat (length new)
    /\ nr_migratepages cc' <= COMPACT_CLUSTER_MAX.
Proof.
  destruct (isolate_migratepages_range (kern := machine) 0 0 cc_sync 1024 2048
              k_two_batches) as [[[r cc'] k']|] eqn:E.
  - destruct (isolate_migratepages_range_pages (kern := machine) 0 0 cc_sync
                1024 2048 k_two_batches r cc' k' E)
      as (new & H1 & H2 & _ & H4).
    exists r, cc', k', new. split; [reflexivity|].
    split; [vm_compute in E; injection E as <- _ _; reflexivity|].
    split; [exact H1|]. split; [exact H2|].
    apply H4. vm_compute. reflexivity.
  - vm_compute in E. discriminate.
Defined.

Lemma isolate_freepages_cursor_and_count_witness :
  exists cc' k',
    isolate_freepages (kern := machine) 0 cc_need_free k_isolated_batch
    = (cc', k')
    /\ free_pfn cc' = 3072
    /\ free_pfn cc' <= free_pfn cc_need_free
    /\ migrate_pfn cc' < free_pfn cc'.
Proof.
  destruct (isolate_freepages (kern := machine) 0 cc_need_free
              k_isolated_batch) as [cc' k'] eqn:E.
  destruct (isolate_freepages_cursor_and_count (kern := machine) 0
              cc_need_free k_isolated_batch cc' k' E)
    as (_ & H2 & H3 & _).
  exists cc', k'. split; [reflexivity|].
  split; [vm_compute in E; injection E as <- _; reflexivity|].
  split; [exact H2|]. apply H3. vm_compute. reflexivity.
Defined.

Lemma compaction_alloc_pops_witness :
  compaction_alloc (kern := machine) 1024 cc_two_free k_isolated_batch
  = (Some 3000,
     set_freelist cc_two_free [3001]
       (ulong_sub (kern := machine) (nr_freepages cc_two_free) 1),
     k_isolated_batch)
  /\ ulong_sub (kern := machine) 2 1 = 2 - 1
  /\ ulong_sub (kern := machine) 0 1 = 2 ^ 32 - 1
  /\ (exists r cc' k',
         compaction_alloc (kern := machine) 1024 cc_need_free k_isolated_batch
         = (r, cc', k')
         /\ r = Some 4095
         /\ free_pfn cc' <= free_pfn cc_need_free
         /\ nr_freepages cc' = Z.of_nat (length (freepages cc')) mod 2 ^ 32).
Proof.
  pose proof (compaction_alloc_pops (kern := machine)) as (H1 & H2 & H3 & H4).
  split; [|split; [|split]].
  - apply (H1 1024 cc_two_free k_isolated_batch 3000 [3001]). reflexivity.
  - apply (H2 2). vm_compute. split; [reflexivity|discriminate].
  - apply H3. vm_compute. discriminate.
  - destruct (compaction_alloc (kern := machine) 1024 cc_need_free
                k_isolated_batch) as [[r cc'] k'] eqn:E.
    destruct (H4 1024 cc_need_free k_isolated_batch r cc' k' E)
      as (_ & Hf & _ & Hn).
    exists r, cc', k'. split; [reflexivity|].
    split; [vm_compute in E; injection E as <- _ _; reflexivity|].
    split; [exact Hf|]. apply Hn. reflexivity.
Defined.

Lemma isolate_migratepages_cursor_witness :
  free_pfn (set_migrate_pfn cc_mid_block 4096) = free_pfn cc_mid_block
  /\ migrate_pfn cc_mid_block < migrate_pfn (set_migrate_pfn cc_mid_block 4096)
  /\ migrate_pfn (set_migrate_pfn cc_mid_block 4096)
     mod pageblock_nr_pages (kern := machine) = 0.
Proof.
  destruct (isolate_migratepages_cursor (kern := machine) 0 0 cc_mid_block
              k_contended ISOLATE_NONE (set_migrate_pfn cc_mid_block 4096)
              k_contended) as (H1 & H2 & H3 & _).
  { vm_compute. reflexivity. }
  split; [exact H1|]. split; [exact H2|exact H3].
Defined.

Lemma compact_zone_cursors_monotone_witness :
  exists cc k,
    zone_run_reaches (kern := machine) 0
      (compact_zone_init (kern := machine) 0 cc_greedy) k_two_batches cc k
    /\ migrate_pfn (compact_zone_init (kern := machine) 0 cc_greedy)
       <= migrate_pfn cc
    /\ free_pfn cc
       <= free_pfn (compact_zone_init (kern := machine) 0 cc_greedy).
Proof.
  pose proof (compact_zone_cursors_monotone (kern := machine)) as (_ & H2).
  destruct (compact_zone_iterate (kern := machine) 3 5 0
              (compact_zone_init (kern := machine) 0 cc_greedy) k_two_batches)
    as [[cc k]|] eqn:E.
  - exists cc, k.
    pose proof (compact_zone_iterate_reaches _ _ _ _ _ _ _ E) as Hr.
    split; [exact Hr|]. exact (H2 _ _ _ _ _ Hr).
  - vm_compute in E. discriminate.
Defined.

Lemma compact_zone_status_witness :
  exists ret cc' k',
    compact_zone (kern := machine) 10 0 cc_greedy k_two_batches
    = Some (ret, cc', k')
    /\ ret = COMPACT_COMPLETE
    /\ ((ret = COMPACT_SKIPPED
         /\ compaction_suitable (kern := machine) 0 (order cc_greedy)
              k_two_batches = COMPACT_SKIPPED
         /\ cc' = cc_greedy /\ k' = k_two_batches)
        \/ ret = COMPACT_PARTIAL
        \/ (ret = COMPACT_COMPLETE /\ free_pfn cc' <= migrate_pfn cc')).
Proof.
  destruct (compact_zone (kern := machine) 10 0 cc_greedy k_two_batches)
    as [[[ret cc'] k']|] eqn:E.
  - exists ret, cc', k'. split; [reflexivity|].
    split; [vm_compute in E; injection E as <- _ _; reflexivity|].
    exact (compact_zone_status (kern := machine) 10 0 cc_greedy k_two_batches
             ret cc' k' E).
  - vm_compute in E. discriminate.
Defined.

Lemma try_to_compact_pages_status_witness :
  exists r c' p' k',
    try_to_compact_pages (kern := machine) 10 0 3 208 0 true None None
      k_free_order3 = Some (r, c', p', k')
    /\ r = COMPACT_PARTIAL
    /\ (r = COMPACT_SKIPPED \/ r = COMPACT_PARTIAL \/ r = COMPACT_COMPLETE).
Proof.
  destruct (try_to_compact_pages (kern := machine) 10 0 3 208 0 true None None
              k_free_order3) as [[[[r c'] p'] k']|] eqn:E.
  - exists r, c', p', k'. split; [reflexivity|].
    split; [vm_compute in E; injection E as <- _ _ _; reflexivity|].
    exact (try_to_compact_pages_status (kern := machine) 10 0 3 208 0 true
             None None k_free_order3 r c' p' k' E).
  - vm_compute in E. discriminate.
Defined.

Lemma compact_capture_page_source_witness :
  compact_capture_page (kern := machine) cc_greedy k_free_order3
  = (cc_greedy, k_free_order3)
  /\ (exists cc' k',
         compact_capture_page (kern := machine_capturing) cc_capture
           k_free_order3 = (cc', k')
         /\ page cc' = Some (Some 2048)
         /\ (page cc' = Some None
             \/ exists pg mt ord' k1,
                 page cc' = Some (Some pg)
                 /\ 0 <= mt < MIGRATE_PCPTYPES
                 /\ order cc_capture <= ord'
                    < MAX_ORDER (Kernel := machine_capturing)
                 /\ hd_error (free_list (Kernel := machine_capturing) 0 ord'
                                mt k1) = Some pg
                 /\ fst (capture_free_page (Kernel := machine_capturing) pg
                           (order cc_capture) mt k1) = true)).
Proof.
  split.
  - apply (proj1 (compact_capture_page_source (kern := machine))).
    discriminate.
  - pose proof (compact_capture_page_source (kern := machine_capturing))
      as (_ & _ & H3).
    destruct (compact_capture_page (kern := machine_capturing) cc_capture
                k_free_order3) as [cc' k'] eqn:E.
    exists cc', k'. split; [reflexivity|].
    split; [vm_compute in E; injection E as <- _; reflexivity|].
    exact (H3 cc_capture k_free_order3 cc' k' 0 eq_refl eq_refl E).
Defined.

Lemma compact_zone_body_async_never_waits_witness :
  exists it, forall fuel,
      compact_zone_body (kern := machine) fuel 0 cc_async k_contended
      = Some it.
Proof.
  apply (compact_zone_body_async_never_waits (kern := machine) 0 cc_async
           k_contended).
  reflexivity.
Defined.

Lemma compact_pgdat_deferral_witness :
  exists r cc' zi' k',
    compact_pgdat (kern := machine) 10 0 3 zi0 k_two_batches
    = Some (r, cc', zi', k')
    /\ r = 0
    /\ compact_defer_shift (zi' 0) = compact_defer_shift (zi0 0)
    /\ compact_order_failed (zi0 0) <= compact_order_failed (zi' 0).
Proof.
  destruct (compact_pgdat (kern := machine) 10 0 3 zi0 k_two_batches)
    as [[[[r cc'] zi'] k']|] eqn:E.
  - destruct (compact_pgdat_deferral (kern := machine) 10 0 3 zi0
                k_two_batches r cc' zi' k' E) as (Hr & Hz).
    destruct (Hz 0) as (A & B & _).
    exists r, cc', zi', k'. split; [reflexivity|]. tauto.
  - vm_compute in E. discriminate.
Defined.

End MoreExamples.
